(** * Concurrent balance management: the [update_balance] stored procedure
      and the client retry controller [updateBalance].

    Sources embedded here:
    - [supabase/migrations/001_banking.sql] (schema, first [update_balance],
      [create_user_account]);
    - [supabase/migrations/002_demo_account.sql] (the [update_balance] that
      replaces it, with demo accounts whose [user_id] is NULL, their read
      policy, and [create_demo_account]);
    - [lib/banking.ts] ([calculateBackoffDelay], [generateIdempotencyKey],
      [getAccountVersion], [attemptBalanceUpdate], [updateBalance]);
    - [lib/validations.ts] (the form validators);
    - [types/banking.ts] ([BankingError], [DEFAULT_RETRY_CONFIG]).

    Modelling choices.
    - One RPC call runs as one database transaction; it is modelled as a
      function from the database state to either a returned row and a new
      state, or a raised database error, after which the state is rolled
      back ([rpc_state]).
    - PL/pgSQL variables that may hold NULL are [option] values, and SQL
      conditions are three-valued ([option bool]); an [IF] takes its branch
      only on TRUE ([sql_if]).
    - DECIMAL(15,2) values are integers counting cents; a value whose
      absolute value reaches [10^15] cents overflows.  INTEGER is the 32-bit
      signed range; PostgreSQL raises on overflow rather than wrapping.
      Amounts are whole numbers of cents; the NUMERIC parameter [p_amount]
      carries no bound of its own (type modifiers of parameters are
      discarded), and overflows only where it is stored or combined into a
      DECIMAL(15,2) variable or column.
    - UUIDs are [Z]; generated ids and timestamps are not modelled.  The
      formatted error messages are kept as their format arguments. *)

From Stdlib Require Import ZArith List String Ascii Bool Lia QArith Qround Qminmax Lqa.
Import ListNotations.
Open Scope string_scope.
Open Scope list_scope.
Open Scope Z_scope.

Module Ledger.

Definition uuid := Z.

(** ** Rows of the two tables *)

Record account := mkAccount {
  acc_id : uuid;
  acc_user_id : option uuid;   (* nullable since migration 002 *)
  acc_balance : Z;             (* DECIMAL(15,2), in cents *)
  acc_version : Z              (* INTEGER *)
}.

Inductive status := Completed | Failed | Pending.

Definition status_eqb (a b : status) : bool :=
  match a, b with
  | Completed, Completed | Failed, Failed | Pending, Pending => true
  | _, _ => false
  end.

(** Error codes (the VARCHAR(50) values written by the procedure, and the
    [BankingErrorCode] union of the client). *)
Inductive code :=
| ACCOUNT_NOT_FOUND | VERSION_CONFLICT | INSUFFICIENT_FUNDS | INVALID_TYPE
| INVALID_AMOUNT | MAX_RETRIES_EXCEEDED | NETWORK_ERROR | UNAUTHORIZED
| UNKNOWN_ERROR.

Definition code_eqb (a b : code) : bool :=
  match a, b with
  | ACCOUNT_NOT_FOUND, ACCOUNT_NOT_FOUND | VERSION_CONFLICT, VERSION_CONFLICT
  | INSUFFICIENT_FUNDS, INSUFFICIENT_FUNDS | INVALID_TYPE, INVALID_TYPE
  | INVALID_AMOUNT, INVALID_AMOUNT | MAX_RETRIES_EXCEEDED, MAX_RETRIES_EXCEEDED
  | NETWORK_ERROR, NETWORK_ERROR | UNAUTHORIZED, UNAUTHORIZED
  | UNKNOWN_ERROR, UNKNOWN_ERROR => true
  | _, _ => false
  end.

(** Messages: literal texts, or the arguments of a [format(...)] call. *)
Inductive message :=
| MsgText (s : string)
| MsgVersionMismatch (expected found : option Z)
| MsgCannotWithdraw (amount balance : option Z).

Record txn := mkTxn {
  tx_account_id : uuid;
  tx_type : option string;
  tx_amount : Z;
  tx_balance_before : option Z;
  tx_balance_after : option Z;
  tx_version_at : option Z;
  tx_status : status;
  tx_error_message : option message;
  tx_idempotency_key : option uuid
}.

Record db := mkDb {
  accounts : list account;
  transactions : list txn     (* in insertion order *)
}.

(** The row returned by [RETURNS TABLE (...)]. *)
Record rpc_row := mkRow {
  success : bool;
  new_balance : option Z;
  new_version : option Z;
  error_code : option code;
  error_message : option message
}.

(** Errors raised by the database engine; they abort the transaction. *)
Inductive db_error :=
| NotNullViolation (column : string)
| CheckViolation (constraint : string)
| UniqueViolation (constraint : string)
| ForeignKeyViolation (constraint : string)
| NumericFieldOverflow
| IntegerOutOfRange.

Inductive result (A : Type) :=
| Ok (a : A)
| Raise (e : db_error).
Arguments Ok {A} a.
Arguments Raise {A} e.

Definition bind {A B} (m : result A) (k : A -> result B) : result B :=
  match m with Ok a => k a | Raise e => Raise e end.

Notation "x <- m ;; k" := (bind m (fun x => k))
  (at level 61, m at next level, right associativity).

(** The state after the RPC's transaction: committed, or rolled back. *)
Definition rpc_state (s : db) (r : result (rpc_row * db)) : db :=
  match r with Ok (_, s') => s' | Raise _ => s end.

(** ** SQL values and three-valued logic *)

Definition sql_if (c : option bool) : bool :=
  match c with Some true => true | _ => false end.

Definition sql_not (c : option bool) : option bool := option_map negb c.

Definition sql_and (a b : option bool) : option bool :=
  match a, b with
  | Some false, _ | _, Some false => Some false
  | Some true, Some true => Some true
  | _, _ => None
  end.

Definition sql_is_not_null {A} (a : option A) : option bool :=
  Some (match a with Some _ => true | None => false end).

Definition sql_is_null {A} (a : option A) : option bool :=
  Some (match a with Some _ => false | None => true end).

Definition sql_cmpZ (f : Z -> Z -> bool) (a b : option Z) : option bool :=
  match a, b with Some x, Some y => Some (f x y) | _, _ => None end.

Definition sql_neZ := sql_cmpZ (fun x y => negb (x =? y)).
Definition sql_ltZ := sql_cmpZ Z.ltb.

Definition sql_eq_str (a : option string) (b : string) : option bool :=
  option_map (fun x => String.eqb x b) a.

Definition sql_in_str (a : option string) (l : list string) : option bool :=
  option_map (fun x => existsb (String.eqb x) l) a.

Definition sql_addZ (a b : option Z) : option Z :=
  match a, b with Some x, Some y => Some (x + y) | _, _ => None end.
Definition sql_subZ (a b : option Z) : option Z :=
  match a, b with Some x, Some y => Some (x - y) | _, _ => None end.

(** DECIMAL(15,2): at most 13 digits before the point. *)
Definition numeric_15_2 (x : option Z) : result (option Z) :=
  match x with
  | Some v => if Z.abs v <? 10 ^ 15 then Ok (Some v) else Raise NumericFieldOverflow
  | None => Ok None
  end.

(** INTEGER: 32-bit signed. *)
Definition int4 (v : Z) : result Z :=
  if (- 2 ^ 31 <=? v) && (v <=? 2 ^ 31 - 1) then Ok v else Raise IntegerOutOfRange.

(** ** Table access *)

(** [SELECT ... FROM accounts WHERE id = p]: [id] is the primary key. *)
Definition find_account (id : uuid) (l : list account) : option account :=
  find (fun a => acc_id a =? id) l.

Definition key_eqb (k : uuid) (o : option uuid) : bool :=
  match o with Some k' => k' =? k | None => false end.

(** [UPDATE accounts SET balance = nb, version = version + 1
     WHERE id = p AND version = ev]: the new rows and the row count. *)
Definition update_row (nb : option Z) (a : account) : result account :=
  v <- int4 (acc_version a + 1) ;;
  match nb with
  | None => Raise (NotNullViolation "balance")
  | Some b =>
      if b <? 0 then Raise (CheckViolation "balance_non_negative")
      else Ok (mkAccount (acc_id a) (acc_user_id a) b v)
  end.

Fixpoint update_accounts (id ev : Z) (nb : option Z) (l : list account)
  : result (list account * Z) :=
  match l with
  | [] => Ok ([], 0)
  | a :: l' =>
      r <- update_accounts id ev nb l' ;;
      let '(l'', n) := r in
      if (acc_id a =? id) && (acc_version a =? ev) then
        a' <- update_row nb a ;; Ok (a' :: l'', n + 1)
      else Ok (a :: l'', n)
  end.

(** [INSERT INTO transactions]: the NOT NULL columns and the CHECK
    constraints ([txn_check]), after the [amount] value has been coerced to
    the DECIMAL(15,2) column ([insert_txn]), then the UNIQUE index on
    [idempotency_key] and the foreign key to [accounts].  The two balance
    columns receive values that are already DECIMAL(15,2). *)
Definition txn_check (t : txn) : result unit :=
  match tx_type t, tx_balance_before t, tx_balance_after t, tx_version_at t with
  | None, _, _, _ => Raise (NotNullViolation "type")
  | _, None, _, _ => Raise (NotNullViolation "balance_before")
  | _, _, None, _ => Raise (NotNullViolation "balance_after")
  | _, _, _, None => Raise (NotNullViolation "version_at")
  | Some ty, Some bb, Some ba, Some _ =>
      if negb (existsb (String.eqb ty) ["deposit"; "withdraw"])
      then Raise (CheckViolation "transactions_type_check")
      else if negb (0 <? tx_amount t)
      then Raise (CheckViolation "transactions_amount_check")
      else if ((String.eqb ty "deposit") && (ba =? bb + tx_amount t))
              || ((String.eqb ty "withdraw") && (ba =? bb - tx_amount t))
              || status_eqb (tx_status t) Failed
      then Ok tt
      else Raise (CheckViolation "valid_balance_change")
  end.

Definition insert_txn (s : db) (t : txn) : result db :=
  c <- numeric_15_2 (Some (tx_amount t)) ;;
  u <- txn_check t ;;
  u' <- match tx_idempotency_key t with
  | Some k =>
      if existsb (fun t' => key_eqb k (tx_idempotency_key t')) (transactions s)
      then Raise (UniqueViolation "transactions_idempotency_key_key")
      else Ok tt
  | None => Ok tt
  end ;;
  match find_account (tx_account_id t) (accounts s) with
  | None => Raise (ForeignKeyViolation "transactions_account_id_fkey")
  | Some _ => Ok (mkDb (accounts s) (transactions s ++ [t]))
  end.

(** ** The procedure [update_balance]

    The body after the authorization check is the same text in both
    migrations; it is [update_balance_body]. *)

Definition row_fail (c : code) (b v : option Z) (m : message) : rpc_row :=
  mkRow false b v (Some c) (Some m).

Definition msg_idempotent : message :=
  MsgText "Idempotent: transaction already processed".

(** Step 2's cached result:
    [SELECT t.balance_after, a.version INTO v_new_balance, v_current_version
     FROM transactions t JOIN accounts a ON a.id = t.account_id
     WHERE t.idempotency_key = k] (first row, NULLs when there is none). *)
Definition replay_lookup (s : db) (k : uuid) : option Z * option Z :=
  match find (fun t => key_eqb k (tx_idempotency_key t)) (transactions s) with
  | Some t =>
      match find_account (tx_account_id t) (accounts s) with
      | Some a => (tx_balance_after t, Some (acc_version a))
      | None => (None, None)
      end
  | None => (None, None)
  end.

Definition has_completed_key (s : db) (k : uuid) : bool :=
  existsb (fun t => key_eqb k (tx_idempotency_key t)
                    && status_eqb (tx_status t) Completed) (transactions s).

(** Steps 7 to 10: the conditional write, the conflict re-read, the
    completed audit entry and the success row. *)
Definition update_balance_commit (s : db) (p_account_id : uuid) (p_amount : Z)
    (p_type : option string) (p_expected_version : Z)
    (p_idempotency_key : option uuid)
    (v_current_balance v_new_balance : option Z) : result (rpc_row * db) :=
  r <- update_accounts p_account_id p_expected_version v_new_balance (accounts s) ;;
  let '(accs, v_rows_affected) := r in
  let s1 := mkDb accs (transactions s) in
  if v_rows_affected =? 0 then
    let v_current_version :=
      option_map acc_version (find_account p_account_id (accounts s1)) in
    Ok (row_fail VERSION_CONFLICT v_current_balance v_current_version
          (MsgText "Concurrent modification detected"), s1)
  else
    ev1 <- int4 (p_expected_version + 1) ;;
    s2 <- insert_txn s1 (mkTxn p_account_id p_type p_amount v_current_balance
                           v_new_balance (Some ev1) Completed None
                           p_idempotency_key) ;;
    Ok (mkRow true v_new_balance (Some ev1) None None, s2).

(** Steps 3 to 10. *)
Definition update_balance_apply (s : db) (p_account_id : uuid) (p_amount : Z)
    (p_type : option string) (p_expected_version : Z)
    (p_idempotency_key : option uuid) : result (rpc_row * db) :=
  let cur := find_account p_account_id (accounts s) in
  let v_current_balance := option_map acc_balance cur in
  let v_current_version := option_map acc_version cur in
  if sql_if (sql_neZ v_current_version (Some p_expected_version)) then
    Ok (row_fail VERSION_CONFLICT v_current_balance v_current_version
          (MsgVersionMismatch (Some p_expected_version) v_current_version), s)
  else if sql_if (sql_not (sql_in_str p_type ["deposit"; "withdraw"])) then
    Ok (row_fail INVALID_TYPE None None
          (MsgText "Type must be deposit or withdraw"), s)
  else if sql_if (sql_eq_str p_type "deposit") then
    v_new_balance <- numeric_15_2 (sql_addZ v_current_balance (Some p_amount)) ;;
    update_balance_commit s p_account_id p_amount p_type p_expected_version
      p_idempotency_key v_current_balance v_new_balance
  else
    v_new_balance <- numeric_15_2 (sql_subZ v_current_balance (Some p_amount)) ;;
    if sql_if (sql_ltZ v_new_balance (Some 0)) then
      s' <- insert_txn s (mkTxn p_account_id p_type p_amount v_current_balance
                            v_current_balance v_current_version Failed
                            (Some (MsgText "Insufficient funds"))
                            p_idempotency_key) ;;
      Ok (row_fail INSUFFICIENT_FUNDS v_current_balance v_current_version
            (MsgCannotWithdraw (Some p_amount) v_current_balance), s')
    else
      update_balance_commit s p_account_id p_amount p_type p_expected_version
        p_idempotency_key v_current_balance v_new_balance.

(** Steps 2 to 10: the idempotency check, then the rest. *)
Definition update_balance_body (s : db) (p_account_id : uuid) (p_amount : Z)
    (p_type : option string) (p_expected_version : Z)
    (p_idempotency_key : option uuid) : result (rpc_row * db) :=
  match p_idempotency_key with
  | Some k =>
      if has_completed_key s k then
        let '(v_new_balance, v_current_version) := replay_lookup s k in
        Ok (mkRow true v_new_balance v_current_version None (Some msg_idempotent), s)
      else update_balance_apply s p_account_id p_amount p_type
             p_expected_version p_idempotency_key
  | None =>
      update_balance_apply s p_account_id p_amount p_type
        p_expected_version p_idempotency_key
  end.

(** Arguments are converted to the parameter types at the call.
    [CREATE FUNCTION] discards type modifiers, so [p_amount] is an unbounded
    NUMERIC and [p_type] an unbounded VARCHAR; only the INTEGER
    [p_expected_version] is range-checked. *)
Definition coerce_args (p_expected_version : Z) : result unit :=
  v <- int4 p_expected_version ;; Ok tt.

(** [update_balance] of migration 001; [uid] is [auth.uid()]. *)
Definition update_balance_001 (s : db) (uid : option uuid) (p_account_id : uuid)
    (p_amount : Z) (p_type : option string) (p_expected_version : Z)
    (p_idempotency_key : option uuid) : result (rpc_row * db) :=
  u <- coerce_args p_expected_version ;;
  let v_user_id :=
    match find_account p_account_id (accounts s) with
    | Some a => acc_user_id a
    | None => None
    end in
  if sql_if (sql_is_null v_user_id) then
    Ok (row_fail ACCOUNT_NOT_FOUND None None (MsgText "Account does not exist"), s)
  else if sql_if (sql_neZ v_user_id uid) then
    Ok (row_fail UNAUTHORIZED None None
          (MsgText "Not authorized to modify this account"), s)
  else
    update_balance_body s p_account_id p_amount p_type p_expected_version
      p_idempotency_key.

(** [update_balance] of migration 002, the one in force:
    [SELECT a.user_id, TRUE INTO v_user_id, v_account_exists] leaves both
    NULL when no row matches. *)
Definition update_balance (s : db) (uid : option uuid) (p_account_id : uuid)
    (p_amount : Z) (p_type : option string) (p_expected_version : Z)
    (p_idempotency_key : option uuid) : result (rpc_row * db) :=
  u <- coerce_args p_expected_version ;;
  let '(v_user_id, v_account_exists) :=
    match find_account p_account_id (accounts s) with
    | Some a => (acc_user_id a, Some true)
    | None => (None, None)
    end in
  if sql_if (sql_not v_account_exists) then
    Ok (row_fail ACCOUNT_NOT_FOUND None None (MsgText "Account does not exist"), s)
  else if sql_if (sql_and (sql_is_not_null v_user_id) (sql_neZ v_user_id uid)) then
    Ok (row_fail UNAUTHORIZED None None
          (MsgText "Not authorized to modify this account"), s)
  else
    update_balance_body s p_account_id p_amount p_type p_expected_version
      p_idempotency_key.

End Ledger.

(** * The client: [lib/banking.ts] *)

Module Client.
Import Ledger.

(** ** [calculateBackoffDelay]

    The millisecond quantities are JavaScript numbers; they are modelled as
    exact rationals, and [Math.random()] as a draw in [[0, 1)]. *)

Record RetryConfig := mkRetryConfig {
  maxRetries : Z;
  baseDelayMs : Q;
  maxDelayMs : Q;
  retryableErrors : list code
}.

Definition DEFAULT_RETRY_CONFIG : RetryConfig :=
  mkRetryConfig 3 100 2000 [VERSION_CONFLICT; NETWORK_ERROR].

(** [Math.round]: the nearest integer, halves rounded towards +infinity. *)
Definition Math_round (x : Q) : Z := Qfloor (x + (1 # 2)).

Definition calculateBackoffDelay (attempt : nat) (config : RetryConfig)
    (random : Q) : Z :=
  let exponentialDelay := (baseDelayMs config * inject_Z (2 ^ Z.of_nat attempt))%Q in
  let cappedDelay := Qmin exponentialDelay (maxDelayMs config) in
  let jitter := (cappedDelay * (1 # 4) * (random * 2 - 1))%Q in
  Math_round (cappedDelay + jitter).

(** ** Errors and results *)

(** [BankingError]: its code and the optional balance and version it
    carries (the message text is not modelled). *)
Record BankingError := mkBankingError {
  be_code : code;
  currentBalance : option Z;
  currentVersion : option Z
}.

Definition isRetryable (e : BankingError) : bool :=
  code_eqb (be_code e) VERSION_CONFLICT || code_eqb (be_code e) NETWORK_ERROR.

Record UpdateBalanceParams := mkParams {
  accountId : uuid;
  amount : Z;
  type_ : string;
  idempotencyKey : option uuid
}.

Record UpdateBalanceResult := mkResult {
  r_success : bool;
  newBalance : option Z;
  newVersion : option Z;
  errorCode : option code;
  errorMessage : option message
}.

(** What a [try] block can throw: a [BankingError], or anything else. *)
Inductive thrown :=
| ThrownBanking (e : BankingError)
| ThrownOther.

Inductive js (A : Type) :=
| Val (a : A)
| Exc (t : thrown).
Arguments Val {A} a.
Arguments Exc {A} t.

(** ** The environment of the client

    Each attempt reads the account and, possibly, calls the RPC; the
    answers are given per attempt.  [env_rpc] receives the RPC arguments. *)

Inductive fetch_answer :=
| FetchRow (version balance : Z)   (* [{ data }] *)
| FetchError                       (* [{ error }] or no row *)
| FetchThrows.                     (* the promise rejects *)

Inductive rpc_answer :=
| RpcData (rows : list rpc_row)
| RpcError
| RpcThrows.

Record rpc_request := mkRequest {
  p_account_id : uuid;
  p_amount : Z;
  p_type : string;
  p_expected_version : Z;
  p_idempotency_key : uuid
}.

Record env := mkEnv {
  env_fetch : nat -> fetch_answer;
  env_rpc : nat -> rpc_request -> rpc_answer;
  env_random : nat -> Q
}.

(** [getAccountVersion]: [{ version, balance }] or a thrown error. *)
Definition getAccountVersion (f : fetch_answer) : js (Z * Z) :=
  match f with
  | FetchRow v b => Val (v, b)
  | FetchError => Exc (ThrownBanking (mkBankingError ACCOUNT_NOT_FOUND None None))
  | FetchThrows => Exc ThrownOther
  end.

(** [attemptBalanceUpdate]: the first row of the RPC's answer. *)
Definition attemptBalanceUpdate (a : rpc_answer) : js UpdateBalanceResult :=
  match a with
  | RpcError => Exc (ThrownBanking (mkBankingError NETWORK_ERROR None None))
  | RpcThrows => Exc ThrownOther
  | RpcData [] => Exc (ThrownBanking (mkBankingError UNKNOWN_ERROR None None))
  | RpcData (r :: _) =>
      Val (mkResult (success r) (new_balance r) (new_version r)
             (error_code r) (error_message r))
  end.

(** ** One iteration of the [while] loop of [updateBalance] *)

(** How the [try] block ends. *)
Inductive try_result :=
| TryReturn (r : UpdateBalanceResult)
| TryFallThrough (lastError : BankingError)
| TryThrow (t : thrown).

Definition try_block (cfg : RetryConfig) (params : UpdateBalanceParams)
    (key : uuid) (e : env) (attempt : nat) : try_result :=
  match getAccountVersion (env_fetch e attempt) with
  | Exc t => TryThrow t
  | Val (expectedVersion, currentBalance) =>
      if String.eqb (type_ params) "withdraw" && (currentBalance <? amount params)
      then TryThrow (ThrownBanking
             (mkBankingError INSUFFICIENT_FUNDS (Some currentBalance)
                (Some expectedVersion)))
      else
        match attemptBalanceUpdate
                (env_rpc e attempt
                   (mkRequest (accountId params) (amount params) (type_ params)
                      expectedVersion key)) with
        | Exc t => TryThrow t
        | Val result =>
            if r_success result then TryReturn result
            else
              match errorCode result with
              | Some c =>
                  if negb (existsb (code_eqb c) (retryableErrors cfg))
                  then TryThrow (ThrownBanking
                         (mkBankingError c (newBalance result) (newVersion result)))
                  else TryFallThrough
                         (mkBankingError c (newBalance result) (newVersion result))
              | None =>
                  TryFallThrough
                    (mkBankingError UNKNOWN_ERROR (newBalance result) (newVersion result))
              end
        end
  end.

Inductive iteration :=
| IterReturn (r : UpdateBalanceResult)
| IterThrow (e : BankingError)
| IterNext (lastError : BankingError).

(** The [catch] clause. *)
Definition catch_clause (t : try_result) : iteration :=
  match t with
  | TryReturn r => IterReturn r
  | TryFallThrough e => IterNext e
  | TryThrow (ThrownBanking e) => if isRetryable e then IterNext e else IterThrow e
  | TryThrow ThrownOther => IterNext (mkBankingError UNKNOWN_ERROR None None)
  end.

Inductive outcome :=
| Returns (r : UpdateBalanceResult)
| Throws (e : BankingError).

Definition max_retries_exceeded (lastError : option BankingError) : BankingError :=
  mkBankingError MAX_RETRIES_EXCEEDED
    (match lastError with Some e => currentBalance e | None => None end)
    (match lastError with Some e => currentVersion e | None => None end).

(** The loop, with the delays it sleeps.  [fuel] bounds the iterations
    only for termination: [updateBalance] gives [maxRetries + 1], the number
    of values of [attempt] that pass the loop condition. *)
Fixpoint retry_loop (cfg : RetryConfig) (params : UpdateBalanceParams)
    (key : uuid) (e : env) (attempt : nat) (lastError : option BankingError)
    (fuel : nat) : outcome * list Z :=
  match fuel with
  | O => (Throws (max_retries_exceeded lastError), [])
  | S fuel' =>
      if Z.of_nat attempt <=? maxRetries cfg then
        match catch_clause (try_block cfg params key e attempt) with
        | IterReturn r => (Returns r, [])
        | IterThrow err => (Throws err, [])
        | IterNext err =>
            let delays :=
              if Z.of_nat attempt <? maxRetries cfg
              then [calculateBackoffDelay attempt cfg (env_random e attempt)]
              else [] in
            let '(o, ds) := retry_loop cfg params key e (S attempt) (Some err) fuel' in
            (o, delays ++ ds)
        end
      else (Throws (max_retries_exceeded lastError), [])
  end.

(** [updateBalance]; [generated] is the key [generateIdempotencyKey()]
    would produce. *)
Definition updateBalance (params : UpdateBalanceParams) (cfg : RetryConfig)
    (e : env) (generated : uuid) : outcome * list Z :=
  if amount params <=? 0 then
    (Throws (mkBankingError INVALID_AMOUNT None None), [])
  else if negb (existsb (String.eqb (type_ params)) ["deposit"; "withdraw"]) then
    (Throws (mkBankingError INVALID_TYPE None None), [])
  else
    let key := match idempotencyKey params with Some k => k | None => generated end in
    retry_loop cfg params key e 0 None (Z.to_nat (maxRetries cfg + 1)).

End Client.

(** * Sample database states *)

Module Samples.
Import Ledger.

(** An unowned (demo) account 1 holding 50.00 at version 1. *)
Definition demo_db : db := mkDb [mkAccount 1 None 5000 1] [].

(** An empty unowned account 1 at version 1. *)
Definition fresh_db : db := mkDb [mkAccount 1 None 0 1] [].

(** [fresh_db] after two deposits of 10.00 with keys 11 and 12. *)
Definition replay_db : db :=
  mkDb [mkAccount 1 None 2000 3]
       [mkTxn 1 (Some "deposit") 1000 (Some 0) (Some 1000) (Some 2) Completed None (Some 11);
        mkTxn 1 (Some "deposit") 1000 (Some 1000) (Some 2000) (Some 3) Completed None (Some 12)].

(** [fresh_db] after a rejected withdrawal of 10.00 with key 21. *)
Definition poisoned_db : db :=
  mkDb [mkAccount 1 None 0 1]
       [mkTxn 1 (Some "withdraw") 1000 (Some 0) (Some 0) (Some 1) Failed
          (Some (MsgText "Insufficient funds")) (Some 21)].

(** Account 1 owned by user 7; account 2 unowned, with a completed deposit
    under key 31. *)
Definition two_owners_db : db :=
  mkDb [mkAccount 1 (Some 7) 5000 4; mkAccount 2 None 3000 2]
       [mkTxn 2 (Some "deposit") 1000 (Some 2000) (Some 3000) (Some 2) Completed None (Some 31)].

End Samples.

(** * [create_demo_account] (migration 002) and [create_user_account] *)

Module Provisioning.
Import Ledger.

(** A text value: its characters, as Unicode code points (a space is 32).
    VARCHAR(n) counts characters, not bytes. *)
Definition text := list Z.

(** Assignment to a VARCHAR(n) column: a longer string is refused unless
    the excess characters are all spaces, which are cut off. *)
Definition varchar_assign (n : nat) (c : text) : option text :=
  if (List.length c <=? n)%nat then Some c
  else if forallb (fun ch => ch =? 32) (skipn n c) then Some (firstn n c)
  else None.

(** How [create_demo_account] ends: the account it returns and the new
    state, a raised error, or the VARCHAR(3) refusal of the currency. *)
Inductive create_outcome :=
| Created (a : account) (s : db)
| CreateRaised (e : db_error)
| ValueTooLong (column : string).

(** [SELECT * INTO v_new_account FROM accounts WHERE user_id IS NULL
     LIMIT 1]: with no ORDER BY, the first such row of the scan. *)
Definition first_unowned (l : list account) : option account :=
  find (fun a => match acc_user_id a with None => true | Some _ => false end) l.

(** [INSERT INTO accounts (user_id, balance, currency)
     VALUES (user, p_initial_balance, p_currency) RETURNING *]: the values
    are coerced to the column types (DECIMAL(15,2), VARCHAR(3)), then the
    NOT NULL columns, the CHECK [balance >= 0] and the primary key are
    checked; [fresh] is the id [gen_random_uuid()] draws and the version
    takes its default 1.  The [account] record does not keep the currency
    and the timestamps; the foreign key to [auth.users] is not modelled.
    The parameters' own types carry no length or precision (type modifiers
    of parameters are discarded). *)
Definition insert_account (s : db) (fresh : uuid) (user : option uuid)
    (p_initial_balance : option Z) (p_currency : option text) : create_outcome :=
  match numeric_15_2 p_initial_balance with
  | Raise e => CreateRaised e
  | Ok bal =>
      match option_map (varchar_assign 3) p_currency with
      | Some None => ValueTooLong "currency"
      | _ =>
          match bal, p_currency with
          | None, _ => CreateRaised (NotNullViolation "balance")
          | _, None => CreateRaised (NotNullViolation "currency")
          | Some b, Some _ =>
              if b <? 0 then CreateRaised (CheckViolation "balance_non_negative")
              else
                match find_account fresh (accounts s) with
                | Some _ => CreateRaised (UniqueViolation "accounts_pkey")
                | None =>
                    let a := mkAccount fresh user b 1 in
                    Created a (mkDb (accounts s ++ [a]) (transactions s))
                end
          end
      end
  end.

(** The INSERT of [create_demo_account]: [user_id] is NULL. *)
Definition insert_demo_account (s : db) (fresh : uuid) (p_initial_balance : option Z)
    (p_currency : option text) : create_outcome :=
  insert_account s fresh None p_initial_balance p_currency.

Definition create_demo_account (s : db) (fresh : uuid) (p_initial_balance : option Z)
    (p_currency : option text) : create_outcome :=
  match first_unowned (accounts s) with
  | Some v_new_account => Created v_new_account s
  | None => insert_demo_account s fresh p_initial_balance p_currency
  end.


End Provisioning.

(** * [generateIdempotencyKey] without [crypto.randomUUID] *)

Module KeyGen.

(** [x | 0] on a finite number: truncation, then ToInt32. *)
Definition js_trunc (x : Q) : Z := if Qle_bool 0 x then Qfloor x else - Qfloor (- x).

Definition ToInt32 (n : Z) : Z :=
  let m := n mod 2 ^ 32 in if m <? 2 ^ 31 then m else m - 2 ^ 32.

Definition js_or0 (x : Q) : Z := ToInt32 (js_trunc x).

(** [Number.prototype.toString(16)] on an integer: lowercase digits and a
    leading minus sign; 64 digits cover every 32-bit value. *)
Definition hex_digit (d : Z) : ascii :=
  ascii_of_nat (Z.to_nat (if d <? 10 then 48 + d else 87 + d)).

Fixpoint digits16 (fuel : nat) (n : Z) (acc : string) : string :=
  match fuel with
  | O => acc
  | S f =>
      let acc' := String (hex_digit (n mod 16)) acc in
      if n <? 16 then acc' else digits16 f (n / 16) acc'
  end.

Definition to_string16 (v : Z) : string :=
  if v <? 0 then String "-" (digits16 64 (- v) EmptyString)
  else digits16 64 v EmptyString.

(** [tpl.replace(/[xy]/g, c => ...)]: the callback runs on each [x] and
    [y] from left to right, and its [i]-th run draws [random i]. *)
Fixpoint replace_xy (tpl : string) (random : nat -> Q) (i : nat) : string :=
  match tpl with
  | EmptyString => EmptyString
  | String c rest =>
      if Ascii.eqb c "x"%char || Ascii.eqb c "y"%char then
        let r := js_or0 (random i * 16)%Q in
        let v := if Ascii.eqb c "x"%char then r else Z.lor (Z.land r 3) 8 in
        String.append (to_string16 v) (replace_xy rest random (S i))
      else String c (replace_xy rest random i)
  end.

Definition uuid_template : string := "xxxxxxxx-xxxx-4xxx-yxxx-xxxxxxxxxxxx".

(** [randomUUID] is what [crypto.randomUUID()] returns when it exists. *)
Definition generateIdempotencyKey (randomUUID : option string) (random : nat -> Q)
  : string :=
  match randomUUID with
  | Some u => u
  | None => replace_xy uuid_template random 0
  end.

End KeyGen.

(** * The client against the database *)

Module Wiring.
Import Ledger Client.

(** Row-level security for SELECT on [accounts]: the policy
    [auth.uid() = user_id] or the demo policy [user_id IS NULL]. *)
Definition visible (uid : option uuid) (a : account) : bool :=
  match acc_user_id a, uid with
  | None, _ => true
  | Some u, Some v => u =? v
  | Some _, None => false
  end.

(** [getAccountVersion]'s query
    [from("accounts").select("version, balance").eq("id", x).single()]
    run by the caller [uid] on the state [s]. *)
Definition account_read (s : db) (uid : option uuid) (x : uuid) : fetch_answer :=
  match find_account x (accounts s) with
  | Some a => if visible uid a then FetchRow (acc_version a) (acc_balance a) else FetchError
  | None => FetchError
  end.

(** [supabase.rpc("update_balance", ...)] run by [uid] on [s]: the
    function's row, or an error when it raises. *)
Definition rpc_call (s : db) (uid : option uuid) (req : rpc_request) : rpc_answer :=
  match update_balance s uid (p_account_id req) (p_amount req) (Some (p_type req))
          (p_expected_version req) (Some (p_idempotency_key req)) with
  | Ok (r, _) => RpcData [r]
  | Raise _ => RpcError
  end.

End Wiring.

(** * Form validation ([lib/validations.ts])

    Strings are sequences of UTF-16 code units; the model takes the units
    below 256, one [ascii] each.  Among those, [\s] and [String.prototype.trim]
    both treat tab, line feed, vertical tab, form feed, carriage return, space
    and no-break space (160) as white space. *)

Module Validations.

Record ValidationResult := mkVR {
  isValid : bool;
  error : option string
}.

Definition is_ws (c : ascii) : bool :=
  existsb (Nat.eqb (nat_of_ascii c)) [9; 10; 11; 12; 13; 32; 160]%nat.

Fixpoint trim_start (l : list ascii) : list ascii :=
  match l with
  | c :: l' => if is_ws c then trim_start l' else l
  | [] => []
  end.

(** [s.trim()]. *)
Definition trim (l : list ascii) : list ascii := rev (trim_start (rev (trim_start l))).

(** The regular expressions used here: a sequence of atoms, each matched once
    or with [+], between the anchors [^] and [$]. *)
Inductive class_item :=
| ClsSpace                (* [\s] *)
| ClsChar (c : ascii).

Inductive atom :=
| AChar (c : ascii)                       (* a literal, e.g. [\.] or [@] *)
| ANegClass (items : list class_item).    (* [[^...]] *)

Inductive term :=
| Once (a : atom)
| Plus (a : atom).

Definition item_ok (i : class_item) (c : ascii) : bool :=
  match i with
  | ClsSpace => is_ws c
  | ClsChar d => Ascii.eqb c d
  end.

Definition atom_ok (a : atom) (c : ascii) : bool :=
  match a with
  | AChar d => Ascii.eqb c d
  | ANegClass is => negb (existsb (fun i => item_ok i c) is)
  end.

(** [a+] followed by the rest [k] of the pattern, backtracking from the
    longest run down, as the JavaScript engine does. *)
Fixpoint match_plus (a : atom) (k : list ascii -> bool) (s : list ascii) : bool :=
  match s with
  | [] => false
  | c :: s' => atom_ok a c && (match_plus a k s' || k s')
  end.

(** The terms of [^t1 t2 ... tn$] matched against the rest of the input. *)
Fixpoint match_terms (ts : list term) (s : list ascii) {struct ts} : bool :=
  match ts with
  | [] => match s with [] => true | _ :: _ => false end
  | Once a :: ts' =>
      match s with
      | c :: s' => atom_ok a c && match_terms ts' s'
      | [] => false
      end
  | Plus a :: ts' => match_plus a (match_terms ts') s
  end.

(** [/^[^\s@]+@[^\s@]+\.[^\s@]+$/]. *)
Definition emailRegex : list term :=
  let part := ANegClass [ClsSpace; ClsChar "@"%char] in
  [Plus part; Once (AChar "@"%char); Plus part; Once (AChar "."%char); Plus part].

Definition regex_test (re : list term) (s : string) : bool :=
  match_terms re (list_ascii_of_string s).

Definition validateEmail (email : string) : ValidationResult :=
  match trim (list_ascii_of_string email) with
  | [] => mkVR false (Some "Email is required")
  | _ :: _ =>
      if negb (regex_test emailRegex email)
      then mkVR false (Some "Please enter a valid email")
      else mkVR true None
  end.

Definition validatePassword (password : string) : ValidationResult :=
  match password with
  | EmptyString => mkVR false (Some "Password is required")
  | _ =>
      if (String.length password <? 6)%nat
      then mkVR false (Some "Password must be at least 6 characters")
      else mkVR true None
  end.

Definition validateConfirmPassword (password confirmPassword : string) : ValidationResult :=
  match confirmPassword with
  | EmptyString => mkVR false (Some "Please confirm your password")
  | _ =>
      if negb (String.eqb password confirmPassword)
      then mkVR false (Some "Passwords do not match")
      else mkVR true None
  end.

(** The [errors] object: its keys in insertion order, with their values. *)
Definition errors := list (string * option string).

Definition set_if_invalid (k : string) (r : ValidationResult) (o : errors) : errors :=
  if negb (isValid r) then o ++ [(k, error r)] else o.

Definition validateLoginForm (email password : string) : bool * errors :=
  let errs := set_if_invalid "email" (validateEmail email) [] in
  let errs := set_if_invalid "password" (validatePassword password) errs in
  (Nat.eqb (List.length errs) 0, errs).

Definition validateRegisterForm (email password confirmPassword : string) : bool * errors :=
  let errs := set_if_invalid "email" (validateEmail email) [] in
  let errs := set_if_invalid "password" (validatePassword password) errs in
  let errs := set_if_invalid "confirmPassword"
                (validateConfirmPassword password confirmPassword) errs in
  (Nat.eqb (List.length errs) 0, errs).

End Validations.

(** * Properties of [update_balance] *)

Module LedgerFacts.
Import Ledger Samples.

(** The rows the [UPDATE] leaves: the old row, or an updated row with the
    same id and a non-negative balance. *)
Definition row_after (a a' : account) : Prop :=
  acc_id a' = acc_id a /\ (a' = a \/ 0 <= acc_balance a').

(** What a committed call can have done: fail with the accounts untouched,
    replay with nothing touched, or apply one conditional write. *)
Definition call_post (s : db) (x : uuid) (ev : Z) (r : rpc_row) (s' : db) : Prop :=
  Forall2 row_after (accounts s) (accounts s') /\
  ( (success r = false /\ accounts s' = accounts s)
  \/ (success r = true /\ error_message r = Some msg_idempotent /\ s' = s)
  \/ (success r = true /\ error_message r = None /\ new_version r = Some (ev + 1) /\
      exists a b, find_account x (accounts s) = Some a /\ acc_version a = ev /\
        acc_id a = x /\ new_balance r = Some b /\
        find_account x (accounts s') = Some (mkAccount x (acc_user_id a) b (ev + 1)))).

Lemma bind_ok {A B} (m : result A) (k : A -> result B) (b : B) :
  bind m k = Ok b -> exists a, m = Ok a /\ k a = Ok b.
Proof. destruct m as [a|e]; simpl; [eauto | discriminate]. Qed.

Lemma find_account_some id l a :
  find_account id l = Some a -> acc_id a = id.
Proof.
  unfold find_account. intros H. apply find_some in H as [_ H].
  now apply Z.eqb_eq in H.
Qed.

(** A call of [update_row] keeps the id and yields a non-negative balance. *)
Lemma update_row_ok nb a a' :
  update_row nb a = Ok a' ->
  exists b, nb = Some b /\ 0 <= b /\
    a' = mkAccount (acc_id a) (acc_user_id a) b (acc_version a + 1).
Proof.
  unfold update_row, int4. intros H.
  destruct (_ && _) eqn:Hr; [|discriminate]. simpl in H.
  destruct nb as [b|]; [|discriminate].
  destruct (b <? 0) eqn:Hb; [discriminate|]. injection H as <-.
  exists b. repeat split; auto. apply Z.ltb_ge in Hb. lia.
Qed.

Lemma update_accounts_rows id ev nb l l' n :
  update_accounts id ev nb l = Ok (l', n) ->
  Forall2 row_after l l' /\ 0 <= n /\ (n = 0 -> l' = l).
Proof.
  revert l' n. induction l as [|a l IH]; intros l' n H; simpl in H.
  - injection H as <- <-. repeat split; auto; lia.
  - apply bind_ok in H as [[l'' m] [Hl H]]. simpl in H.
    destruct (IH _ _ Hl) as [HF [Hm H0]].
    destruct (_ && _) eqn:Hc.
    + apply bind_ok in H as [a' [Ha H]]. injection H as <- <-.
      apply update_row_ok in Ha as [b [-> [Hb ->]]].
      repeat split; [constructor; [split; simpl; auto|]; auto | lia | lia].
    + injection H as <- <-. repeat split; auto.
      * constructor; [split; auto|]; auto.
      * intros ->. f_equal. auto.
Qed.

Lemma update_accounts_missing id ev nb l l' n :
  find_account id l = None ->
  update_accounts id ev nb l = Ok (l', n) -> n = 0.
Proof.
  revert l' n. induction l as [|a l IH]; intros l' n Hf H; simpl in H.
  - now injection H as _ <-.
  - unfold find_account in Hf. simpl in Hf.
    destruct (acc_id a =? id) eqn:Ha; [discriminate|].
    apply bind_ok in H as [[l'' m] [Hl H]]. simpl in H.
    injection H as _ <-. eapply IH; eauto.
Qed.

Lemma update_accounts_found id ev nb l l' n a :
  find_account id l = Some a -> acc_version a = ev ->
  update_accounts id ev nb l = Ok (l', n) ->
  n <> 0 /\ exists b, nb = Some b /\
    find_account id l' = Some (mkAccount id (acc_user_id a) b (ev + 1)).
Proof.
  revert l' n. induction l as [|c l IH]; intros l' n Hf Hv H; simpl in H.
  - discriminate.
  - apply bind_ok in H as [[l'' m] [Hl H]]. simpl in H.
    unfold find_account in Hf |- *. simpl in Hf.
    destruct (acc_id c =? id) eqn:Hc.
    + injection Hf as ->. rewrite Hv, Z.eqb_refl in H. simpl in H.
      apply bind_ok in H as [a' [Ha H]]. injection H as <- <-.
      apply update_row_ok in Ha as [b [-> [Hb ->]]].
      destruct (update_accounts_rows _ _ _ _ _ _ Hl) as [_ [Hm _]].
      split; [lia|]. exists b. split; auto. simpl.
      apply Z.eqb_eq in Hc. rewrite Hc, Z.eqb_refl, Hv. reflexivity.
    + simpl in H. injection H as <- <-. simpl. rewrite Hc.
      eapply IH; eauto.
Qed.

Lemma insert_txn_accounts s t s' :
  insert_txn s t = Ok s' -> accounts s' = accounts s.
Proof.
  unfold insert_txn. intros H.
  apply bind_ok in H as [_ [_ H]]. apply bind_ok in H as [_ [_ H]].
  apply bind_ok in H as [_ [_ H]].
  destruct (find_account _ _); [|discriminate]. now injection H as <-.
Qed.

Lemma row_after_refl l : Forall2 row_after l l.
Proof. induction l; constructor; [split; auto|]; auto. Qed.

Lemma commit_post s x amt ty ev key cb nb r s' :
  update_balance_commit s x amt ty ev key cb nb = Ok (r, s') ->
  Forall2 row_after (accounts s) (accounts s') /\
  ((success r = false /\ accounts s' = accounts s) \/
   (success r = true /\ error_message r = None /\ new_version r = Some (ev + 1) /\
    new_balance r = nb /\
    exists n, n <> 0 /\ update_accounts x ev nb (accounts s) = Ok (accounts s', n))).
Proof.
  unfold update_balance_commit. intros H.
  apply bind_ok in H as [[accs n] [Hu H]]. cbv beta iota zeta in H.
  destruct (update_accounts_rows _ _ _ _ _ _ Hu) as [HF [Hn H0]].
  destruct (n =? 0) eqn:Hn0.
  - injection H as <- <-. apply Z.eqb_eq in Hn0. specialize (H0 Hn0).
    subst accs. simpl. split; [apply row_after_refl | left; auto].
  - apply bind_ok in H as [ev1 [Hev H]]. apply bind_ok in H as [s2 [Hs2 H]].
    injection H as <- <-. apply insert_txn_accounts in Hs2. simpl in Hs2.
    rewrite Hs2. unfold int4 in Hev. destruct (_ && _); [|discriminate].
    injection Hev as <-. split; [auto | right]. simpl.
    repeat split; auto. exists n. split; auto. now apply Z.eqb_neq.
Qed.

Lemma commit_apply_post s x amt ty ev key cb nb r s' :
  (forall a, find_account x (accounts s) = Some a -> acc_version a = ev) ->
  update_balance_commit s x amt ty ev key cb nb = Ok (r, s') ->
  call_post s x ev r s'.
Proof.
  intros Hv H. apply commit_post in H as [HF [[Hs Heq] | [Hs [Hm [Hnv [Hnb [n [Hn Hu]]]]]]]].
  - split; auto.
  - split; auto. right; right. repeat split; auto.
    destruct (find_account x (accounts s)) as [a|] eqn:Hf.
    + specialize (Hv a eq_refl).
      destruct (update_accounts_found _ _ _ _ _ _ _ Hf Hv Hu) as [_ [b [-> Hb]]].
      exists a, b. repeat split; auto. now apply find_account_some in Hf.
    + exfalso. apply Hn. eapply update_accounts_missing; eauto.
Qed.

Lemma insert_post s x ev t r s' :
  insert_txn s t = Ok s' -> success r = false -> call_post s x ev r s'.
Proof.
  intros H Hr. apply insert_txn_accounts in H. unfold call_post. rewrite H.
  split; [apply row_after_refl | left; auto].
Qed.

Lemma apply_post s x amt ty ev key r s' :
  update_balance_apply s x amt ty ev key = Ok (r, s') -> call_post s x ev r s'.
Proof.
  unfold update_balance_apply. intros H.
  assert (Hfail : forall r, success r = false -> call_post s x ev r s).
  { intros r0 Hr0. split; [apply row_after_refl | left; auto]. }
  destruct (sql_if (sql_neZ _ _)) eqn:Hc.
  { injection H as <- <-. now apply Hfail. }
  assert (Hv : forall a, find_account x (accounts s) = Some a -> acc_version a = ev).
  { intros a Ha. rewrite Ha in Hc. simpl in Hc.
    destruct (acc_version a =? ev) eqn:E; [now apply Z.eqb_eq | discriminate]. }
  destruct (sql_if (sql_not _)).
  { injection H as <- <-. now apply Hfail. }
  destruct (sql_if (sql_eq_str _ _)).
  - apply bind_ok in H as [nb [_ H]]. eapply commit_apply_post; eauto.
  - apply bind_ok in H as [nb [_ H]].
    destruct (sql_if (sql_ltZ _ _)).
    + apply bind_ok in H as [s1 [Hs1 H]]. injection H as <- <-.
      eapply insert_post; eauto.
    + eapply commit_apply_post; eauto.
Qed.

Lemma body_post s x amt ty ev key r s' :
  update_balance_body s x amt ty ev key = Ok (r, s') -> call_post s x ev r s'.
Proof.
  unfold update_balance_body. intros H.
  destruct key as [k|]; [|eapply apply_post; eauto].
  destruct (has_completed_key s k); [|eapply apply_post; eauto].
  destruct (replay_lookup s k) as [nb cv]. injection H as <- <-.
  split; [apply row_after_refl | right; left; auto].
Qed.

(** Every call of the procedure in force ends in [call_post]. *)
Lemma update_balance_post s uid x amt ty ev key r s' :
  update_balance s uid x amt ty ev key = Ok (r, s') -> call_post s x ev r s'.
Proof.
  unfold update_balance. intros H. apply bind_ok in H as [_ [_ H]].
  assert (Hfail : forall r, success r = false -> call_post s x ev r s).
  { intros r0 Hr0. split; [apply row_after_refl | left; auto]. }
  destruct (find_account x (accounts s)) as [a|];
    cbv beta iota zeta in H;
    repeat match type of H with
           | (if ?c then _ else _) = _ => destruct c
           end;
    try (injection H as <- <-; now apply Hfail);
    eapply body_post; eauto.
Qed.

Lemma update_balance_001_post s uid x amt ty ev key r s' :
  update_balance_001 s uid x amt ty ev key = Ok (r, s') -> call_post s x ev r s'.
Proof.
  unfold update_balance_001. intros H. apply bind_ok in H as [_ [_ H]].
  assert (Hfail : forall r, success r = false -> call_post s x ev r s).
  { intros r0 Hr0. split; [apply row_after_refl | left; auto]. }
  repeat match type of H with
         | (if ?c then _ else _) = _ => destruct c
         end;
    try (injection H as <- <-; now apply Hfail);
    eapply body_post; eauto.
Qed.

(** Rows with [success = true] carry no error code. *)
Lemma commit_success_code s x amt ty ev key cb nb r s' :
  update_balance_commit s x amt ty ev key cb nb = Ok (r, s') ->
  success r = true -> error_code r = None.
Proof.
  unfold update_balance_commit. intros H Hr.
  apply bind_ok in H as [[accs n] [_ H]]. cbv beta iota zeta in H.
  destruct (n =? 0).
  - injection H as <- <-. discriminate.
  - apply bind_ok in H as [ev1 [_ H]]. apply bind_ok in H as [s2 [_ H]].
    injection H as <- <-. reflexivity.
Qed.

Lemma update_balance_success_code s uid x amt ty ev key r s' :
  update_balance s uid x amt ty ev key = Ok (r, s') ->
  success r = true -> error_code r = None.
Proof.
  unfold update_balance. intros H Hr. apply bind_ok in H as [_ [_ H]].
  destruct (find_account x (accounts s)); cbv beta iota zeta in H;
    repeat match type of H with
           | (if ?c then _ else _) = _ => destruct c
           end;
    try (injection H as <- <-; first [discriminate | reflexivity]);
    unfold update_balance_body in H;
    destruct key as [k|];
    try (destruct (has_completed_key s k);
         [destruct (replay_lookup s k); injection H as <- <-; reflexivity|]);
    unfold update_balance_apply in H;
    repeat match type of H with
           | (if ?c then _ else _) = _ => destruct c
           | bind _ _ = Ok _ => apply bind_ok in H as [? [? H]]
           end;
    try (injection H as <- <-; first [discriminate | reflexivity]);
    eapply commit_success_code; eauto.
Qed.

(** A row kept non-negative by the rows relation. *)
Lemma find_row_after id l l' a :
  Forall2 row_after l l' -> find_account id l = Some a ->
  exists a', find_account id l' = Some a' /\ (a' = a \/ 0 <= acc_balance a').
Proof.
  intros HF. induction HF as [|c c' l l' [Hid Hc] HF IH]; intros Hf.
  - discriminate.
  - unfold find_account in *. simpl in *. rewrite Hid.
    destruct (acc_id c =? id); auto.
    injection Hf as ->. eauto.
Qed.

(** The balance invariant of the [accounts] table: an account whose
    balance is non-negative keeps a non-negative balance across any call
    (committed or rolled back). *)
Lemma update_balance_keeps_balance_non_negative s uid x amt ty ev key id a :
  find_account id (accounts s) = Some a -> 0 <= acc_balance a ->
  exists a', find_account id
               (accounts (rpc_state s (update_balance s uid x amt ty ev key))) = Some a'
             /\ 0 <= acc_balance a'.
Proof.
  intros Hf Hb. destruct (update_balance s uid x amt ty ev key) as [[r s']|e] eqn:H.
  - apply update_balance_post in H as [HF _]. simpl.
    destruct (find_row_after _ _ _ _ HF Hf) as [a' [Ha' [-> | Hb']]]; eauto.
  - simpl. eauto.
Qed.

Lemma update_accounts_ok id ev nb l :
  0 <= nb -> - 2 ^ 31 <= ev + 1 <= 2 ^ 31 - 1 ->
  exists l' n, update_accounts id ev (Some nb) l = Ok (l', n).
Proof.
  intros Hnb Hev. induction l as [|a l [l' [n IH]]]; simpl.
  - eauto.
  - rewrite IH. simpl.
    destruct ((acc_id a =? id) && (acc_version a =? ev)) eqn:Hc; [|eauto].
    apply andb_true_iff in Hc as [_ Hc]. apply Z.eqb_eq in Hc.
    unfold update_row, int4. rewrite Hc.
    replace ((- 2 ^ 31 <=? ev + 1) && (ev + 1 <=? 2 ^ 31 - 1)) with true
      by (symmetry; apply andb_true_iff; split; apply Z.leb_le; lia).
    simpl. replace (nb <? 0) with false by (symmetry; apply Z.ltb_ge; lia).
    simpl. eauto.
Qed.

Lemma numeric_ok v : Z.abs v < 10 ^ 15 -> numeric_15_2 (Some v) = Ok (Some v).
Proof.
  intros H. unfold numeric_15_2. replace (Z.abs v <? 10 ^ 15) with true
    by (symmetry; apply Z.ltb_lt; exact H). reflexivity.
Qed.

Lemma coerce_args_ok ev :
  - 2 ^ 31 <= ev <= 2 ^ 31 - 1 -> coerce_args ev = Ok tt.
Proof.
  intros Hv. unfold coerce_args, int4.
  replace ((- 2 ^ 31 <=? ev) && (ev <=? 2 ^ 31 - 1)) with true
    by (symmetry; apply andb_true_iff; split; apply Z.leb_le; lia).
  reflexivity.
Qed.

(** No audit entry bears the idempotency key [key] (a NULL key is never
    compared). *)
Definition key_unused (s : db) (key : option uuid) : Prop :=
  match key with
  | Some k => existsb (fun t => key_eqb k (tx_idempotency_key t)) (transactions s) = false
  | None => True
  end.

(** An account whose [user_id] is NULL, or a caller whose [auth.uid()] is
    NULL, or the owner: the three cases that pass the authorization check of
    migration 002. *)
Definition passes_owner_check (user uid : option uuid) : Prop :=
  user = None \/ uid = None \/ user = uid.

Lemma key_unused_no_completed s k :
  key_unused s (Some k) -> has_completed_key s k = false.
Proof.
  unfold key_unused, has_completed_key. intros H.
  apply not_true_iff_false. intros H'. apply existsb_exists in H' as [t [Hin Ht]].
  apply andb_true_iff in Ht as [Ht _].
  assert (existsb (fun t => key_eqb k (tx_idempotency_key t)) (transactions s) = true)
    by (apply existsb_exists; eauto). congruence.
Qed.

(** Past the account check, the three cases of [passes_owner_check] lead
    to the body. *)
Lemma update_balance_passes s uid x amt ty ev key a :
  find_account x (accounts s) = Some a ->
  passes_owner_check (acc_user_id a) uid ->
  - 2 ^ 31 <= ev <= 2 ^ 31 - 1 ->
  update_balance s uid x amt ty ev key = update_balance_body s x amt ty ev key.
Proof.
  intros Hf Hu Hv. unfold update_balance.
  rewrite (coerce_args_ok ev Hv). simpl bind. rewrite Hf.
  cbv beta iota zeta. simpl sql_if.
  destruct Hu as [-> | [-> | <-]]; [reflexivity | |].
  - destruct (acc_user_id a); reflexivity.
  - destruct (acc_user_id a) as [u|]; [|reflexivity].
    simpl. rewrite Z.eqb_refl. reflexivity.
Qed.

(** The account and authorization checks let the call through: the
    account is missing (both checks see NULL), or it passes the owner
    check. *)
Definition passes_checks (s : db) (uid : option uuid) (x : uuid) : Prop :=
  match find_account x (accounts s) with
  | Some a => passes_owner_check (acc_user_id a) uid
  | None => True
  end.

Lemma update_balance_open s uid x amt ty ev key :
  passes_checks s uid x -> - 2 ^ 31 <= ev <= 2 ^ 31 - 1 ->
  update_balance s uid x amt ty ev key = update_balance_body s x amt ty ev key.
Proof.
  unfold passes_checks. intros Hp Hv.
  destruct (find_account x (accounts s)) as [a|] eqn:Hf.
  - exact (update_balance_passes s uid x amt ty ev key a Hf Hp Hv).
  - unfold update_balance. rewrite (coerce_args_ok ev Hv). simpl bind.
    rewrite Hf. reflexivity.
Qed.

(** A signed-in caller who is not the owner of an owned account. *)
Lemma update_balance_unauthorized s x amt ty ev key a u v :
  find_account x (accounts s) = Some a -> acc_user_id a = Some u -> v <> u ->
  - 2 ^ 31 <= ev <= 2 ^ 31 - 1 ->
  update_balance s (Some v) x amt ty ev key
  = Ok (row_fail UNAUTHORIZED None None
          (MsgText "Not authorized to modify this account"), s).
Proof.
  intros Hf Hu Hvu Hev. unfold update_balance.
  rewrite (coerce_args_ok ev Hev). simpl bind. rewrite Hf.
  cbv beta iota zeta. rewrite Hu. simpl.
  replace (u =? v) with false by (symmetry; apply Z.eqb_neq; congruence).
  reflexivity.
Qed.

(** No completed audit entry bears the key: the call is not a replay. *)
Definition not_replayed (s : db) (key : option uuid) : Prop :=
  match key with Some k => has_completed_key s k = false | None => True end.

Lemma key_unused_not_replayed s key : key_unused s key -> not_replayed s key.
Proof. destruct key as [k|]; simpl; auto using key_unused_no_completed. Qed.

Lemma body_not_replayed s x amt ty ev key :
  not_replayed s key ->
  update_balance_body s x amt ty ev key = update_balance_apply s x amt ty ev key.
Proof.
  unfold update_balance_body. destruct key as [k|]; simpl; auto.
  intros ->. reflexivity.
Qed.

Lemma reach_apply s uid x amt ty ev key a :
  find_account x (accounts s) = Some a ->
  passes_owner_check (acc_user_id a) uid ->
  - 2 ^ 31 <= ev <= 2 ^ 31 - 1 -> not_replayed s key ->
  update_balance s uid x amt ty ev key = update_balance_apply s x amt ty ev key.
Proof.
  intros Hf Hu Hv Hr. rewrite (update_balance_passes s uid x amt ty ev key a); auto.
  apply body_not_replayed; auto.
Qed.

(** The version check and the type check pass: the candidate balance. *)
Lemma update_balance_apply_candidate s x amt ty ev key a :
  find_account x (accounts s) = Some a -> acc_version a = ev ->
  (ty = Some "deposit" \/ ty = Some "withdraw") ->
  update_balance_apply s x amt ty ev key =
  if String.eqb (match ty with Some t => t | None => "" end) "deposit" then
    bind (numeric_15_2 (Some (acc_balance a + amt))) (fun nb =>
      update_balance_commit s x amt ty ev key (Some (acc_balance a)) nb)
  else
    bind (numeric_15_2 (Some (acc_balance a - amt))) (fun nb =>
      if sql_if (sql_ltZ nb (Some 0)) then
        bind (insert_txn s (mkTxn x ty amt (Some (acc_balance a))
                (Some (acc_balance a)) (Some (acc_version a)) Failed
                (Some (MsgText "Insufficient funds")) key)) (fun s' =>
          Ok (row_fail INSUFFICIENT_FUNDS (Some (acc_balance a)) (Some (acc_version a))
                (MsgCannotWithdraw (Some amt) (Some (acc_balance a))), s'))
      else update_balance_commit s x amt ty ev key (Some (acc_balance a)) nb).
Proof.
  intros Hf Hv Hty. unfold update_balance_apply. rewrite Hf. simpl option_map.
  rewrite Hv. simpl sql_neZ. rewrite Z.eqb_refl. simpl sql_if.
  destruct Hty as [-> | ->]; reflexivity.
Qed.

(** The conditional write succeeds, then the completed entry's key is
    already taken. *)
Lemma commit_unique_violation s x amt ty ev k cb nb a t :
  find_account x (accounts s) = Some a -> acc_version a = ev ->
  0 <= nb -> - 2 ^ 31 <= ev + 1 <= 2 ^ 31 - 1 -> Z.abs amt < 10 ^ 15 ->
  txn_check (mkTxn x ty amt cb (Some nb) (Some (ev + 1)) Completed None (Some k)) = Ok tt ->
  In t (transactions s) -> tx_idempotency_key t = Some k ->
  update_balance_commit s x amt ty ev (Some k) cb (Some nb)
    = Raise (UniqueViolation "transactions_idempotency_key_key").
Proof.
  intros Hf Hv Hnb Hev Ham Hchk Ht Hk. unfold update_balance_commit.
  destruct (update_accounts_ok x ev nb (accounts s)) as [l' [n Hu]]; auto.
  destruct (update_accounts_found _ _ _ _ _ _ _ Hf Hv Hu) as [Hn _].
  rewrite Hu. cbv beta iota zeta delta [bind].
  replace (n =? 0) with false by (symmetry; apply Z.eqb_neq; auto).
  unfold int4.
  replace ((- 2 ^ 31 <=? ev + 1) && (ev + 1 <=? 2 ^ 31 - 1)) with true
    by (symmetry; apply andb_true_iff; split; apply Z.leb_le; lia).
  unfold insert_txn. cbn [tx_amount]. rewrite (numeric_ok amt Ham). cbn [bind].
  rewrite Hchk.
  cbn [bind tx_idempotency_key transactions accounts].
  assert (E : existsb (fun t' => key_eqb k (tx_idempotency_key t')) (transactions s)
              = true).
  { apply existsb_exists. exists t. split; auto.
    rewrite Hk. simpl. apply Z.eqb_refl. }
  rewrite E. reflexivity.
Qed.

(** ** Claims about the procedure *)

(** C1 (failing input): a withdrawal whose candidate balance is negative is
    not always answered with INSUFFICIENT_FUNDS.  The first rejected
    withdrawal from [fresh_db] records its key 21 on a failed entry; the
    same withdrawal sent again with key 21 passes the idempotency check
    (it looks only at completed entries), reaches the failed-entry insert,
    and raises a unique violation instead.  (The balance invariant itself
    holds: [update_balance_keeps_balance_non_negative].) *)
Theorem insufficient_withdraw_reusing_key_raises :
  rpc_state fresh_db (update_balance fresh_db None 1 1000 (Some "withdraw") 1 (Some 21))
    = poisoned_db /\
  update_balance poisoned_db None 1 1000 (Some "withdraw") 1 (Some 21)
    = Raise (UniqueViolation "transactions_idempotency_key_key").
Proof. split; vm_compute; reflexivity. Qed.

(** C2: a successful call that is not a replay leaves the account at
    version [expectedVersion + 1] and returns that version; a call that
    returns [success = false] leaves every account row (balance and
    version) as it was. *)
Theorem version_counter_semantics s uid x amt ty ev key r s' :
  update_balance s uid x amt ty ev key = Ok (r, s') ->
  (success r = true -> error_message r <> Some msg_idempotent ->
     new_version r = Some (ev + 1) /\
     exists a, find_account x (accounts s') = Some a /\ acc_version a = ev + 1)
  /\ (success r = false -> accounts s' = accounts s).
Proof.
  intros H. apply update_balance_post in H as
    [_ [[Hr Hs] | [[Hr [Hm ->]] | [Hr [Hm [Hv [a [b [_ [_ [_ [_ Hf]]]]]]]]]]]].
  - split; [congruence | auto].
  - split; [intros _ Hm'; contradiction | congruence].
  - split; [|congruence]. intros _ _. split; auto.
    eexists; split; [exact Hf | reflexivity].
Qed.

Lemma version_counter_semantics_witness :
  update_balance demo_db None 1 1000 (Some "deposit") 1 (Some 7)
    = Ok (mkRow true (Some 6000) (Some 2) None None,
          mkDb [mkAccount 1 None 6000 2]
               [mkTxn 1 (Some "deposit") 1000 (Some 5000) (Some 6000) (Some 2)
                  Completed None (Some 7)]) /\
  ((true = true -> @None message <> Some msg_idempotent ->
     Some 2 = Some (1 + 1) /\
     exists a, find_account 1 [mkAccount 1 None 6000 2] = Some a /\ acc_version a = 1 + 1)
   /\ (true = false -> [mkAccount 1 None 6000 2] = [mkAccount 1 None 5000 1])).
Proof.
  split; [vm_compute; reflexivity|].
  exact (version_counter_semantics demo_db None 1 1000 (Some "deposit") 1 (Some 7)
           (mkRow true (Some 6000) (Some 2) None None)
           (mkDb [mkAccount 1 None 6000 2]
                 [mkTxn 1 (Some "deposit") 1000 (Some 5000) (Some 6000) (Some 2)
                    Completed None (Some 7)])
           (ltac:(vm_compute; reflexivity))).
Defined.

(** C3 (failing input): two deposits with keys 11 and 12 take account 1
    from version 1 to 3; replaying key 11 returns the entry's balance
    (10.00) but the account's current version 3, not the version 2 the
    original deposit produced (recorded as the entry's [version_at]). *)
Theorem replay_returns_current_version :
  (let s1 := rpc_state fresh_db
               (update_balance fresh_db None 1 1000 (Some "deposit") 1 (Some 11)) in
   rpc_state s1 (update_balance s1 None 1 1000 (Some "deposit") 2 (Some 12)))
    = replay_db /\
  option_map tx_version_at (hd_error (transactions replay_db)) = Some (Some 2) /\
  update_balance replay_db None 1 1000 (Some "deposit") 1 (Some 11)
    = Ok (mkRow true (Some 1000) (Some 3) None (Some msg_idempotent), replay_db).
Proof. repeat split; vm_compute; reflexivity. Qed.

(** C4 (failing input): for an account id that names no account, the
    procedure in force (migration 002) returns VERSION_CONFLICT with NULL
    balance and version: [NOT v_account_exists] is NULL, so the
    ACCOUNT_NOT_FOUND branch is skipped.  The procedure of migration 001
    returns ACCOUNT_NOT_FOUND on the same input. *)
Theorem missing_account_reports_version_conflict :
  update_balance (mkDb [] []) None 1 1000 (Some "deposit") 1 None
    = Ok (row_fail VERSION_CONFLICT None None
            (MsgText "Concurrent modification detected"), mkDb [] []) /\
  update_balance_001 (mkDb [] []) None 1 1000 (Some "deposit") 1 None
    = Ok (row_fail ACCOUNT_NOT_FOUND None None
            (MsgText "Account does not exist"), mkDb [] []).
Proof. split; vm_compute; reflexivity. Qed.

(** C5 (failing input): the rejected withdrawal of 20.00 from
    [poisoned_db] with the key 21 already on a failed entry appends no
    failed entry and returns no INSUFFICIENT_FUNDS row: the call raises a
    unique violation and is rolled back. *)
Theorem insufficient_funds_shape_fails_on_used_key :
  update_balance poisoned_db None 1 2000 (Some "withdraw") 1 (Some 21)
    = Raise (UniqueViolation "transactions_idempotency_key_key") /\
  rpc_state poisoned_db
    (update_balance poisoned_db None 1 2000 (Some "withdraw") 1 (Some 21))
    = poisoned_db.
Proof. split; vm_compute; reflexivity. Qed.

(** C9: a failed entry keeps its idempotency key.  For every state holding
    a failed entry with key [k] (and no completed one), a later call with
    key [k] that passes the account, authorization, idempotency, version,
    type and funds checks performs the conditional write, then violates the
    UNIQUE constraint on [idempotency_key] at the completed-entry insert
    (the authorization check is passed by an unowned account, an anonymous
    caller or the owner): the call raises and its transaction, balance update included, is rolled
    back. *)
Theorem failed_entry_poisons_key s uid x amt ty ev k t a :
  In t (transactions s) -> tx_idempotency_key t = Some k -> tx_status t = Failed ->
  has_completed_key s k = false ->
  find_account x (accounts s) = Some a ->
  passes_owner_check (acc_user_id a) uid ->
  acc_version a = ev -> 0 <= acc_balance a ->
  0 < amt -> - 2 ^ 31 <= ev < 2 ^ 31 - 1 ->
  (ty = Some "deposit" /\ acc_balance a + amt < 10 ^ 15
   \/ ty = Some "withdraw" /\ amt <= acc_balance a < 10 ^ 15) ->
  update_balance s uid x amt ty ev (Some k)
    = Raise (UniqueViolation "transactions_idempotency_key_key") /\
  rpc_state s (update_balance s uid x amt ty ev (Some k)) = s.
Proof.
  intros Ht Hk Hst Hc Hf Hu Hv Hb Ha Hev Hty.
  assert (Hr : update_balance s uid x amt ty ev (Some k)
               = Raise (UniqueViolation "transactions_idempotency_key_key")).
  { rewrite (update_balance_passes s uid x amt ty ev (Some k) a Hf Hu ltac:(lia)).
    unfold update_balance_body. rewrite Hc.
    rewrite (update_balance_apply_candidate s x amt ty ev (Some k) a Hf Hv
               ltac:(destruct Hty as [[-> _] | [-> _]]; auto)).
    destruct Hty as [[-> Hlt] | [-> Hle]].
    - simpl String.eqb. cbv iota. unfold numeric_15_2.
      replace (Z.abs (acc_balance a + amt) <? 10 ^ 15) with true
        by (symmetry; apply Z.ltb_lt; rewrite Z.abs_eq; lia).
      cbv beta iota delta [bind].
      apply (commit_unique_violation s x amt _ ev k _ _ a t); auto; try lia.
      unfold txn_check. cbn -[Z.add].
      replace (0 <? amt) with true by (symmetry; apply Z.ltb_lt; lia).
      rewrite Z.eqb_refl. reflexivity.
    - simpl String.eqb. cbv iota. unfold numeric_15_2.
      replace (Z.abs (acc_balance a - amt) <? 10 ^ 15) with true
        by (symmetry; apply Z.ltb_lt; rewrite Z.abs_eq; lia).
      cbv beta iota delta [bind]. simpl sql_ltZ.
      replace (acc_balance a - amt <? 0) with false
        by (symmetry; apply Z.ltb_ge; lia).
      simpl sql_if. cbv iota.
      apply (commit_unique_violation s x amt _ ev k _ _ a t); auto; try lia.
      unfold txn_check. cbn -[Z.sub].
      replace (0 <? amt) with true by (symmetry; apply Z.ltb_lt; lia).
      rewrite Z.eqb_refl. reflexivity. }
  split; [exact Hr | rewrite Hr; reflexivity].
Qed.

Lemma failed_entry_poisons_key_witness :
  update_balance poisoned_db None 1 500 (Some "deposit") 1 (Some 21)
    = Raise (UniqueViolation "transactions_idempotency_key_key") /\
  rpc_state poisoned_db (update_balance poisoned_db None 1 500 (Some "deposit") 1 (Some 21))
    = poisoned_db.
Proof.
  apply (failed_entry_poisons_key poisoned_db None 1 500 (Some "deposit") 1 21
           (mkTxn 1 (Some "withdraw") 1000 (Some 0) (Some 0) (Some 1) Failed
              (Some (MsgText "Insufficient funds")) (Some 21))
           (mkAccount 1 None 0 1)).
  all: try (vm_compute; reflexivity).
  - simpl. left. reflexivity.
  - left. reflexivity.
  - simpl; lia.
  - lia.
  - left. split; [reflexivity | simpl; lia].
Defined.

(** C10 (counterexample): the replay answer is given only after the
    authorization check on the requested account.  Account 1 of
    [two_owners_db] belongs to user 7; user 8 calling with the key 31 of a
    completed entry of account 2 gets UNAUTHORIZED, not a replay. *)
Lemma replay_ignores_account_counterexample :
  option_map tx_account_id (hd_error (transactions two_owners_db)) = Some 2 /\
  option_map tx_status (hd_error (transactions two_owners_db)) = Some Completed /\
  update_balance two_owners_db (Some 8) 1 1000 (Some "deposit") 4 (Some 31)
    = Ok (row_fail UNAUTHORIZED None None
            (MsgText "Not authorized to modify this account"), two_owners_db).
Proof. repeat split; vm_compute; reflexivity. Qed.

(** C10 (as amended): the replay check is keyed on the idempotency key
    alone, and runs after the account and authorization checks on the
    requested account [x].  Let the first entry bearing [k] be a completed
    entry of account [tx_account_id t].
    - When the checks let the call through ([x] missing, unowned, or the
      caller anonymous or the owner), the call returns success with that
      entry's [balance_after] and that account's current version, for
      every amount, type and expected version, and changes nothing;
    - a signed-in caller who is not the owner of an owned [x] gets
      UNAUTHORIZED and changes nothing. *)
Theorem replay_ignores_requested_account s uid x amt ty ev k t b :
  find (fun t => key_eqb k (tx_idempotency_key t)) (transactions s) = Some t ->
  tx_status t = Completed ->
  find_account (tx_account_id t) (accounts s) = Some b ->
  - 2 ^ 31 <= ev <= 2 ^ 31 - 1 ->
  (passes_checks s uid x ->
   update_balance s uid x amt ty ev (Some k)
     = Ok (mkRow true (tx_balance_after t) (Some (acc_version b)) None
             (Some msg_idempotent), s)) /\
  (forall a u v, find_account x (accounts s) = Some a -> acc_user_id a = Some u ->
     uid = Some v -> v <> u ->
     update_balance s uid x amt ty ev (Some k)
       = Ok (row_fail UNAUTHORIZED None None
               (MsgText "Not authorized to modify this account"), s)).
Proof.
  intros Ht Hst Hb Hev. split.
  - intros Hp. rewrite (update_balance_open s uid x amt ty ev (Some k) Hp Hev).
    unfold update_balance_body.
    assert (Hc : has_completed_key s k = true).
    { unfold has_completed_key. apply existsb_exists. exists t.
      apply find_some in Ht as [Hin Hk]. split; auto.
      rewrite Hk, Hst. reflexivity. }
    rewrite Hc. unfold replay_lookup. rewrite Ht, Hb. reflexivity.
  - intros a u v Hf Hu -> Hvu.
    exact (update_balance_unauthorized s x amt ty ev (Some k) a u v Hf Hu Hvu Hev).
Qed.

Lemma replay_ignores_requested_account_witness :
  update_balance two_owners_db None 1 1000 (Some "deposit") 4 (Some 31)
    = Ok (mkRow true (Some 3000) (Some 2) None (Some msg_idempotent), two_owners_db) /\
  update_balance two_owners_db (Some 8) 99 1000 (Some "deposit") 4 (Some 31)
    = Ok (mkRow true (Some 3000) (Some 2) None (Some msg_idempotent), two_owners_db) /\
  update_balance two_owners_db (Some 8) 1 1000 (Some "deposit") 4 (Some 31)
    = Ok (row_fail UNAUTHORIZED None None
            (MsgText "Not authorized to modify this account"), two_owners_db).
Proof.
  split; [|split].
  - apply (replay_ignores_requested_account two_owners_db None 1 1000
             (Some "deposit") 4 31
             (mkTxn 2 (Some "deposit") 1000 (Some 2000) (Some 3000) (Some 2)
                Completed None (Some 31))
             (mkAccount 2 None 3000 2)); try (vm_compute; reflexivity); try lia.
    vm_compute. right. left. reflexivity.
  - apply (replay_ignores_requested_account two_owners_db (Some 8) 99 1000
             (Some "deposit") 4 31
             (mkTxn 2 (Some "deposit") 1000 (Some 2000) (Some 3000) (Some 2)
                Completed None (Some 31))
             (mkAccount 2 None 3000 2)); try (vm_compute; reflexivity); try lia.
  - apply (proj2 (replay_ignores_requested_account two_owners_db (Some 8) 1 1000
             (Some "deposit") 4 31
             (mkTxn 2 (Some "deposit") 1000 (Some 2000) (Some 3000) (Some 2)
                Completed None (Some 31))
             (mkAccount 2 None 3000 2) ltac:(vm_compute; reflexivity)
             ltac:(vm_compute; reflexivity) ltac:(vm_compute; reflexivity)
             ltac:(lia)) (mkAccount 1 (Some 7) 5000 4) 7 8);
      try (vm_compute; reflexivity); try lia.
Defined.

End LedgerFacts.

(** * Properties of the client *)

Module ClientFacts.
Import Ledger Client.
Local Open Scope Q_scope.

(** One iteration of the loop, after its [catch] clause. *)
Definition iteration_at (cfg : RetryConfig) (params : UpdateBalanceParams)
    (key : uuid) (e : env) (n : nat) : iteration :=
  catch_clause (try_block cfg params key e n).

(** A client whose account read always shows 0.00 at version 1. *)
Definition broke_env : env :=
  mkEnv (fun _ => FetchRow 1 0) (fun _ _ => RpcError) (fun _ => 0).

(** A retry configuration that also lists UNAUTHORIZED as retryable, and a
    server that always answers UNAUTHORIZED. *)
Definition listed_unauthorized_config : RetryConfig :=
  mkRetryConfig 3 100 2000 [VERSION_CONFLICT; NETWORK_ERROR; UNAUTHORIZED].

Definition unauthorized_env : env :=
  mkEnv (fun _ => FetchRow 4 5000)
        (fun _ _ => RpcData [row_fail UNAUTHORIZED None None
                               (MsgText "Not authorized to modify this account")])
        (fun _ => 1 # 2).

(** A server that answers VERSION_CONFLICT once, then succeeds. *)
Definition conflict_once_env : env :=
  mkEnv (fun n => FetchRow (Z.of_nat n + 1) 5000)
        (fun n req =>
           match n with
           | O => RpcData [row_fail VERSION_CONFLICT (Some 5000%Z) (Some 2%Z)
                             (MsgText "Concurrent modification detected")]
           | S _ => RpcData [mkRow true (Some 6000%Z)
                               (Some (p_expected_version req + 1)%Z) None None]
           end)
        (fun _ => 1 # 2).

(** The capped delay [c = min(baseDelayMs * 2^n, maxDelayMs)]. *)
Definition capped (n : nat) (cfg : RetryConfig) : Q :=
  Qmin (baseDelayMs cfg * inject_Z (2 ^ Z.of_nat n)) (maxDelayMs cfg).


Lemma calculateBackoffDelay_capped n cfg r :
  calculateBackoffDelay n cfg r
  = Math_round (capped n cfg + capped n cfg * (1 # 4) * (r * 2 - 1)).
Proof. reflexivity. Qed.

Lemma Math_round_le x y : x <= y -> (Math_round x <= Math_round y)%Z.
Proof.
  intros H. unfold Math_round. apply Qfloor_resp_le.
  apply Qplus_le_compat; [exact H | apply Qle_refl].
Qed.

Lemma capped_nonneg n cfg :
  0 <= baseDelayMs cfg -> 0 <= maxDelayMs cfg -> 0 <= capped n cfg.
Proof.
  intros Hb Hm. unfold capped. apply Q.min_glb; [|exact Hm].
  apply Qmult_le_0_compat; [exact Hb|].
  change 0 with (inject_Z 0). rewrite <- Zle_Qle.
  apply Z.pow_nonneg. lia.
Qed.





(** ** The retry loop *)

Lemma code_eqb_spec c d : code_eqb c d = true <-> c = d.
Proof. destruct c, d; simpl; split; congruence. Qed.

Lemma existsb_code c l : existsb (code_eqb c) l = true <-> In c l.
Proof.
  rewrite existsb_exists. split.
  - intros [d [Hd Hc]]. apply code_eqb_spec in Hc. now subst.
  - intros H. exists c. split; auto. now apply code_eqb_spec.
Qed.

Lemma isRetryable_spec e :
  isRetryable e = true <-> be_code e = VERSION_CONFLICT \/ be_code e = NETWORK_ERROR.
Proof.
  unfold isRetryable. rewrite orb_true_iff, !code_eqb_spec. reflexivity.
Qed.

Lemma catch_clause_throw t err :
  catch_clause t = IterThrow err -> isRetryable err = false.
Proof.
  destruct t as [r | le | [e' |]]; simpl; try discriminate.
  destruct (isRetryable e') eqn:He; [discriminate|]. now injection 1 as <-.
Qed.

(** Whatever the loop throws is either MAX_RETRIES_EXCEEDED or an error
    that is not retryable. *)
Lemma retry_loop_throws cfg params key e n le fuel err :
  fst (retry_loop cfg params key e n le fuel) = Throws err ->
  be_code err = MAX_RETRIES_EXCEEDED \/ isRetryable err = false.
Proof.
  revert n le. induction fuel as [|fuel IH]; intros n le H; simpl in H.
  - injection H as <-. now left.
  - destruct (Z.of_nat n <=? maxRetries cfg).
    + destruct (catch_clause (try_block cfg params key e n)) as [r|err'|le'] eqn:Hc.
      * discriminate.
      * injection H as <-. right. eapply catch_clause_throw; eauto.
      * destruct (retry_loop cfg params key e (S n) (Some le') fuel) as [o ds] eqn:Hl.
        simpl in H. eapply IH. rewrite Hl. simpl. exact H.
    + injection H as <-. now left.
Qed.

Lemma retry_loop_stop cfg params key e n le fuel :
  (Z.of_nat n <= maxRetries cfg)%Z ->
  (forall err, iteration_at cfg params key e n = IterThrow err ->
     fst (retry_loop cfg params key e n le (S fuel)) = Throws err) /\
  (forall r, iteration_at cfg params key e n = IterReturn r ->
     fst (retry_loop cfg params key e n le (S fuel)) = Returns r).
Proof.
  intros Hn. unfold iteration_at. simpl.
  replace (Z.of_nat n <=? maxRetries cfg)%Z with true by (symmetry; now apply Z.leb_le).
  split; intros ? ->; reflexivity.
Qed.

Lemma retry_loop_next cfg params key e n le fuel le' :
  (Z.of_nat n <= maxRetries cfg)%Z ->
  iteration_at cfg params key e n = IterNext le' ->
  fst (retry_loop cfg params key e n le (S fuel))
  = fst (retry_loop cfg params key e (S n) (Some le') fuel).
Proof.
  intros Hn Hi. unfold iteration_at in Hi. simpl.
  replace (Z.of_nat n <=? maxRetries cfg)%Z with true by (symmetry; now apply Z.leb_le).
  rewrite Hi. destruct (retry_loop cfg params key e (S n) (Some le') fuel). reflexivity.
Qed.

(** Absorbed attempts [k .. k+d-1] are skipped over. *)
Lemma retry_loop_prefix cfg params key e d : forall k le fuel,
  (Z.of_nat (k + d) <= maxRetries cfg + 1)%Z ->
  (forall m, (k <= m < k + d)%nat -> exists l, iteration_at cfg params key e m = IterNext l) ->
  exists le', fst (retry_loop cfg params key e k le (d + fuel))
              = fst (retry_loop cfg params key e (k + d) le' fuel)
              /\ (d = 0%nat -> le' = le)
              /\ (d <> 0%nat -> exists l, le' = Some l /\
                    iteration_at cfg params key e (k + d - 1) = IterNext l).
Proof.
  induction d as [|d IH]; intros k le fuel Hm Hall.
  - exists le. rewrite Nat.add_0_r. repeat split; congruence.
  - destruct (Hall k ltac:(lia)) as [l Hl].
    rewrite Nat.add_succ_l.
    rewrite (retry_loop_next cfg params key e k le (d + fuel) l) by (auto; lia).
    destruct (IH (S k) (Some l) fuel) as [le' [H1 [H0 H2]]].
    + replace (S k + d)%nat with (k + S d)%nat by lia. exact Hm.
    + intros m Hm'. apply Hall. lia.
    + exists le'. replace (k + S d)%nat with (S k + d)%nat by lia.
      split; [exact H1|]. split; [discriminate|]. intros _.
      destruct d as [|d].
      * exists l. split; [now apply H0|].
        replace (S k + 0 - 1)%nat with k by lia. exact Hl.
      * destruct (H2 ltac:(discriminate)) as [l' [-> Hl']]. exists l'. split; auto.
Qed.

Lemma catch_clause_return t r :
  catch_clause t = IterReturn r -> t = TryReturn r.
Proof.
  destruct t as [r' | le | [e' |]]; simpl; try discriminate.
  - congruence.
  - destruct (isRetryable e'); discriminate.
Qed.

(** The [try] block returns only a successful result. *)
Lemma try_block_return cfg params key e n r :
  try_block cfg params key e n = TryReturn r -> r_success r = true.
Proof.
  unfold try_block. intros H.
  destruct (getAccountVersion (env_fetch e n)) as [[v b] | t]; [|discriminate].
  destruct (_ && _); [discriminate|].
  destruct (attemptBalanceUpdate _) as [res | t]; [|discriminate].
  destruct (r_success res) eqn:Hs.
  - injection H as <-. exact Hs.
  - destruct (errorCode res) as [c|]; [destruct (negb _)|]; discriminate.
Qed.

Lemma retry_loop_returns cfg params key e n le fuel r :
  fst (retry_loop cfg params key e n le fuel) = Returns r -> r_success r = true.
Proof.
  revert n le. induction fuel as [|fuel IH]; intros n le H; simpl in H.
  - discriminate.
  - destruct (Z.of_nat n <=? maxRetries cfg); [|discriminate].
    destruct (catch_clause (try_block cfg params key e n)) as [r'|err'|le'] eqn:Hc.
    + injection H as ->. apply catch_clause_return in Hc.
      eapply try_block_return; eauto.
    + discriminate.
    + destruct (retry_loop cfg params key e (S n) (Some le') fuel) as [o ds] eqn:Hl.
      simpl in H. eapply IH. rewrite Hl. simpl. exact H.
Qed.

(** The key [updateBalance] passes to every attempt. *)
Definition key_of (params : UpdateBalanceParams) (generated : uuid) : uuid :=
  match idempotencyKey params with Some k => k | None => generated end.

(** Attempts [0 .. n-1] were all absorbed by the [catch] clause. *)
Definition absorbed_before (cfg : RetryConfig) (params : UpdateBalanceParams)
    (key : uuid) (e : env) (n : nat) : Prop :=
  forall m, (m < n)%nat -> exists l, iteration_at cfg params key e m = IterNext l.

Lemma updateBalance_valid params cfg e g :
  (0 < amount params)%Z -> type_ params = "deposit" \/ type_ params = "withdraw" ->
  updateBalance params cfg e g
  = retry_loop cfg params (key_of params g) e 0 None (Z.to_nat (maxRetries cfg + 1)).
Proof.
  intros Ha Ht. unfold updateBalance.
  replace (amount params <=? 0)%Z with false by (symmetry; apply Z.leb_gt; lia).
  destruct Ht as [Ht | Ht]; rewrite Ht; reflexivity.
Qed.

Lemma updateBalance_throws params cfg e g err :
  fst (updateBalance params cfg e g) = Throws err ->
  be_code err = MAX_RETRIES_EXCEEDED \/ isRetryable err = false.
Proof.
  unfold updateBalance. intros H.
  destruct (amount params <=? 0)%Z; [injection H as <-; now right|].
  destruct (negb _); [injection H as <-; now right|].
  eapply retry_loop_throws; exact H.
Qed.

Lemma updateBalance_returns params cfg e g r :
  fst (updateBalance params cfg e g) = Returns r -> r_success r = true.
Proof.
  unfold updateBalance. intros H.
  destruct (amount params <=? 0)%Z; [discriminate|].
  destruct (negb _); [discriminate|].
  eapply retry_loop_returns; exact H.
Qed.

(** After absorbed attempts [0 .. n-1], attempt [n] decides the outcome. *)
Lemma updateBalance_decides params cfg e g n :
  (0 < amount params)%Z -> type_ params = "deposit" \/ type_ params = "withdraw" ->
  (Z.of_nat n <= maxRetries cfg)%Z ->
  absorbed_before cfg params (key_of params g) e n ->
  (forall err, iteration_at cfg params (key_of params g) e n = IterThrow err ->
     fst (updateBalance params cfg e g) = Throws err) /\
  (forall r, iteration_at cfg params (key_of params g) e n = IterReturn r ->
     fst (updateBalance params cfg e g) = Returns r).
Proof.
  intros Ha Ht Hn Habs. rewrite (updateBalance_valid params cfg e g Ha Ht).
  replace (Z.to_nat (maxRetries cfg + 1)) with (n + S (Z.to_nat (maxRetries cfg) - n))%nat
    by lia.
  destruct (retry_loop_prefix cfg params (key_of params g) e n 0 None
              (S (Z.to_nat (maxRetries cfg) - n))) as [le' [H1 _]].
  - simpl. lia.
  - intros m Hm. apply Habs. lia.
  - rewrite H1. simpl (0 + n)%nat. now apply retry_loop_stop.
Qed.

(** When every attempt [0 .. maxRetries] is absorbed, the loop ends with
    MAX_RETRIES_EXCEEDED carrying the last error's balance and version. *)
Lemma updateBalance_exhausted params cfg e g :
  (0 < amount params)%Z -> type_ params = "deposit" \/ type_ params = "withdraw" ->
  (0 <= maxRetries cfg)%Z ->
  absorbed_before cfg params (key_of params g) e (Z.to_nat (maxRetries cfg + 1)) ->
  exists l, iteration_at cfg params (key_of params g) e (Z.to_nat (maxRetries cfg))
              = IterNext l /\
            fst (updateBalance params cfg e g) = Throws (max_retries_exceeded (Some l)).
Proof.
  intros Ha Ht Hm Habs. rewrite (updateBalance_valid params cfg e g Ha Ht).
  rewrite <- (Nat.add_0_r (Z.to_nat (maxRetries cfg + 1))).
  destruct (retry_loop_prefix cfg params (key_of params g) e
              (Z.to_nat (maxRetries cfg + 1)) 0 None 0) as [le' [H1 [_ H2]]].
  - simpl. lia.
  - intros m Hm'. apply Habs. lia.
  - destruct (H2 ltac:(lia)) as [l [-> Hl]]. exists l. split.
    + replace (Z.to_nat (maxRetries cfg)) with (0 + Z.to_nat (maxRetries cfg + 1) - 1)%nat
        by lia. exact Hl.
    + rewrite H1. reflexivity.
Qed.

(** An attempt whose RPC answers a failed row with code [c]. *)
Lemma iteration_failed_row cfg params key e n v b r rs c :
  env_fetch e n = FetchRow v b ->
  ~ (type_ params = "withdraw" /\ (b < amount params)%Z) ->
  env_rpc e n (mkRequest (accountId params) (amount params) (type_ params) v key)
    = RpcData (r :: rs) ->
  success r = false -> error_code r = Some c ->
  (In c (retryableErrors cfg) \/ c = VERSION_CONFLICT \/ c = NETWORK_ERROR ->
     iteration_at cfg params key e n
       = IterNext (mkBankingError c (new_balance r) (new_version r))) /\
  (~ In c (retryableErrors cfg) /\ c <> VERSION_CONFLICT /\ c <> NETWORK_ERROR ->
     iteration_at cfg params key e n
       = IterThrow (mkBankingError c (new_balance r) (new_version r))).
Proof.
  intros Hf Hw Hr Hs Hc. unfold iteration_at, try_block.
  rewrite Hf. cbn [getAccountVersion].
  replace (String.eqb (type_ params) "withdraw" && (b <? amount params)%Z) with false.
  2:{ symmetry. apply not_true_iff_false. intros H.
      apply andb_true_iff in H as [H1 H2]. apply Hw. split.
      - now apply String.eqb_eq.
      - now apply Z.ltb_lt. }
  rewrite Hr. cbn [attemptBalanceUpdate r_success errorCode newBalance newVersion].
  rewrite Hs, Hc.
  destruct (existsb (code_eqb c) (retryableErrors cfg)) eqn:Hl; simpl negb; cbv iota.
  - apply existsb_code in Hl. split; [reflexivity|].
    intros [Hn _]. contradiction.
  - assert (Hn : ~ In c (retryableErrors cfg)).
    { intros Hi. apply existsb_code in Hi. congruence. }
    simpl catch_clause.
    destruct (isRetryable (mkBankingError c (new_balance r) (new_version r))) eqn:Hi.
    + split; [reflexivity|]. apply isRetryable_spec in Hi. simpl in Hi.
      intros [_ [H1 H2]]. destruct Hi; contradiction.
    + split; [|reflexivity]. intros [H | H]; [contradiction|].
      assert (isRetryable (mkBankingError c (new_balance r) (new_version r)) = true)
        by (apply isRetryable_spec; exact H). congruence.
Qed.

(** The pre-check of attempt [n] on a withdrawal exceeding the balance read. *)
Lemma iteration_precheck cfg params key e n v b :
  env_fetch e n = FetchRow v b -> type_ params = "withdraw" -> (b < amount params)%Z ->
  iteration_at cfg params key e n
    = IterThrow (mkBankingError INSUFFICIENT_FUNDS (Some b) (Some v)).
Proof.
  intros Hf Ht Hb. unfold iteration_at, try_block. rewrite Hf, Ht.
  cbn [getAccountVersion]. replace (b <? amount params)%Z with true
    by (symmetry; now apply Z.ltb_lt).
  reflexivity.
Qed.

Lemma precheck_passes params b :
  ~ (type_ params = "withdraw" /\ (b < amount params)%Z) ->
  (String.eqb (type_ params) "withdraw" && (b <? amount params)%Z) = false.
Proof.
  intros Hw. apply not_true_iff_false. intros H.
  apply andb_true_iff in H as [H1 H2]. apply Hw. split.
  - now apply String.eqb_eq.
  - now apply Z.ltb_lt.
Qed.

(** An attempt whose RPC answers a failed row without a code is absorbed as
    UNKNOWN_ERROR, with the row's balance and version. *)
Lemma iteration_codeless_row cfg params key e n v b r rs :
  env_fetch e n = FetchRow v b ->
  ~ (type_ params = "withdraw" /\ (b < amount params)%Z) ->
  env_rpc e n (mkRequest (accountId params) (amount params) (type_ params) v key)
    = RpcData (r :: rs) ->
  success r = false -> error_code r = None ->
  iteration_at cfg params key e n
    = IterNext (mkBankingError UNKNOWN_ERROR (new_balance r) (new_version r)).
Proof.
  intros Hf Hw Hr Hs Hc. unfold iteration_at, try_block.
  rewrite Hf. cbn [getAccountVersion]. rewrite (precheck_passes params b Hw).
  rewrite Hr. cbn [attemptBalanceUpdate r_success errorCode newBalance newVersion].
  rewrite Hs, Hc. reflexivity.
Qed.

(** An attempt whose RPC answers with an error (thrown as NETWORK_ERROR). *)
Lemma iteration_rpc_error cfg params key e n v b :
  env_fetch e n = FetchRow v b ->
  ~ (type_ params = "withdraw" /\ (b < amount params)%Z) ->
  env_rpc e n (mkRequest (accountId params) (amount params) (type_ params) v key)
    = RpcError ->
  iteration_at cfg params key e n = IterNext (mkBankingError NETWORK_ERROR None None).
Proof.
  intros Hf Hw Hr. unfold iteration_at, try_block.
  rewrite Hf. cbn [getAccountVersion]. rewrite (precheck_passes params b Hw).
  rewrite Hr. reflexivity.
Qed.

(** An attempt whose account read rejects. *)
Lemma iteration_fetch_throws cfg params key e n :
  env_fetch e n = FetchThrows ->
  iteration_at cfg params key e n = IterNext (mkBankingError UNKNOWN_ERROR None None).
Proof. intros Hf. unfold iteration_at, try_block. rewrite Hf. reflexivity. Qed.

(** An attempt whose RPC call rejects. *)
Lemma iteration_rpc_throws cfg params key e n v b :
  env_fetch e n = FetchRow v b ->
  ~ (type_ params = "withdraw" /\ (b < amount params)%Z) ->
  env_rpc e n (mkRequest (accountId params) (amount params) (type_ params) v key)
    = RpcThrows ->
  iteration_at cfg params key e n = IterNext (mkBankingError UNKNOWN_ERROR None None).
Proof.
  intros Hf Hw Hr. unfold iteration_at, try_block.
  rewrite Hf. cbn [getAccountVersion]. rewrite (precheck_passes params b Hw).
  rewrite Hr. reflexivity.
Qed.

(** Whatever the [try] block throws: a retryable [BankingError] is absorbed
    as itself, an exception of another kind as UNKNOWN_ERROR. *)
Lemma iteration_thrown cfg params key e n :
  (forall err, try_block cfg params key e n = TryThrow (ThrownBanking err) ->
     be_code err = VERSION_CONFLICT \/ be_code err = NETWORK_ERROR ->
     iteration_at cfg params key e n = IterNext err) /\
  (try_block cfg params key e n = TryThrow ThrownOther ->
     iteration_at cfg params key e n = IterNext (mkBankingError UNKNOWN_ERROR None None)).
Proof.
  unfold iteration_at. split.
  - intros err H Hc. rewrite H. simpl. apply isRetryable_spec in Hc. now rewrite Hc.
  - intros H. now rewrite H.
Qed.

(** An attempt that is rejected: its account read rejects, or the read
    succeeds, the pre-check passes and the RPC call rejects. *)
Definition rejected_attempt (params : UpdateBalanceParams) (key : uuid) (e : env)
    (n : nat) : Prop :=
  env_fetch e n = FetchThrows \/
  exists v b, env_fetch e n = FetchRow v b /\
    ~ (type_ params = "withdraw" /\ (b < amount params)%Z) /\
    env_rpc e n (mkRequest (accountId params) (amount params) (type_ params) v key)
      = RpcThrows.

Lemma iteration_rejected cfg params key e n :
  rejected_attempt params key e n ->
  iteration_at cfg params key e n = IterNext (mkBankingError UNKNOWN_ERROR None None).
Proof.
  intros [Hf | [v [b [Hf [Hw Hr]]]]].
  - now apply iteration_fetch_throws.
  - now apply (iteration_rpc_throws cfg params key e n v b).
Qed.

(** When every attempt [0 .. maxRetries] is rejected, all of them are made
    and the outcome is MAX_RETRIES_EXCEEDED. *)
Lemma updateBalance_all_rejected params cfg e g :
  (0 < amount params)%Z -> type_ params = "deposit" \/ type_ params = "withdraw" ->
  (0 <= maxRetries cfg)%Z ->
  (forall n, (Z.of_nat n <= maxRetries cfg)%Z -> rejected_attempt params (key_of params g) e n) ->
  fst (updateBalance params cfg e g)
    = Throws (max_retries_exceeded (Some (mkBankingError UNKNOWN_ERROR None None))).
Proof.
  intros Ha Ht Hm Hr.
  destruct (updateBalance_exhausted params cfg e g Ha Ht Hm) as [l [Hl Hu]].
  - intros m Hm'. exists (mkBankingError UNKNOWN_ERROR None None).
    apply iteration_rejected, Hr. lia.
  - rewrite (iteration_rejected cfg params (key_of params g) e _ (Hr (Z.to_nat (maxRetries cfg)) ltac:(lia))) in Hl.
    injection Hl as <-. exact Hu.
Qed.

End ClientFacts.

(** * How INSUFFICIENT_FUNDS and the retryable outcomes reach the caller *)

Module Propagation.
Import Ledger Client Samples ClientFacts.

(** A withdrawal of 10.00 and a deposit of 10.00 on account 1, with key 5. *)
Definition insufficient_params : UpdateBalanceParams :=
  mkParams 1 1000 "withdraw" (Some 5).

Definition conflict_params : UpdateBalanceParams :=
  mkParams 1 1000 "deposit" (Some 5).

(** A client whose account read and RPC call both reject with an exception
    that is not a [BankingError]. *)
Definition throwing_env : env :=
  mkEnv (fun _ => FetchThrows) (fun _ _ => RpcThrows) (fun _ => (1 # 2)%Q).

(** The server's answer to a withdrawal exceeding the balance, with a key
    no audit entry bears or with none: an INSUFFICIENT_FUNDS row, with the
    failed audit entry appended and the accounts untouched. *)
Lemma insufficient_withdraw_row s uid x amt ev key a :
  find_account x (accounts s) = Some a ->
  LedgerFacts.passes_owner_check (acc_user_id a) uid ->
  acc_version a = ev -> 0 <= acc_balance a < amt -> amt < 10 ^ 15 ->
  - 2 ^ 31 <= ev <= 2 ^ 31 - 1 -> LedgerFacts.key_unused s key ->
  update_balance s uid x amt (Some "withdraw") ev key
  = Ok (row_fail INSUFFICIENT_FUNDS (Some (acc_balance a)) (Some ev)
          (MsgCannotWithdraw (Some amt) (Some (acc_balance a))),
        mkDb (accounts s)
          (transactions s ++
             [mkTxn x (Some "withdraw") amt (Some (acc_balance a)) (Some (acc_balance a))
                (Some ev) Failed (Some (MsgText "Insufficient funds")) key])).
Proof.
  intros Hf Hu Hv Hb Ha Hev Hk.
  rewrite (LedgerFacts.reach_apply s uid x amt (Some "withdraw") ev key a Hf Hu Hev
             (LedgerFacts.key_unused_not_replayed _ _ Hk)).
  rewrite (LedgerFacts.update_balance_apply_candidate s x amt (Some "withdraw") ev key a Hf Hv
             (or_intror eq_refl)).
  subst ev. simpl String.eqb. cbv iota. unfold numeric_15_2.
  replace (Z.abs (acc_balance a - amt) <? 10 ^ 15) with true
    by (symmetry; apply Z.ltb_lt; rewrite Z.abs_neq; lia).
  cbv beta iota delta [bind]. simpl sql_ltZ.
  replace (acc_balance a - amt <? 0) with true by (symmetry; apply Z.ltb_lt; lia).
  simpl sql_if. cbv iota. unfold insert_txn. cbn [tx_amount].
  rewrite (LedgerFacts.numeric_ok amt ltac:(rewrite Z.abs_eq; lia)). cbn [bind].
  unfold txn_check. cbn -[Z.sub].
  replace (0 <? amt) with true by (symmetry; apply Z.ltb_lt; lia).
  cbn -[Z.sub]. rewrite orb_true_r. cbn -[Z.sub].
  destruct key as [k|]; unfold LedgerFacts.key_unused in Hk; [rewrite Hk|]; cbn;
    rewrite Hf; reflexivity.
Qed.

(** C6 (counterexample): the client throws INSUFFICIENT_FUNDS.  With an
    account read of 0.00 at version 1, [updateBalance] of a withdrawal of
    10.00 ends by throwing a [BankingError] INSUFFICIENT_FUNDS (balance 0,
    version 1) from its pre-check; it returns no result value. *)
Lemma insufficient_funds_thrown_counterexample :
  updateBalance insufficient_params DEFAULT_RETRY_CONFIG broke_env 9
    = (Throws (mkBankingError INSUFFICIENT_FUNDS (Some 0) (Some 1)), []).
Proof. vm_compute. reflexivity. Qed.

(** C6 (as amended): the server delivers INSUFFICIENT_FUNDS as an ordinary
    row; the client turns it into a thrown [BankingError].
    - [update_balance], for a withdrawal from an existing account at the
      expected version whose balance is below the amount, by a caller who
      passes the authorization check (owner, demo account or anonymous
      caller), with a key no audit entry bears or with no key, returns the
      row [success = false], code INSUFFICIENT_FUNDS, with the current
      balance and version, appends a failed entry recording the attempt
      and bearing the key, and leaves the accounts as they were;
    - [updateBalance] on a withdrawal only ever returns successful results;
      once the attempts before [n] were absorbed, a balance read at attempt
      [n] below the amount makes it throw INSUFFICIENT_FUNDS with that
      balance and version, and so does an INSUFFICIENT_FUNDS row of the
      server when that code is not listed in [retryableErrors]. *)
Theorem insufficient_funds_surfaces_as_throw :
  (forall s uid x amt ev key a,
     find_account x (accounts s) = Some a ->
     LedgerFacts.passes_owner_check (acc_user_id a) uid ->
     acc_version a = ev -> 0 <= acc_balance a < amt -> amt < 10 ^ 15 ->
     - 2 ^ 31 <= ev <= 2 ^ 31 - 1 -> LedgerFacts.key_unused s key ->
     update_balance s uid x amt (Some "withdraw") ev key
     = Ok (row_fail INSUFFICIENT_FUNDS (Some (acc_balance a)) (Some ev)
             (MsgCannotWithdraw (Some amt) (Some (acc_balance a))),
           mkDb (accounts s)
             (transactions s ++
                [mkTxn x (Some "withdraw") amt (Some (acc_balance a)) (Some (acc_balance a))
                   (Some ev) Failed (Some (MsgText "Insufficient funds")) key]))) /\
  (forall params cfg e g,
     0 < amount params -> type_ params = "withdraw" ->
     (forall r, fst (updateBalance params cfg e g) = Returns r -> r_success r = true) /\
     (forall n v b,
        Z.of_nat n <= maxRetries cfg -> absorbed_before cfg params (key_of params g) e n ->
        env_fetch e n = FetchRow v b -> b < amount params ->
        fst (updateBalance params cfg e g)
          = Throws (mkBankingError INSUFFICIENT_FUNDS (Some b) (Some v))) /\
     (forall n v b r rs,
        Z.of_nat n <= maxRetries cfg -> absorbed_before cfg params (key_of params g) e n ->
        env_fetch e n = FetchRow v b -> amount params <= b ->
        env_rpc e n (mkRequest (accountId params) (amount params) "withdraw" v
                       (key_of params g)) = RpcData (r :: rs) ->
        success r = false -> error_code r = Some INSUFFICIENT_FUNDS ->
        ~ In INSUFFICIENT_FUNDS (retryableErrors cfg) ->
        fst (updateBalance params cfg e g)
          = Throws (mkBankingError INSUFFICIENT_FUNDS (new_balance r) (new_version r)))).
Proof.
  split.
  - exact insufficient_withdraw_row.
  - intros params cfg e g Ha Ht. split; [|split].
    + apply updateBalance_returns.
    + intros n v b Hn Habs Hf Hb.
      apply (updateBalance_decides params cfg e g n Ha (or_intror Ht) Hn Habs).
      now apply iteration_precheck.
    + intros n v b r rs Hn Habs Hf Hb Hr Hs Hc Hl.
      apply (updateBalance_decides params cfg e g n Ha (or_intror Ht) Hn Habs).
      rewrite <- Ht in Hr.
      apply (iteration_failed_row cfg params (key_of params g) e n v b r rs
               INSUFFICIENT_FUNDS Hf); auto.
      * intros [_ H]. lia.
      * repeat split; [exact Hl | discriminate | discriminate].
Qed.

Lemma insufficient_funds_surfaces_as_throw_witness :
  update_balance two_owners_db None 1 6000 (Some "withdraw") 4 (Some 40)
  = Ok (row_fail INSUFFICIENT_FUNDS (Some 5000) (Some 4)
          (MsgCannotWithdraw (Some 6000) (Some 5000)),
        mkDb (accounts two_owners_db)
          (transactions two_owners_db ++
             [mkTxn 1 (Some "withdraw") 6000 (Some 5000) (Some 5000) (Some 4) Failed
                (Some (MsgText "Insufficient funds")) (Some 40)])) /\
  fst (updateBalance insufficient_params DEFAULT_RETRY_CONFIG broke_env 9)
    = Throws (mkBankingError INSUFFICIENT_FUNDS (Some 0) (Some 1)).
Proof.
  destruct insufficient_funds_surfaces_as_throw as [Hs Hc]. split.
  - apply (Hs two_owners_db None 1 6000 4 (Some 40) (mkAccount 1 (Some 7) 5000 4)).
    + vm_compute. reflexivity.
    + right. left. reflexivity.
    + reflexivity.
    + simpl. lia.
    + lia.
    + lia.
    + vm_compute. reflexivity.
  - destruct (Hc insufficient_params DEFAULT_RETRY_CONFIG broke_env 9
                ltac:(simpl; lia) eq_refl) as [_ [H _]].
    apply (H 0%nat 1 0).
    + simpl. lia.
    + intros m Hm. lia.
    + reflexivity.
    + simpl. lia.
Defined.

(** C7 (counterexample): a code listed in [retryableErrors] is retried
    although it is not retryable, and an exception that is not a
    [BankingError] is absorbed as UNKNOWN_ERROR and retried.  With
    UNAUTHORIZED listed and a server that always answers UNAUTHORIZED, and
    with the default configuration and a client whose calls reject, the
    four attempts are all made, with sleeps of 100, 200 and 400 ms, and the
    caller gets MAX_RETRIES_EXCEEDED rather than the first outcome. *)
Lemma retry_absorbs_nonretryable_counterexample :
  updateBalance conflict_params listed_unauthorized_config unauthorized_env 9
    = (Throws (mkBankingError MAX_RETRIES_EXCEEDED None None), [100; 200; 400]) /\
  updateBalance conflict_params DEFAULT_RETRY_CONFIG throwing_env 9
    = (Throws (mkBankingError MAX_RETRIES_EXCEEDED None None), [100; 200; 400]).
Proof. split; vm_compute; reflexivity. Qed.

(** C7 (as amended): for a valid request (positive amount, deposit or
    withdraw):
    - no attempt ends by throwing VERSION_CONFLICT or NETWORK_ERROR, and
      what [updateBalance] throws is MAX_RETRIES_EXCEEDED or neither of
      them;
    - once attempts [0 .. n-1] were absorbed, with [n <= maxRetries], an
      attempt [n] that throws or returns decides the outcome, whatever the
      later attempts would do;
    - when all attempts [0 .. maxRetries] are absorbed, the outcome is
      MAX_RETRIES_EXCEEDED with the balance and version of the last
      attempt's error;
    - a failed row with code [c] is absorbed when [c] is VERSION_CONFLICT,
      NETWORK_ERROR or listed in [retryableErrors], and thrown otherwise;
    - a failed row without a code is absorbed as UNKNOWN_ERROR with the
      row's balance and version;
    - a thrown VERSION_CONFLICT or NETWORK_ERROR is absorbed as itself; an
      RPC error is thrown as NETWORK_ERROR and so absorbed;
    - an exception that is not a [BankingError], among them a rejected
      account read or RPC call, is absorbed as UNKNOWN_ERROR;
    - when every attempt [0 .. maxRetries] is rejected, all are made and the
      outcome is MAX_RETRIES_EXCEEDED. *)
Theorem retry_controller_outcomes params cfg e g :
  0 < amount params -> type_ params = "deposit" \/ type_ params = "withdraw" ->
  (forall n err, iteration_at cfg params (key_of params g) e n = IterThrow err ->
     be_code err <> VERSION_CONFLICT /\ be_code err <> NETWORK_ERROR) /\
  (forall err, fst (updateBalance params cfg e g) = Throws err ->
     be_code err = MAX_RETRIES_EXCEEDED \/
     (be_code err <> VERSION_CONFLICT /\ be_code err <> NETWORK_ERROR)) /\
  (forall n, Z.of_nat n <= maxRetries cfg ->
     absorbed_before cfg params (key_of params g) e n ->
     (forall err, iteration_at cfg params (key_of params g) e n = IterThrow err ->
        fst (updateBalance params cfg e g) = Throws err) /\
     (forall r, iteration_at cfg params (key_of params g) e n = IterReturn r ->
        fst (updateBalance params cfg e g) = Returns r)) /\
  (0 <= maxRetries cfg ->
   absorbed_before cfg params (key_of params g) e (Z.to_nat (maxRetries cfg + 1)) ->
   exists l, iteration_at cfg params (key_of params g) e (Z.to_nat (maxRetries cfg))
               = IterNext l /\
             fst (updateBalance params cfg e g) = Throws (max_retries_exceeded (Some l))) /\
  (forall n v b r rs c,
     env_fetch e n = FetchRow v b ->
     ~ (type_ params = "withdraw" /\ b < amount params) ->
     env_rpc e n (mkRequest (accountId params) (amount params) (type_ params) v
                    (key_of params g)) = RpcData (r :: rs) ->
     success r = false -> error_code r = Some c ->
     (In c (retryableErrors cfg) \/ c = VERSION_CONFLICT \/ c = NETWORK_ERROR ->
        iteration_at cfg params (key_of params g) e n
          = IterNext (mkBankingError c (new_balance r) (new_version r))) /\
     (~ In c (retryableErrors cfg) /\ c <> VERSION_CONFLICT /\ c <> NETWORK_ERROR ->
        iteration_at cfg params (key_of params g) e n
          = IterThrow (mkBankingError c (new_balance r) (new_version r)))) /\
  (forall n v b r rs,
     env_fetch e n = FetchRow v b ->
     ~ (type_ params = "withdraw" /\ b < amount params) ->
     env_rpc e n (mkRequest (accountId params) (amount params) (type_ params) v
                    (key_of params g)) = RpcData (r :: rs) ->
     success r = false -> error_code r = None ->
     iteration_at cfg params (key_of params g) e n
       = IterNext (mkBankingError UNKNOWN_ERROR (new_balance r) (new_version r))) /\
  (forall n err,
     try_block cfg params (key_of params g) e n = TryThrow (ThrownBanking err) ->
     be_code err = VERSION_CONFLICT \/ be_code err = NETWORK_ERROR ->
     iteration_at cfg params (key_of params g) e n = IterNext err) /\
  (forall n v b,
     env_fetch e n = FetchRow v b ->
     ~ (type_ params = "withdraw" /\ b < amount params) ->
     env_rpc e n (mkRequest (accountId params) (amount params) (type_ params) v
                    (key_of params g)) = RpcError ->
     iteration_at cfg params (key_of params g) e n
       = IterNext (mkBankingError NETWORK_ERROR None None)) /\
  (forall n,
     try_block cfg params (key_of params g) e n = TryThrow ThrownOther ->
     iteration_at cfg params (key_of params g) e n
       = IterNext (mkBankingError UNKNOWN_ERROR None None)) /\
  (forall n, rejected_attempt params (key_of params g) e n ->
     iteration_at cfg params (key_of params g) e n
       = IterNext (mkBankingError UNKNOWN_ERROR None None)) /\
  (0 <= maxRetries cfg ->
   (forall n, Z.of_nat n <= maxRetries cfg -> rejected_attempt params (key_of params g) e n) ->
   fst (updateBalance params cfg e g)
     = Throws (max_retries_exceeded (Some (mkBankingError UNKNOWN_ERROR None None)))).
Proof.
  intros Ha Ht. split; [|split; [|split; [|split; [|split; [|split; [|split; [|split; [|split; [|split]]]]]]]]].
  - intros n err H. apply catch_clause_throw in H.
    split; intros Hc; apply Bool.not_true_iff_false in H; apply H;
      apply isRetryable_spec; auto.
  - intros err H. apply updateBalance_throws in H as [H | H]; [now left|].
    right. apply Bool.not_true_iff_false in H.
    split; intros Hc; apply H; apply isRetryable_spec; auto.
  - intros n Hn Habs. exact (updateBalance_decides params cfg e g n Ha Ht Hn Habs).
  - intros Hm Habs. exact (updateBalance_exhausted params cfg e g Ha Ht Hm Habs).
  - intros n v b r rs c Hf Hw Hr Hs Hc.
    exact (iteration_failed_row cfg params (key_of params g) e n v b r rs c Hf Hw Hr Hs Hc).
  - intros n v b r rs Hf Hw Hr Hs Hc.
    exact (iteration_codeless_row cfg params (key_of params g) e n v b r rs Hf Hw Hr Hs Hc).
  - intros n. exact (proj1 (iteration_thrown cfg params (key_of params g) e n)).
  - intros n v b Hf Hw Hr.
    exact (iteration_rpc_error cfg params (key_of params g) e n v b Hf Hw Hr).
  - intros n. exact (proj2 (iteration_thrown cfg params (key_of params g) e n)).
  - intros n. exact (iteration_rejected cfg params (key_of params g) e n).
  - intros Hm Hr. exact (updateBalance_all_rejected params cfg e g Ha Ht Hm Hr).
Qed.

Lemma retry_controller_outcomes_witness :
  fst (updateBalance conflict_params DEFAULT_RETRY_CONFIG conflict_once_env 9)
    = Returns (mkResult true (Some 6000) (Some 3) None None) /\
  fst (updateBalance conflict_params DEFAULT_RETRY_CONFIG throwing_env 9)
    = Throws (max_retries_exceeded (Some (mkBankingError UNKNOWN_ERROR None None))).
Proof.
  split.
  - destruct (retry_controller_outcomes conflict_params DEFAULT_RETRY_CONFIG
                conflict_once_env 9 ltac:(simpl; lia) (or_introl eq_refl))
      as [_ [_ [H _]]].
    apply (H 1%nat ltac:(simpl; lia)).
    + intros m Hm. exists (mkBankingError VERSION_CONFLICT (Some 5000) (Some 2)).
      replace m with 0%nat by lia. vm_compute. reflexivity.
    + vm_compute. reflexivity.
  - destruct (retry_controller_outcomes conflict_params DEFAULT_RETRY_CONFIG
                throwing_env 9 ltac:(simpl; lia) (or_introl eq_refl))
      as [_ [_ [_ [_ [_ [_ [_ [_ [_ [_ H]]]]]]]]]].
    apply H.
    + simpl. lia.
    + intros n _. left. reflexivity.
Defined.

End Propagation.

(** * Further properties of [update_balance] *)

Module LedgerMore.
Import Ledger Samples LedgerFacts.

(** The audit entries a call appended: at most one, for the requested
    account, bearing the call's key. *)
Definition appended (s : db) (x : uuid) (key : option uuid) (s' : db) : Prop :=
  exists l, transactions s' = transactions s ++ l /\ (List.length l <= 1)%nat /\
    Forall (fun t => tx_account_id t = x /\ tx_idempotency_key t = key) l.

Lemma find_app_none {A} (f : A -> bool) l1 l2 :
  find f l1 = None -> find f (l1 ++ l2) = find f l2.
Proof. induction l1 as [|a l1 IH]; simpl; auto. destruct (f a); [discriminate | auto]. Qed.

Lemma existsb_find_none {A} (f : A -> bool) l :
  existsb f l = false -> find f l = None.
Proof.
  induction l as [|a l IH]; simpl; auto.
  destruct (f a); simpl; [discriminate | auto].
Qed.

Lemma txn_check_type t :
  txn_check t = Ok tt -> exists ty, tx_type t = Some ty /\ (ty = "deposit" \/ ty = "withdraw").
Proof.
  unfold txn_check. intros H.
  destruct (tx_type t) as [ty|]; [|discriminate].
  destruct (tx_balance_before t), (tx_balance_after t), (tx_version_at t); try discriminate.
  exists ty. split; auto.
  destruct (existsb (String.eqb ty) ["deposit"; "withdraw"]) eqn:He; [|discriminate].
  simpl in He. rewrite orb_false_r in He.
  apply orb_true_iff in He as [E | E]; apply String.eqb_eq in E; auto.
Qed.

Lemma insert_txn_ok s t s' :
  insert_txn s t = Ok s' ->
  s' = mkDb (accounts s) (transactions s ++ [t]) /\ txn_check t = Ok tt /\
  key_unused s (tx_idempotency_key t) /\
  exists b, find_account (tx_account_id t) (accounts s) = Some b.
Proof.
  unfold insert_txn. intros H. apply bind_ok in H as [_ [_ H]].
  apply bind_ok in H as [[] [Hc H]]. apply bind_ok in H as [[] [Hk H]].
  destruct (find_account (tx_account_id t) (accounts s)) eqn:Hf; [|discriminate].
  injection H as <-. repeat split; eauto.
  unfold key_unused. destruct (tx_idempotency_key t) as [k|]; auto.
  destruct (existsb _ _); [discriminate | reflexivity].
Qed.

Lemma update_accounts_others x ev nb l l' n :
  update_accounts x ev nb l = Ok (l', n) ->
  forall y, y <> x -> find_account y l' = find_account y l.
Proof.
  revert l' n. induction l as [|a l IH]; intros l' n H y Hy; simpl in H.
  - now injection H as <- _.
  - apply bind_ok in H as [[l'' m] [Hl H]]. simpl in H.
    unfold find_account in *. simpl.
    destruct ((acc_id a =? x) && (acc_version a =? ev)) eqn:Hc.
    + apply bind_ok in H as [a' [Ha H]]. injection H as <- _.
      apply update_row_ok in Ha as [b [_ [_ ->]]]. simpl.
      apply andb_true_iff in Hc as [Hc _]. apply Z.eqb_eq in Hc. rewrite Hc.
      replace (x =? y) with false by (symmetry; apply Z.eqb_neq; auto).
      eapply IH; eauto.
    + injection H as <- _. simpl. destruct (acc_id a =? y); auto. eapply IH; eauto.
Qed.

Lemma update_accounts_hit x ev nb l l' n a :
  find_account x l = Some a -> acc_version a = ev ->
  update_accounts x ev nb l = Ok (l', n) ->
  exists b, nb = Some b /\ 0 <= b /\ n <> 0 /\
    find_account x l' = Some (mkAccount x (acc_user_id a) b (ev + 1)).
Proof.
  intros Hf Hv Hu.
  destruct (update_accounts_found _ _ _ _ _ _ _ Hf Hv Hu) as [Hn [b [Hb Hf']]].
  exists b. repeat split; auto.
  destruct (update_accounts_rows _ _ _ _ _ _ Hu) as [HF _].
  destruct (find_row_after _ _ _ _ HF Hf) as [a' [Ha' Hor]].
  rewrite Hf' in Ha'. injection Ha' as <-.
  destruct Hor as [E | H]; [rewrite <- E in Hv; simpl in Hv; lia | exact H].
Qed.

(** The account row and the failed path of [update_balance_commit]. *)
Lemma commit_missing s x amt ty ev key cb nb r s' :
  find_account x (accounts s) = None ->
  update_balance_commit s x amt ty ev key cb nb = Ok (r, s') -> success r = false.
Proof.
  intros Hf H. unfold update_balance_commit in H.
  apply bind_ok in H as [[accs n] [Hu H]]. cbv beta iota zeta in H.
  rewrite (update_accounts_missing _ _ _ _ _ _ Hf Hu) in H. simpl in H.
  now injection H as <- _.
Qed.

Lemma commit_success s x amt ty ev key cb nb r s' a :
  find_account x (accounts s) = Some a -> acc_version a = ev ->
  update_balance_commit s x amt ty ev key cb nb = Ok (r, s') -> success r = true ->
  exists b accs, nb = Some b /\ 0 <= b /\ - 2 ^ 31 <= ev + 1 <= 2 ^ 31 - 1 /\
    r = mkRow true (Some b) (Some (ev + 1)) None None /\
    s' = mkDb accs (transactions s ++
                    [mkTxn x ty amt cb (Some b) (Some (ev + 1)) Completed None key]) /\
    txn_check (mkTxn x ty amt cb (Some b) (Some (ev + 1)) Completed None key) = Ok tt /\
    key_unused s key /\
    find_account x accs = Some (mkAccount x (acc_user_id a) b (ev + 1)) /\
    (forall y, y <> x -> find_account y accs = find_account y (accounts s)).
Proof.
  intros Hf Hv H Hs. unfold update_balance_commit in H.
  apply bind_ok in H as [[accs n] [Hu H]]. cbv beta iota zeta in H.
  destruct (update_accounts_hit _ _ _ _ _ _ _ Hf Hv Hu) as [b [-> [Hb [Hn Hf']]]].
  replace (n =? 0) with false in H by (symmetry; now apply Z.eqb_neq).
  apply bind_ok in H as [ev1 [Hev H]]. apply bind_ok in H as [s2 [Hs2 H]].
  injection H as <- <-.
  unfold int4 in Hev. destruct (_ && _) eqn:Hr; [|discriminate].
  injection Hev as <-. apply andb_true_iff in Hr as [Hr1 Hr2].
  apply Z.leb_le in Hr1. apply Z.leb_le in Hr2.
  apply insert_txn_ok in Hs2 as [-> [Hc [Hk _]]].
  exists b, accs. simpl in *. repeat split; auto; try lia.
  eapply update_accounts_others; eauto.
Qed.

(** A committed mutation of [update_balance_apply]. *)
Lemma apply_success s x amt ty ev key r s' :
  update_balance_apply s x amt ty ev key = Ok (r, s') -> success r = true ->
  exists a nb accs,
    find_account x (accounts s) = Some a /\ acc_version a = ev /\
    ((ty = Some "deposit" /\ nb = acc_balance a + amt) \/
     (ty = Some "withdraw" /\ nb = acc_balance a - amt)) /\
    0 <= nb < 10 ^ 15 /\ - 2 ^ 31 <= ev + 1 <= 2 ^ 31 - 1 /\ key_unused s key /\
    r = mkRow true (Some nb) (Some (ev + 1)) None None /\
    s' = mkDb accs (transactions s ++
           [mkTxn x ty amt (Some (acc_balance a)) (Some nb) (Some (ev + 1)) Completed None key]) /\
    find_account x accs = Some (mkAccount x (acc_user_id a) nb (ev + 1)) /\
    (forall y, y <> x -> find_account y accs = find_account y (accounts s)).
Proof.
  intros H Hs. unfold update_balance_apply in H.
  destruct (find_account x (accounts s)) as [a|] eqn:Hf.
  - cbn [option_map sql_neZ sql_cmpZ] in H.
    destruct (acc_version a =? ev) eqn:Hv; cbn [negb sql_if] in H;
      [|injection H as <- _; discriminate].
    apply Z.eqb_eq in Hv.
    destruct (sql_if (sql_not (sql_in_str ty ["deposit"; "withdraw"])));
      [injection H as <- _; discriminate|].
    destruct (sql_if (sql_eq_str ty "deposit")) eqn:Hd.
    + apply bind_ok in H as [nb [Hnb H]]. unfold numeric_15_2 in Hnb. cbn [sql_addZ sql_subZ] in Hnb.
      destruct (Z.abs (acc_balance a + amt) <? 10 ^ 15) eqn:Ho; [|discriminate].
      injection Hnb as <-. apply Z.ltb_lt in Ho.
      destruct (commit_success _ _ _ _ _ _ _ _ _ _ a Hf Hv H Hs)
        as [b [accs [Eb [Hb [Hev [-> [-> [_ [Hk [Hf' Ho']]]]]]]]]].
      injection Eb as <-.
      exists a, (acc_balance a + amt), accs. repeat split; auto; try lia.
      left. split; auto. destruct ty as [t|]; [|discriminate].
      simpl in Hd. destruct (String.eqb t "deposit") eqn:E; [|discriminate].
      apply String.eqb_eq in E. now subst.
    + apply bind_ok in H as [nb [Hnb H]]. unfold numeric_15_2 in Hnb. cbn [sql_addZ sql_subZ] in Hnb.
      destruct (Z.abs (acc_balance a - amt) <? 10 ^ 15) eqn:Ho; [|discriminate].
      injection Hnb as <-. apply Z.ltb_lt in Ho. simpl sql_ltZ in H.
      destruct (acc_balance a - amt <? 0) eqn:Hn; simpl in H.
      * apply bind_ok in H as [s1 [_ H]]. injection H as <- _. discriminate.
      * destruct (commit_success _ _ _ _ _ _ _ _ _ _ a Hf Hv H Hs)
          as [b [accs [Eb [Hb [Hev [-> [-> [Hc [Hk [Hf' Ho']]]]]]]]]].
        injection Eb as <-.
        exists a, (acc_balance a - amt), accs. repeat split; auto; try lia.
        right. split; auto.
        apply txn_check_type in Hc as [t [Ht [-> | ->]]]; simpl in Ht; subst ty;
          [discriminate | reflexivity].
  - exfalso. cbn [option_map sql_neZ sql_cmpZ sql_if] in H.
    destruct (sql_if (sql_not (sql_in_str ty ["deposit"; "withdraw"])));
      [injection H as <- _; discriminate|].
    destruct (sql_if (sql_eq_str ty "deposit")).
    + apply bind_ok in H as [nb [_ H]].
      apply commit_missing in H; [congruence | exact Hf].
    + apply bind_ok in H as [nb [Hnb H]]. cbn [numeric_15_2 sql_subZ] in Hnb.
      injection Hnb as <-. cbn [sql_ltZ sql_cmpZ sql_if] in H.
      apply commit_missing in H; [congruence | exact Hf].
Qed.

(** A successful call that is not a replay. *)
Lemma update_balance_success s uid x amt ty ev key r s' :
  update_balance s uid x amt ty ev key = Ok (r, s') ->
  success r = true -> error_message r = None ->
  exists a nb accs,
    find_account x (accounts s) = Some a /\
    passes_owner_check (acc_user_id a) uid /\ acc_version a = ev /\
    ((ty = Some "deposit" /\ nb = acc_balance a + amt) \/
     (ty = Some "withdraw" /\ nb = acc_balance a - amt)) /\
    0 <= nb < 10 ^ 15 /\ - 2 ^ 31 <= ev + 1 <= 2 ^ 31 - 1 /\ key_unused s key /\
    r = mkRow true (Some nb) (Some (ev + 1)) None None /\
    s' = mkDb accs (transactions s ++
           [mkTxn x ty amt (Some (acc_balance a)) (Some nb) (Some (ev + 1)) Completed None key]) /\
    find_account x accs = Some (mkAccount x (acc_user_id a) nb (ev + 1)) /\
    (forall y, y <> x -> find_account y accs = find_account y (accounts s)).
Proof.
  intros H Hs Hm. unfold update_balance in H. apply bind_ok in H as [_ [_ H]].
  assert (Hbody : forall a, find_account x (accounts s) = Some a ->
            passes_owner_check (acc_user_id a) uid ->
            update_balance_body s x amt ty ev key = Ok (r, s') ->
            exists a nb accs,
              find_account x (accounts s) = Some a /\
              passes_owner_check (acc_user_id a) uid /\ acc_version a = ev /\
              ((ty = Some "deposit" /\ nb = acc_balance a + amt) \/
               (ty = Some "withdraw" /\ nb = acc_balance a - amt)) /\
              0 <= nb < 10 ^ 15 /\ - 2 ^ 31 <= ev + 1 <= 2 ^ 31 - 1 /\ key_unused s key /\
              r = mkRow true (Some nb) (Some (ev + 1)) None None /\
              s' = mkDb accs (transactions s ++
                     [mkTxn x ty amt (Some (acc_balance a)) (Some nb) (Some (ev + 1))
                        Completed None key]) /\
              find_account x accs = Some (mkAccount x (acc_user_id a) nb (ev + 1)) /\
              (forall y, y <> x -> find_account y accs = find_account y (accounts s))).
  { intros a0 Hf0 Hu0 Hb. unfold update_balance_body in Hb.
    assert (Ha : update_balance_apply s x amt ty ev key = Ok (r, s')).
    { destruct key as [k|]; auto. destruct (has_completed_key s k); auto.
      destruct (replay_lookup s k). injection Hb as <- _. discriminate. }
    destruct (apply_success _ _ _ _ _ _ _ _ Ha Hs)
      as [a [nb [accs [Hf [Hv [Hty [Hnb [Hev [Hk [Hr [Hs' [Hf' Ho]]]]]]]]]]]].
    rewrite Hf0 in Hf. injection Hf as <-.
    exists a0, nb, accs. tauto. }
  destruct (find_account x (accounts s)) as [a|] eqn:Hf; cbv beta iota zeta in H.
  - cbn [sql_not option_map negb sql_if] in H.
    destruct (sql_if (sql_and (sql_is_not_null (acc_user_id a)) (sql_neZ (acc_user_id a) uid)))
      eqn:Hc; [injection H as <- _; discriminate|].
    apply (Hbody a); auto.
    unfold passes_owner_check.
    destruct (acc_user_id a) as [u|]; [|now left]. right.
    destruct uid as [v|]; [|now left]. right.
    simpl in Hc. destruct (u =? v) eqn:E; [apply Z.eqb_eq in E; now subst | discriminate].
  - exfalso. simpl in H. unfold update_balance_body in H.
    assert (Ha : update_balance_apply s x amt ty ev key = Ok (r, s')).
    { destruct key as [k|]; auto. destruct (has_completed_key s k); auto.
      destruct (replay_lookup s k). injection H as <- _. discriminate. }
    destruct (apply_success _ _ _ _ _ _ _ _ Ha Hs) as [a [_ [_ [Hf' _]]]]. congruence.
Qed.

(** What [update_balance_commit], [update_balance_apply] and
    [update_balance_body] append to the audit log. *)
Lemma appended_refl s x key : appended s x key s.
Proof. exists []. rewrite app_nil_r. repeat split; auto. Qed.

Lemma commit_appended s x amt ty ev key cb nb r s' :
  update_balance_commit s x amt ty ev key cb nb = Ok (r, s') -> appended s x key s'.
Proof.
  unfold update_balance_commit. intros H.
  apply bind_ok in H as [[accs n] [Hu H]]. cbv beta iota zeta in H.
  destruct (n =? 0).
  - injection H as _ <-. exists []. rewrite app_nil_r. repeat split; auto.
  - apply bind_ok in H as [ev1 [_ H]]. apply bind_ok in H as [s2 [Hs2 H]].
    injection H as _ <-. apply insert_txn_ok in Hs2 as [-> _].
    eexists. split; [reflexivity|]. simpl. split; [lia|]. repeat constructor.
Qed.

Lemma apply_appended s x amt ty ev key r s' :
  update_balance_apply s x amt ty ev key = Ok (r, s') -> appended s x key s'.
Proof.
  unfold update_balance_apply. intros H.
  repeat match type of H with
         | (if ?c then _ else _) = _ => destruct c
         | bind _ _ = Ok _ => apply bind_ok in H as [? [? H]]
         end;
    try (injection H as _ <-; apply appended_refl);
    try solve [eapply commit_appended; eauto].
  match goal with
  | Hi : insert_txn _ _ = Ok _ |- _ =>
      injection H as _ <-; apply insert_txn_ok in Hi as [-> _]
  end.
  eexists. split; [reflexivity|]. simpl. split; [lia|]. repeat constructor.
Qed.

Lemma body_appended s x amt ty ev key r s' :
  update_balance_body s x amt ty ev key = Ok (r, s') -> appended s x key s'.
Proof.
  unfold update_balance_body. intros H.
  destruct key as [k|]; [|eapply apply_appended; eauto].
  destruct (has_completed_key s k); [|eapply apply_appended; eauto].
  destruct (replay_lookup s k). injection H as _ <-. apply appended_refl.
Qed.

(** The accounts other than [x] are as they were. *)
Definition others_kept (s : db) (x : uuid) (s' : db) : Prop :=
  forall y, y <> x -> find_account y (accounts s') = find_account y (accounts s).

Lemma others_kept_refl s x : others_kept s x s.
Proof. intros y _. reflexivity. Qed.

Lemma commit_others s x amt ty ev key cb nb r s' :
  update_balance_commit s x amt ty ev key cb nb = Ok (r, s') -> others_kept s x s'.
Proof.
  unfold update_balance_commit. intros H.
  apply bind_ok in H as [[accs n] [Hu H]]. cbv beta iota zeta in H.
  assert (Ho : others_kept s x (mkDb accs (transactions s)))
    by (intros y Hy; simpl; eapply update_accounts_others; eauto).
  destruct (n =? 0).
  - now injection H as _ <-.
  - apply bind_ok in H as [ev1 [_ H]]. apply bind_ok in H as [s2 [Hs2 H]].
    injection H as _ <-. apply insert_txn_ok in Hs2 as [-> _]. exact Ho.
Qed.

Lemma apply_others s x amt ty ev key r s' :
  update_balance_apply s x amt ty ev key = Ok (r, s') -> others_kept s x s'.
Proof.
  unfold update_balance_apply. intros H.
  repeat match type of H with
         | (if ?c then _ else _) = _ => destruct c
         | bind _ _ = Ok _ => apply bind_ok in H as [? [? H]]
         end;
    try (injection H as _ <-; apply others_kept_refl);
    try solve [eapply commit_others; eauto].
  match goal with
  | Hi : insert_txn _ _ = Ok _ |- _ =>
      injection H as _ <-; apply insert_txn_ok in Hi as [-> _]
  end.
  intros y _; reflexivity.
Qed.

Lemma body_others s x amt ty ev key r s' :
  update_balance_body s x amt ty ev key = Ok (r, s') -> others_kept s x s'.
Proof.
  unfold update_balance_body. intros H.
  destruct key as [k|]; [|eapply apply_others; eauto].
  destruct (has_completed_key s k); [|eapply apply_others; eauto].
  destruct (replay_lookup s k). injection H as _ <-. apply others_kept_refl.
Qed.

Lemma txn_check_applied x ty amt bb nb v key :
  0 < amt ->
  (ty = Some "deposit" /\ nb = bb + amt \/ ty = Some "withdraw" /\ nb = bb - amt) ->
  txn_check (mkTxn x ty amt (Some bb) (Some nb) (Some v) Completed None key) = Ok tt.
Proof.
  intros Ha Hty. unfold txn_check. cbn [tx_type tx_balance_before tx_balance_after
    tx_version_at tx_amount tx_status].
  replace (0 <? amt) with true by (symmetry; apply Z.ltb_lt; lia).
  destruct Hty as [[-> ->] | [-> ->]]; cbn -[Z.add Z.sub]; rewrite Z.eqb_refl; reflexivity.
Qed.

Lemma commit_applies s x amt ty ev key cb nb a :
  find_account x (accounts s) = Some a -> acc_version a = ev ->
  0 <= nb -> - 2 ^ 31 <= ev + 1 <= 2 ^ 31 - 1 -> Z.abs amt < 10 ^ 15 ->
  txn_check (mkTxn x ty amt cb (Some nb) (Some (ev + 1)) Completed None key) = Ok tt ->
  key_unused s key ->
  exists accs,
    update_balance_commit s x amt ty ev key cb (Some nb)
      = Ok (mkRow true (Some nb) (Some (ev + 1)) None None,
            mkDb accs (transactions s ++
                       [mkTxn x ty amt cb (Some nb) (Some (ev + 1)) Completed None key])) /\
    find_account x accs = Some (mkAccount x (acc_user_id a) nb (ev + 1)) /\
    (forall y, y <> x -> find_account y accs = find_account y (accounts s)).
Proof.
  intros Hf Hv Hnb Hev Ham Hchk Hk. unfold update_balance_commit.
  destruct (update_accounts_ok x ev nb (accounts s)) as [l' [n Hu]]; auto.
  destruct (update_accounts_hit _ _ _ _ _ _ _ Hf Hv Hu) as [b [Eb [_ [Hn Hf']]]].
  injection Eb as <-.
  exists l'. rewrite Hu. cbv beta iota zeta delta [bind].
  replace (n =? 0) with false by (symmetry; apply Z.eqb_neq; auto).
  unfold int4.
  replace ((- 2 ^ 31 <=? ev + 1) && (ev + 1 <=? 2 ^ 31 - 1)) with true
    by (symmetry; apply andb_true_iff; split; apply Z.leb_le; lia).
  unfold insert_txn. cbn [tx_amount]. rewrite (numeric_ok amt Ham). cbn [bind].
  rewrite Hchk.
  cbn [tx_idempotency_key transactions accounts tx_account_id].
  destruct key as [k|]; simpl in Hk; [rewrite Hk|]; rewrite Hf';
    (split; [reflexivity | split; [reflexivity |]]);
    intros y Hy; eapply update_accounts_others; eauto.
Qed.

Lemma update_accounts_saturated x nb l :
  update_accounts x (2 ^ 31 - 1) nb l =
  if existsb (fun a => (acc_id a =? x) && (acc_version a =? 2 ^ 31 - 1)) l
  then Raise IntegerOutOfRange else Ok (l, 0).
Proof.
  induction l as [|a l IH]; [reflexivity|].
  cbn [update_accounts]. rewrite IH. cbn [existsb].
  destruct (existsb _ l); [rewrite orb_true_r; reflexivity|].
  rewrite orb_false_r. cbn [bind].
  destruct ((acc_id a =? x) && (acc_version a =? 2 ^ 31 - 1)) eqn:E; [|reflexivity].
  apply andb_true_iff in E as [_ E]. apply Z.eqb_eq in E.
  unfold update_row. rewrite E. reflexivity.
Qed.

(** The conditional write succeeds and the audit entry is refused by a
    constraint: the whole call raises. *)
Lemma commit_insert_fails s x amt ty ev key cb nb a e :
  find_account x (accounts s) = Some a -> acc_version a = ev ->
  0 <= nb -> - 2 ^ 31 <= ev + 1 <= 2 ^ 31 - 1 -> Z.abs amt < 10 ^ 15 ->
  txn_check (mkTxn x ty amt cb (Some nb) (Some (ev + 1)) Completed None key) = Raise e ->
  update_balance_commit s x amt ty ev key cb (Some nb) = Raise e.
Proof.
  intros Hf Hv Hnb Hev Ham Hchk. unfold update_balance_commit.
  destruct (update_accounts_ok x ev nb (accounts s)) as [l' [n Hu]]; auto.
  destruct (update_accounts_found _ _ _ _ _ _ _ Hf Hv Hu) as [Hn _].
  rewrite Hu. cbv beta iota zeta delta [bind].
  replace (n =? 0) with false by (symmetry; apply Z.eqb_neq; auto).
  unfold int4.
  replace ((- 2 ^ 31 <=? ev + 1) && (ev + 1 <=? 2 ^ 31 - 1)) with true
    by (symmetry; apply andb_true_iff; split; apply Z.leb_le; lia).
  unfold insert_txn. cbn [tx_amount]. rewrite (numeric_ok amt Ham). cbn [bind].
  rewrite Hchk. reflexivity.
Qed.

Lemma has_completed_key_appended s accs t k :
  tx_idempotency_key t = Some k -> tx_status t = Completed ->
  has_completed_key (mkDb accs (transactions s ++ [t])) k = true.
Proof.
  intros Hk Hs. unfold has_completed_key. simpl.
  rewrite existsb_app. apply orb_true_iff. right. simpl.
  rewrite Hk, Hs. simpl. rewrite Z.eqb_refl. reflexivity.
Qed.

(** What a successful call that is not a replay did (helper form). *)
Definition success_shape (s : db) (uid : option uuid) (x amt : Z) (ty : option string)
    (ev : Z) (key : option uuid) (r : rpc_row) (s' : db) : Prop :=
  exists a nb accs,
    find_account x (accounts s) = Some a /\
    passes_owner_check (acc_user_id a) uid /\ acc_version a = ev /\
    ((ty = Some "deposit" /\ nb = acc_balance a + amt) \/
     (ty = Some "withdraw" /\ nb = acc_balance a - amt)) /\
    0 <= nb < 10 ^ 15 /\ - 2 ^ 31 <= ev + 1 <= 2 ^ 31 - 1 /\ key_unused s key /\
    r = mkRow true (Some nb) (Some (ev + 1)) None None /\
    s' = mkDb accs (transactions s ++
           [mkTxn x ty amt (Some (acc_balance a)) (Some nb) (Some (ev + 1)) Completed None key]) /\
    find_account x accs = Some (mkAccount x (acc_user_id a) nb (ev + 1)) /\
    (forall y, y <> x -> find_account y accs = find_account y (accounts s)).

(** ** Further properties *)

(** Authorization, anonymous callers: when [auth.uid()] is NULL the
    comparison [v_user_id != auth.uid()] is NULL and the check is passed, so
    an anonymous call on an owned account does exactly what the owner's own
    call does. *)
Theorem anonymous_caller_acts_as_owner s x amt ty ev key a :
  find_account x (accounts s) = Some a ->
  update_balance s None x amt ty ev key = update_balance s (acc_user_id a) x amt ty ev key.
Proof.
  intros Hf. unfold update_balance.
  destruct (coerce_args ev); cbn [bind]; [|reflexivity].
  rewrite Hf. cbv beta iota zeta.
  destruct (acc_user_id a) as [u|]; [|reflexivity].
  cbn [sql_if sql_not sql_and sql_is_not_null sql_neZ sql_cmpZ option_map negb].
  rewrite Z.eqb_refl. reflexivity.
Qed.

Lemma anonymous_caller_acts_as_owner_witness :
  update_balance two_owners_db None 1 1000 (Some "withdraw") 4 None
  = update_balance two_owners_db (Some 7) 1 1000 (Some "withdraw") 4 None.
Proof.
  apply (anonymous_caller_acts_as_owner two_owners_db 1 1000 (Some "withdraw") 4 None
           (mkAccount 1 (Some 7) 5000 4)).
  reflexivity.
Defined.

(** Authorization, other users: a signed-in caller who is not the owner of
    an owned account gets the UNAUTHORIZED row and the database is left as
    it was. *)
Theorem other_user_rejected s x amt ty ev key a u v :
  find_account x (accounts s) = Some a -> acc_user_id a = Some u -> v <> u ->
  - 2 ^ 31 <= ev <= 2 ^ 31 - 1 ->
  update_balance s (Some v) x amt ty ev key
  = Ok (row_fail UNAUTHORIZED None None
          (MsgText "Not authorized to modify this account"), s).
Proof.
  intros Hf Hu Hvu Hev. unfold update_balance.
  rewrite (coerce_args_ok ev Hev). cbn [bind]. rewrite Hf.
  cbv beta iota zeta. rewrite Hu.
  cbn [sql_if sql_not sql_and sql_is_not_null sql_neZ sql_cmpZ option_map negb].
  replace (u =? v) with false by (symmetry; apply Z.eqb_neq; congruence).
  reflexivity.
Qed.

Lemma other_user_rejected_witness :
  update_balance two_owners_db (Some 8) 1 1000 (Some "deposit") 4 None
  = Ok (row_fail UNAUTHORIZED None None
          (MsgText "Not authorized to modify this account"), two_owners_db).
Proof.
  apply (other_user_rejected two_owners_db 1 1000 (Some "deposit") 4 None
           (mkAccount 1 (Some 7) 5000 4) 7 8); try reflexivity; try (cbn; lia).
Defined.

(** Authorization, demo accounts: on an account whose [user_id] is NULL
    every caller, signed in or anonymous, gets the same outcome. *)
Theorem unowned_account_open_to_all s uid uid' x amt ty ev key a :
  find_account x (accounts s) = Some a -> acc_user_id a = None ->
  update_balance s uid x amt ty ev key = update_balance s uid' x amt ty ev key.
Proof.
  intros Hf Hu. unfold update_balance.
  destruct (coerce_args ev); cbn [bind]; [|reflexivity].
  rewrite Hf. cbv beta iota zeta. rewrite Hu. reflexivity.
Qed.

Lemma unowned_account_open_to_all_witness :
  update_balance demo_db (Some 7) 1 1000 (Some "deposit") 1 (Some 5)
  = update_balance demo_db None 1 1000 (Some "deposit") 1 (Some 5).
Proof.
  apply (unowned_account_open_to_all demo_db (Some 7) None 1 1000 (Some "deposit") 1 (Some 5)
           (mkAccount 1 None 5000 1)); reflexivity.
Defined.

Lemma request_commits s uid x amt ty ev key a nb :
  find_account x (accounts s) = Some a ->
  passes_owner_check (acc_user_id a) uid ->
  acc_version a = ev ->
  0 < amt < 10 ^ 15 -> - 2 ^ 31 <= ev < 2 ^ 31 - 1 ->
  key_unused s key ->
  (ty = Some "deposit" /\ nb = acc_balance a + amt \/
   ty = Some "withdraw" /\ nb = acc_balance a - amt) ->
  0 <= nb < 10 ^ 15 ->
  exists accs,
    update_balance s uid x amt ty ev key
      = Ok (mkRow true (Some nb) (Some (ev + 1)) None None,
            mkDb accs (transactions s ++
               [mkTxn x ty amt (Some (acc_balance a)) (Some nb) (Some (ev + 1))
                  Completed None key])) /\
    find_account x accs = Some (mkAccount x (acc_user_id a) nb (ev + 1)) /\
    (forall y, y <> x -> find_account y accs = find_account y (accounts s)).
Proof.
  intros Hf Hu Hv Ha Hev Hk Hty Hnb.
  rewrite (reach_apply s uid x amt ty ev key a Hf Hu ltac:(lia)
             (key_unused_not_replayed _ _ Hk)).
  assert (Hty' : ty = Some "deposit" \/ ty = Some "withdraw")
    by (destruct Hty as [[-> _] | [-> _]]; auto).
  rewrite (update_balance_apply_candidate s x amt ty ev key a Hf Hv Hty').
  destruct (commit_applies s x amt ty ev key (Some (acc_balance a)) nb a Hf Hv
              ltac:(lia) ltac:(lia) ltac:(lia)
              (txn_check_applied x ty amt (acc_balance a) nb (ev + 1) key ltac:(lia) Hty) Hk)
    as [accs [Hc Hrest]].
  exists accs. split; [|exact Hrest].
  destruct Hty as [[-> ->] | [-> ->]]; simpl String.eqb; cbv iota; unfold numeric_15_2.
  - replace (Z.abs (acc_balance a + amt) <? 10 ^ 15) with true
      by (symmetry; apply Z.ltb_lt; rewrite Z.abs_eq; lia).
    exact Hc.
  - replace (Z.abs (acc_balance a - amt) <? 10 ^ 15) with true
      by (symmetry; apply Z.ltb_lt; rewrite Z.abs_eq; lia).
    cbv beta iota delta [bind]. simpl sql_ltZ.
    replace (acc_balance a - amt <? 0) with false by (symmetry; apply Z.ltb_ge; lia).
    exact Hc.
Qed.

(** A valid request is applied: for an existing account the caller may
    modify, the current version, an amount in range, a key no audit entry
    bears and a resulting balance in [0, 10^13) (in cents), the call returns
    the new balance and the version plus one, stores them in the account,
    appends one completed audit entry and leaves every other account as it
    was. *)
Theorem valid_request_commits s uid x amt ty ev key a nb :
  find_account x (accounts s) = Some a ->
  passes_owner_check (acc_user_id a) uid ->
  acc_version a = ev ->
  0 < amt < 10 ^ 15 -> - 2 ^ 31 <= ev < 2 ^ 31 - 1 ->
  key_unused s key ->
  (ty = Some "deposit" /\ nb = acc_balance a + amt \/
   ty = Some "withdraw" /\ nb = acc_balance a - amt) ->
  0 <= nb < 10 ^ 15 ->
  exists accs,
    update_balance s uid x amt ty ev key
      = Ok (mkRow true (Some nb) (Some (ev + 1)) None None,
            mkDb accs (transactions s ++
               [mkTxn x ty amt (Some (acc_balance a)) (Some nb) (Some (ev + 1))
                  Completed None key])) /\
    find_account x accs = Some (mkAccount x (acc_user_id a) nb (ev + 1)) /\
    (forall y, y <> x -> find_account y accs = find_account y (accounts s)).
Proof. exact (request_commits s uid x amt ty ev key a nb). Qed.

Lemma valid_request_commits_witness :
  exists accs,
    update_balance demo_db None 1 1000 (Some "withdraw") 1 (Some 5)
      = Ok (mkRow true (Some 4000) (Some 2) None None,
            mkDb accs (transactions demo_db ++
               [mkTxn 1 (Some "withdraw") 1000 (Some 5000) (Some 4000) (Some 2)
                  Completed None (Some 5)])) /\
    find_account 1 accs = Some (mkAccount 1 None 4000 2) /\
    (forall y, y <> 1 -> find_account y accs = find_account y (accounts demo_db)).
Proof.
  apply (valid_request_commits demo_db None 1 1000 (Some "withdraw") 1 (Some 5)
           (mkAccount 1 None 5000 1) 4000); try reflexivity; try (cbn; lia).
  - left. reflexivity.
  - right. split; reflexivity.
Defined.

(** Every successful call that is not a replay (its row carries no
    message) applied the request as asked: it found the account, the caller
    passed the ownership check, the expected version was the current one,
    the type was deposit or withdraw, the new balance is the old one plus or
    minus the amount and lies in [0, 10^13) (in cents), no audit entry bore
    the key, one completed entry was appended and only the account [x]
    changed. *)
Theorem successful_call_applied_request s uid x amt ty ev key r s' :
  update_balance s uid x amt ty ev key = Ok (r, s') ->
  success r = true -> error_message r = None ->
  success_shape s uid x amt ty ev key r s'.
Proof. exact (update_balance_success s uid x amt ty ev key r s'). Qed.

Lemma successful_call_applied_request_witness :
  success_shape demo_db None 1 1000 (Some "deposit") 1 (Some 5)
    (mkRow true (Some 6000) (Some 2) None None)
    (mkDb [mkAccount 1 None 6000 2]
       [mkTxn 1 (Some "deposit") 1000 (Some 5000) (Some 6000) (Some 2) Completed None (Some 5)]).
Proof.
  apply (successful_call_applied_request demo_db None 1 1000 (Some "deposit") 1 (Some 5));
    vm_compute; reflexivity.
Defined.

(** The audit log is append-only and a call touches one account: whatever
    a committed call returns, the entries already there are kept, at most
    one entry is appended, for the requested account and bearing the call's
    key, and every other account is unchanged. *)
Theorem call_appends_at_most_one_entry s uid x amt ty ev key r s' :
  update_balance s uid x amt ty ev key = Ok (r, s') ->
  appended s x key s' /\ others_kept s x s'.
Proof.
  unfold update_balance. intros H. apply bind_ok in H as [_ [_ H]].
  destruct (find_account x (accounts s)); cbv beta iota zeta in H;
    repeat match type of H with
           | (if ?c then _ else _) = _ => destruct c
           end;
    try (injection H as _ <-; split; [apply appended_refl | apply others_kept_refl]);
    split; eauto using body_appended, body_others.
Qed.

Lemma call_appends_at_most_one_entry_witness :
  appended replay_db 1 (Some 13)
    (mkDb [mkAccount 1 None 3000 4]
       (transactions replay_db ++
          [mkTxn 1 (Some "deposit") 1000 (Some 2000) (Some 3000) (Some 4) Completed None (Some 13)]))
  /\ others_kept replay_db 1
    (mkDb [mkAccount 1 None 3000 4]
       (transactions replay_db ++
          [mkTxn 1 (Some "deposit") 1000 (Some 2000) (Some 3000) (Some 4) Completed None (Some 13)])).
Proof.
  apply (call_appends_at_most_one_entry replay_db None 1 1000 (Some "deposit") 3 (Some 13)
           (mkRow true (Some 3000) (Some 4) None None)).
  vm_compute. reflexivity.
Defined.

Lemma replay_after_success s uid x amt ty ev k r s' amt' ty' ev' :
  update_balance s uid x amt ty ev (Some k) = Ok (r, s') ->
  success r = true -> error_message r = None ->
  0 < amt' < 10 ^ 15 -> - 2 ^ 31 <= ev' <= 2 ^ 31 - 1 ->
  update_balance s' uid x amt' ty' ev' (Some k)
  = Ok (mkRow true (new_balance r) (new_version r) None (Some msg_idempotent), s').
Proof.
  intros H Hs Hm Ha Hev.
  destruct (update_balance_success _ _ _ _ _ _ _ _ _ H Hs Hm)
    as [a [nb [accs [Hf [Hu [Hv [Hty [Hnb [Hev1 [Hk [-> [-> [Hf' _]]]]]]]]]]]]].
  rewrite (update_balance_passes (mkDb accs _) uid x amt' ty' ev' (Some k)
             (mkAccount x (acc_user_id a) nb (ev + 1)) Hf' Hu Hev).
  unfold update_balance_body.
  rewrite has_completed_key_appended by reflexivity.
  unfold replay_lookup. cbn [transactions accounts].
  rewrite find_app_none by (apply existsb_find_none; exact Hk).
  cbn [find tx_idempotency_key key_eqb]. rewrite Z.eqb_refl.
  cbn [tx_account_id tx_balance_after]. rewrite Hf'. reflexivity.
Qed.

(** Retrying after a success: once a call with key [k] has succeeded (not
    as a replay), the same caller sending key [k] again for the same account,
    with any amount, type and expected version in range, gets the success
    row with the same new balance and version, marked as a replay, and the
    database does not change. *)
Theorem retry_after_success_replays s uid x amt ty ev k r s' amt' ty' ev' :
  update_balance s uid x amt ty ev (Some k) = Ok (r, s') ->
  success r = true -> error_message r = None ->
  0 < amt' < 10 ^ 15 -> - 2 ^ 31 <= ev' <= 2 ^ 31 - 1 ->
  update_balance s' uid x amt' ty' ev' (Some k)
  = Ok (mkRow true (new_balance r) (new_version r) None (Some msg_idempotent), s').
Proof. exact (replay_after_success s uid x amt ty ev k r s' amt' ty' ev'). Qed.

Lemma retry_after_success_replays_witness :
  update_balance (mkDb [mkAccount 1 None 6000 2]
                   [mkTxn 1 (Some "deposit") 1000 (Some 5000) (Some 6000) (Some 2)
                      Completed None (Some 5)])
    None 1 2500 (Some "withdraw") 1 (Some 5)
  = Ok (mkRow true (Some 6000) (Some 2) None (Some msg_idempotent),
        mkDb [mkAccount 1 None 6000 2]
          [mkTxn 1 (Some "deposit") 1000 (Some 5000) (Some 6000) (Some 2)
             Completed None (Some 5)]).
Proof.
  apply (retry_after_success_replays demo_db None 1 1000 (Some "deposit") 1 5
           (mkRow true (Some 6000) (Some 2) None None)); try reflexivity; try (cbn; lia).
Defined.

(** A stale expected version is refused before anything is written: when
    the call is not a replay, the caller may modify the account and the
    expected version is not the current one, the row is VERSION_CONFLICT
    with the current balance and version, and the database is unchanged. *)
Theorem stale_version_rejected s uid x amt ty ev key a :
  find_account x (accounts s) = Some a ->
  passes_owner_check (acc_user_id a) uid -> acc_version a <> ev ->
  - 2 ^ 31 <= ev <= 2 ^ 31 - 1 -> not_replayed s key ->
  update_balance s uid x amt ty ev key
  = Ok (row_fail VERSION_CONFLICT (Some (acc_balance a)) (Some (acc_version a))
          (MsgVersionMismatch (Some ev) (Some (acc_version a))), s).
Proof.
  intros Hf Hu Hv Hev Hr.
  rewrite (reach_apply s uid x amt ty ev key a Hf Hu Hev Hr).
  unfold update_balance_apply. rewrite Hf. cbn [option_map sql_neZ sql_cmpZ].
  replace (acc_version a =? ev) with false by (symmetry; apply Z.eqb_neq; auto).
  reflexivity.
Qed.

Lemma stale_version_rejected_witness :
  update_balance replay_db None 1 1000 (Some "deposit") 2 (Some 13)
  = Ok (row_fail VERSION_CONFLICT (Some 2000) (Some 3)
          (MsgVersionMismatch (Some 2) (Some 3)), replay_db).
Proof.
  apply (stale_version_rejected replay_db None 1 1000 (Some "deposit") 2 (Some 13)
           (mkAccount 1 None 2000 3)); try reflexivity; try (cbn; lia).
  left. reflexivity.
Defined.

(** An unknown type is refused before anything is written: with the
    current version and no replay, a type other than deposit and withdraw
    gives the INVALID_TYPE row and the database is unchanged. *)
Theorem unknown_type_rejected s uid x amt t ev key a :
  find_account x (accounts s) = Some a ->
  passes_owner_check (acc_user_id a) uid -> acc_version a = ev ->
  - 2 ^ 31 <= ev <= 2 ^ 31 - 1 -> not_replayed s key ->
  t <> "deposit" -> t <> "withdraw" ->
  update_balance s uid x amt (Some t) ev key
  = Ok (row_fail INVALID_TYPE None None (MsgText "Type must be deposit or withdraw"), s).
Proof.
  intros Hf Hu Hv Hev Hr Hd Hw.
  rewrite (reach_apply s uid x amt (Some t) ev key a Hf Hu Hev Hr).
  unfold update_balance_apply. rewrite Hf. cbn [option_map sql_neZ sql_cmpZ].
  rewrite Hv, Z.eqb_refl.
  cbn [negb sql_if sql_not sql_in_str option_map existsb].
  replace (String.eqb t "deposit") with false by (symmetry; apply String.eqb_neq; auto).
  replace (String.eqb t "withdraw") with false by (symmetry; apply String.eqb_neq; auto).
  reflexivity.
Qed.

Lemma unknown_type_rejected_witness :
  update_balance demo_db None 1 1000 (Some "transfer") 1 None
  = Ok (row_fail INVALID_TYPE None None (MsgText "Type must be deposit or withdraw"), demo_db).
Proof.
  apply (unknown_type_rejected demo_db None 1 1000 "transfer" 1 None
           (mkAccount 1 None 5000 1)); try reflexivity; try (cbn; lia); try discriminate.
  left. reflexivity.
Defined.

(** A NULL type is not caught by the type check (the NOT IN test is NULL):
    it takes the withdrawal branch and the call raises a NOT NULL violation
    on the audit entry's [type], so nothing is written. *)
Theorem null_type_raises s uid x amt ev key a :
  find_account x (accounts s) = Some a ->
  passes_owner_check (acc_user_id a) uid -> acc_version a = ev ->
  0 < amt < 10 ^ 15 -> - 2 ^ 31 <= ev < 2 ^ 31 - 1 -> not_replayed s key ->
  0 <= acc_balance a < 10 ^ 15 ->
  update_balance s uid x amt None ev key = Raise (NotNullViolation "type").
Proof.
  intros Hf Hu Hv Ha Hev Hr Hb.
  rewrite (reach_apply s uid x amt None ev key a Hf Hu ltac:(lia) Hr).
  unfold update_balance_apply. rewrite Hf. cbn [option_map sql_neZ sql_cmpZ].
  rewrite Hv, Z.eqb_refl.
  cbn [negb sql_if sql_not sql_in_str sql_eq_str option_map sql_subZ].
  unfold numeric_15_2.
  replace (Z.abs (acc_balance a - amt) <? 10 ^ 15) with true
    by (symmetry; apply Z.ltb_lt; apply Z.abs_lt; lia).
  cbv beta iota delta [bind]. cbn [sql_ltZ sql_cmpZ sql_if].
  destruct (acc_balance a - amt <? 0) eqn:Hn.
  { unfold insert_txn. cbn [tx_amount]. rewrite (numeric_ok amt ltac:(lia)). reflexivity. }
  apply Z.ltb_ge in Hn.
  apply (commit_insert_fails s x amt None ev key _ _ a); auto; lia.
Qed.

Lemma null_type_raises_witness :
  update_balance demo_db None 1 1000 None 1 (Some 5) = Raise (NotNullViolation "type").
Proof.
  apply (null_type_raises demo_db None 1 1000 1 (Some 5) (mkAccount 1 None 5000 1));
    try reflexivity; try (cbn; lia).
  left. reflexivity.
Defined.

(** Overflow of a deposit: when the balance plus the amount reaches
    10^13 (10^15 cents), the DECIMAL(15,2) assignment raises and nothing is
    written. *)
Theorem deposit_overflow_raises s uid x amt ev key a :
  find_account x (accounts s) = Some a ->
  passes_owner_check (acc_user_id a) uid -> acc_version a = ev ->
  0 < amt < 10 ^ 15 -> - 2 ^ 31 <= ev <= 2 ^ 31 - 1 -> not_replayed s key ->
  10 ^ 15 <= acc_balance a + amt ->
  update_balance s uid x amt (Some "deposit") ev key = Raise NumericFieldOverflow.
Proof.
  intros Hf Hu Hv Ha Hev Hr Ho.
  rewrite (reach_apply s uid x amt (Some "deposit") ev key a Hf Hu Hev Hr).
  rewrite (update_balance_apply_candidate s x amt (Some "deposit") ev key a Hf Hv
             (or_introl eq_refl)).
  simpl String.eqb. cbv iota. unfold numeric_15_2.
  replace (Z.abs (acc_balance a + amt) <? 10 ^ 15) with false
    by (symmetry; apply Z.ltb_ge; rewrite Z.abs_eq; lia).
  reflexivity.
Qed.

Lemma deposit_overflow_raises_witness :
  update_balance demo_db None 1 (10 ^ 15 - 1) (Some "deposit") 1 None
  = Raise NumericFieldOverflow.
Proof.
  apply (deposit_overflow_raises demo_db None 1 (10 ^ 15 - 1) 1 None (mkAccount 1 None 5000 1));
    try reflexivity; try (cbn; lia); try exact I.
  left. reflexivity.
Defined.

(** A saturated version counter freezes the account: when the current
    version is 2^31 - 1, the INTEGER [version + 1] of the update overflows,
    so every deposit or withdrawal that would be applied raises instead. *)
Theorem saturated_version_raises s uid x amt ty key a nb :
  find_account x (accounts s) = Some a ->
  passes_owner_check (acc_user_id a) uid -> acc_version a = 2 ^ 31 - 1 ->
  0 < amt < 10 ^ 15 -> not_replayed s key ->
  (ty = Some "deposit" /\ nb = acc_balance a + amt \/
   ty = Some "withdraw" /\ nb = acc_balance a - amt) ->
  0 <= nb < 10 ^ 15 ->
  update_balance s uid x amt ty (2 ^ 31 - 1) key = Raise IntegerOutOfRange.
Proof.
  intros Hf Hu Hv Ha Hr Hty Hnb.
  rewrite (reach_apply s uid x amt ty (2 ^ 31 - 1) key a Hf Hu ltac:(lia) Hr).
  assert (Hty' : ty = Some "deposit" \/ ty = Some "withdraw")
    by (destruct Hty as [[-> _] | [-> _]]; auto).
  rewrite (update_balance_apply_candidate s x amt ty _ key a Hf Hv Hty').
  assert (Hc : forall cb, update_balance_commit s x amt ty (2 ^ 31 - 1) key cb (Some nb)
                          = Raise IntegerOutOfRange).
  { intros cb. unfold update_balance_commit. rewrite update_accounts_saturated.
    replace (existsb _ (accounts s)) with true; [reflexivity|].
    symmetry. apply existsb_exists. exists a. split.
    - unfold find_account in Hf. apply find_some in Hf as [Hin _]. exact Hin.
    - rewrite (find_account_some _ _ _ Hf), Hv, !Z.eqb_refl. reflexivity. }
  destruct Hty as [[-> ->] | [-> ->]]; simpl String.eqb; cbv iota; unfold numeric_15_2.
  - replace (Z.abs (acc_balance a + amt) <? 10 ^ 15) with true
      by (symmetry; apply Z.ltb_lt; rewrite Z.abs_eq; lia).
    apply Hc.
  - replace (Z.abs (acc_balance a - amt) <? 10 ^ 15) with true
      by (symmetry; apply Z.ltb_lt; rewrite Z.abs_eq; lia).
    cbv beta iota delta [bind]. simpl sql_ltZ.
    replace (acc_balance a - amt <? 0) with false by (symmetry; apply Z.ltb_ge; lia).
    apply Hc.
Qed.

Lemma saturated_version_raises_witness :
  update_balance (mkDb [mkAccount 1 None 5000 (2 ^ 31 - 1)] []) None 1 1000
    (Some "deposit") (2 ^ 31 - 1) (Some 5) = Raise IntegerOutOfRange.
Proof.
  apply (saturated_version_raises (mkDb [mkAccount 1 None 5000 (2 ^ 31 - 1)] []) None 1 1000
           (Some "deposit") (Some 5) (mkAccount 1 None 5000 (2 ^ 31 - 1)) 6000);
    try reflexivity; try (cbn; lia).
  - left. reflexivity.
  - left. split; reflexivity.
Defined.

(** Insufficient funds with a fresh key: a withdrawal of more than the
    balance returns INSUFFICIENT_FUNDS with the current balance and version,
    leaves the accounts unchanged and appends one failed audit entry that
    records the attempt and bears the key. *)
Theorem insufficient_withdrawal_records_failure s uid x amt ev key a :
  find_account x (accounts s) = Some a ->
  passes_owner_check (acc_user_id a) uid -> acc_version a = ev ->
  0 <= acc_balance a < amt -> amt < 10 ^ 15 -> - 2 ^ 31 <= ev <= 2 ^ 31 - 1 ->
  key_unused s key ->
  update_balance s uid x amt (Some "withdraw") ev key
  = Ok (row_fail INSUFFICIENT_FUNDS (Some (acc_balance a)) (Some ev)
          (MsgCannotWithdraw (Some amt) (Some (acc_balance a))),
        mkDb (accounts s)
          (transactions s ++
             [mkTxn x (Some "withdraw") amt (Some (acc_balance a)) (Some (acc_balance a))
                (Some ev) Failed (Some (MsgText "Insufficient funds")) key])).
Proof.
  intros Hf Hu Hv Hb Ha Hev Hk.
  exact (Propagation.insufficient_withdraw_row s uid x amt ev key a Hf Hu Hv Hb Ha Hev Hk).
Qed.

Lemma insufficient_withdrawal_records_failure_witness :
  update_balance fresh_db (Some 7) 1 1000 (Some "withdraw") 1 (Some 21)
  = Ok (row_fail INSUFFICIENT_FUNDS (Some 0) (Some 1)
          (MsgCannotWithdraw (Some 1000) (Some 0)), poisoned_db).
Proof.
  apply (insufficient_withdrawal_records_failure fresh_db (Some 7) 1 1000 1 (Some 21)
           (mkAccount 1 None 0 1)); try reflexivity; try (cbn; lia).
  left. reflexivity.
Defined.

(** A zero or negative amount is never applied: the arguments pass the
    coercion (DECIMAL(15,2) takes negatives), the account row is written,
    and the audit entry then violates CHECK (amount > 0), so the call raises
    and is rolled back. *)
Theorem non_positive_amount_raises s uid x amt ty ev key a nb :
  find_account x (accounts s) = Some a ->
  passes_owner_check (acc_user_id a) uid -> acc_version a = ev ->
  - 10 ^ 15 < amt <= 0 -> - 2 ^ 31 <= ev < 2 ^ 31 - 1 -> not_replayed s key ->
  (ty = Some "deposit" /\ nb = acc_balance a + amt \/
   ty = Some "withdraw" /\ nb = acc_balance a - amt) ->
  0 <= nb < 10 ^ 15 ->
  update_balance s uid x amt ty ev key = Raise (CheckViolation "transactions_amount_check").
Proof.
  intros Hf Hu Hv Ha Hev Hr Hty Hnb.
  assert (Hc : update_balance_body s x amt ty ev key
               = update_balance_apply s x amt ty ev key) by (apply body_not_replayed; auto).
  unfold update_balance.
  replace (coerce_args ev) with (Ok tt : result unit).
  2:{ unfold coerce_args, int4.
      replace ((- 2 ^ 31 <=? ev) && (ev <=? 2 ^ 31 - 1)) with true
        by (symmetry; apply andb_true_iff; split; apply Z.leb_le; lia).
      reflexivity. }
  cbn [bind]. rewrite Hf. cbv beta iota zeta. cbn [sql_if sql_not option_map negb].
  replace (sql_if (sql_and (sql_is_not_null (acc_user_id a)) (sql_neZ (acc_user_id a) uid)))
    with false.
  2:{ destruct Hu as [-> | [-> | <-]]; [reflexivity | |].
      - destruct (acc_user_id a); reflexivity.
      - destruct (acc_user_id a); [|reflexivity]. simpl. rewrite Z.eqb_refl. reflexivity. }
  rewrite Hc.
  assert (Hty' : ty = Some "deposit" \/ ty = Some "withdraw")
    by (destruct Hty as [[-> _] | [-> _]]; auto).
  rewrite (update_balance_apply_candidate s x amt ty ev key a Hf Hv Hty').
  assert (Hi : update_balance_commit s x amt ty ev key (Some (acc_balance a)) (Some nb)
               = Raise (CheckViolation "transactions_amount_check")).
  { apply (commit_insert_fails s x amt ty ev key _ nb a); auto; try lia.
    unfold txn_check. cbn [tx_type tx_balance_before tx_balance_after tx_version_at
                           tx_amount tx_status].
    replace (0 <? amt) with false by (symmetry; apply Z.ltb_ge; lia).
    destruct Hty as [[-> _] | [-> _]]; reflexivity. }
  destruct Hty as [[-> ->] | [-> ->]]; simpl String.eqb; cbv iota; unfold numeric_15_2.
  - replace (Z.abs (acc_balance a + amt) <? 10 ^ 15) with true
      by (symmetry; apply Z.ltb_lt; rewrite Z.abs_eq; lia).
    exact Hi.
  - replace (Z.abs (acc_balance a - amt) <? 10 ^ 15) with true
      by (symmetry; apply Z.ltb_lt; rewrite Z.abs_eq; lia).
    cbv beta iota delta [bind]. simpl sql_ltZ.
    replace (acc_balance a - amt <? 0) with false by (symmetry; apply Z.ltb_ge; lia).
    exact Hi.
Qed.

Lemma non_positive_amount_raises_witness :
  update_balance demo_db None 1 (-1000) (Some "withdraw") 1 (Some 5)
  = Raise (CheckViolation "transactions_amount_check").
Proof.
  apply (non_positive_amount_raises demo_db None 1 (-1000) (Some "withdraw") 1 (Some 5)
           (mkAccount 1 None 5000 1) 6000); try reflexivity; try (cbn; lia).
  - left. reflexivity.
  - right. split; reflexivity.
Defined.

End LedgerMore.

(** * Properties of [create_demo_account] *)

Module ProvisioningFacts.
Import Ledger Samples Provisioning LedgerFacts LedgerMore.




















Lemma insert_demo_account_created s fresh b c a s' :
  insert_demo_account s fresh b c = Created a s' ->
  exists v c', b = Some v /\ c = Some c' /\ 0 <= v < 10 ^ 15 /\
    varchar_assign 3 c' <> None /\ find_account fresh (accounts s) = None /\
    a = mkAccount fresh None v 1 /\ s' = mkDb (accounts s ++ [a]) (transactions s).
Proof.
  unfold insert_demo_account, insert_account. intros H.
  destruct b as [v|]; cbn [numeric_15_2] in H.
  - destruct (Z.abs v <? 10 ^ 15) eqn:Ho; [|discriminate].
    destruct c as [c'|]; cbn [option_map] in H; [|discriminate].
    destruct (varchar_assign 3 c') as [c''|] eqn:Hc; [|discriminate].
    destruct (v <? 0) eqn:Hn; [discriminate|].
    destruct (find_account fresh (accounts s)) eqn:Hf; [discriminate|].
    injection H as <- <-. apply Z.ltb_lt in Ho. apply Z.ltb_ge in Hn.
    exists v, c'. repeat split; auto; try lia. congruence.
  - destruct c as [c'|]; cbn [option_map] in H; [destruct (varchar_assign 3 c')|];
      discriminate.
Qed.

(** Every account [create_demo_account] returns is either the first demo
    account already there, with the database unchanged, or, when there was
    none, a new demo account (NULL owner, version 1) holding the requested
    initial balance, which lies in [0, 10^13) (in cents), under the fresh
    id, appended to the accounts; the audit log is never touched. *)
Theorem demo_account_outcome s fresh b c a s' :
  create_demo_account s fresh b c = Created a s' ->
  (first_unowned (accounts s) = Some a /\ s' = s) \/
  (first_unowned (accounts s) = None /\
   exists v, b = Some v /\ 0 <= v < 10 ^ 15 /\ a = mkAccount fresh None v 1 /\
     find_account fresh (accounts s) = None /\
     s' = mkDb (accounts s ++ [a]) (transactions s)).
Proof.
  unfold create_demo_account. intros H.
  destruct (first_unowned (accounts s)) as [a0|] eqn:Hu.
  - injection H as <- <-. now left.
  - right. split; [reflexivity|].
    destruct (insert_demo_account_created _ _ _ _ _ _ H)
      as [v [c' [-> [_ [Hv [_ [Hf [-> ->]]]]]]]].
    exists v. repeat split; auto; lia.
Qed.

Lemma demo_account_outcome_witness :
  (first_unowned (accounts (mkDb [] [])) = Some (mkAccount 9 None 10000 1) /\
   mkDb [mkAccount 9 None 10000 1] [] = mkDb [] []) \/
  (first_unowned (accounts (mkDb [] [])) = None /\
   exists v, Some 10000 = Some v /\ 0 <= v < 10 ^ 15 /\
     mkAccount 9 None 10000 1 = mkAccount 9 None v 1 /\
     find_account 9 (accounts (mkDb [] [])) = None /\
     mkDb [mkAccount 9 None 10000 1] [] = mkDb (accounts (mkDb [] []) ++ [mkAccount 9 None 10000 1])
                                            (transactions (mkDb [] []))).
Proof.
  apply (demo_account_outcome (mkDb [] []) 9 (Some 10000) (Some [69; 85; 82])
           (mkAccount 9 None 10000 1) (mkDb [mkAccount 9 None 10000 1] [])).
  reflexivity.
Defined.



(** When no demo account exists, a negative initial balance is refused by
    CHECK (balance >= 0), and a currency longer than three characters (not
    just trailing spaces) by VARCHAR(3); nothing is created either way. *)
Theorem demo_account_refusals s fresh v c :
  first_unowned (accounts s) = None -> Z.abs v < 10 ^ 15 ->
  (v < 0 -> varchar_assign 3 c <> None ->
   create_demo_account s fresh (Some v) (Some c)
   = CreateRaised (CheckViolation "balance_non_negative")) /\
  (varchar_assign 3 c = None ->
   create_demo_account s fresh (Some v) (Some c) = ValueTooLong "currency").
Proof.
  intros Hu Ho. unfold create_demo_account, insert_demo_account, insert_account. rewrite Hu.
  cbn [numeric_15_2]. replace (Z.abs v <? 10 ^ 15) with true by (symmetry; apply Z.ltb_lt; lia).
  cbn [option_map]. split.
  - intros Hn Hc. destruct (varchar_assign 3 c); [|contradiction].
    replace (v <? 0) with true by (symmetry; apply Z.ltb_lt; lia). reflexivity.
  - intros ->. reflexivity.
Qed.

(** Three euro signs (three characters, nine bytes in UTF-8) fit the
    VARCHAR(3) column; "EURO" does not. *)
Lemma demo_account_refusals_witness :
  (-500 < 0 -> varchar_assign 3 [8364; 8364; 8364] <> None ->
   create_demo_account (mkDb [] []) 9 (Some (-500)) (Some [8364; 8364; 8364])
   = CreateRaised (CheckViolation "balance_non_negative")) /\
  (varchar_assign 3 [69; 85; 82; 79] = None ->
   create_demo_account (mkDb [] []) 9 (Some (-500)) (Some [69; 85; 82; 79])
   = ValueTooLong "currency").
Proof.
  split.
  - apply (demo_account_refusals (mkDb [] []) 9 (-500) [8364; 8364; 8364]); reflexivity.
  - apply (demo_account_refusals (mkDb [] []) 9 (-500) [69; 85; 82; 79]); reflexivity.
Defined.

End ProvisioningFacts.

(** * Properties of the fallback key generator *)

Module KeyGenFacts.
Import KeyGen.

Definition is_hex (c : ascii) : bool :=
  existsb (Ascii.eqb c) (list_ascii_of_string "0123456789abcdef").

Definition is_variant (c : ascii) : bool :=
  existsb (Ascii.eqb c) (list_ascii_of_string "89ab").

(** [fits tpl s]: [s] is [tpl] with every [x] replaced by a lowercase hex
    digit and every [y] by one of 8, 9, a, b. *)
Fixpoint fits (tpl s : string) : bool :=
  match tpl, s with
  | EmptyString, EmptyString => true
  | String c t, String d s' =>
      (if Ascii.eqb c "x"%char then is_hex d
       else if Ascii.eqb c "y"%char then is_variant d
       else Ascii.eqb c d) && fits t s'
  | _, _ => false
  end.

Lemma fits_length tpl s : fits tpl s = true -> String.length s = String.length tpl.
Proof.
  revert s. induction tpl as [|c t IH]; intros s H; destruct s as [|d s]; simpl in *;
    try discriminate; auto.
  apply andb_true_iff in H as [_ H]. f_equal. auto.
Qed.

Lemma js_or0_digit q : (0 <= q < 1)%Q -> 0 <= js_or0 (q * 16)%Q < 16.
Proof.
  intros [H0 H1]. unfold js_or0, js_trunc.
  assert (Hp : (0 <= q * 16)%Q) by lra.
  rewrite (proj2 (Qle_bool_iff 0 (q * 16)) Hp).
  assert (Hl := Qfloor_le (q * 16)). assert (Hu := Qlt_floor (q * 16)).
  rewrite inject_Z_plus in Hu.
  set (f := Qfloor (q * 16)) in *.
  assert (Hf : 0 <= f < 16).
  { split.
    - assert (E : (-1 < f)%Z).
      { rewrite Zlt_Qlt. change (inject_Z (-1)) with (-1 # 1)%Q.
        change (inject_Z 1) with (1 # 1)%Q in Hu. lra. }
      lia.
    - rewrite Zlt_Qlt. change (inject_Z 16) with (16 # 1)%Q. lra. }
  unfold ToInt32. rewrite Z.mod_small by lia.
  replace (f <? 2 ^ 31) with true by (symmetry; apply Z.ltb_lt; lia). exact Hf.
Qed.

Lemma digit_cases r :
  0 <= r < 16 -> In r [0; 1; 2; 3; 4; 5; 6; 7; 8; 9; 10; 11; 12; 13; 14; 15].
Proof. intros H. simpl. lia. Qed.

Lemma hex_char r :
  0 <= r < 16 -> exists d, to_string16 r = String d EmptyString /\ is_hex d = true.
Proof.
  intros H. apply digit_cases in H.
  repeat (destruct H as [<- | H]; [eexists; split; reflexivity|]). contradiction.
Qed.

Lemma variant_char r :
  0 <= r < 16 ->
  exists d, to_string16 (Z.lor (Z.land r 3) 8) = String d EmptyString /\ is_variant d = true.
Proof.
  intros H. apply digit_cases in H.
  repeat (destruct H as [<- | H]; [eexists; split; reflexivity|]). contradiction.
Qed.

Lemma replace_xy_fits random :
  (forall i, (0 <= random i < 1)%Q) ->
  forall tpl i, fits tpl (replace_xy tpl random i) = true.
Proof.
  intros Hr tpl. induction tpl as [|c t IH]; intros i; [reflexivity|].
  cbn [replace_xy].
  destruct (Ascii.eqb c "x"%char) eqn:Ex; cbv beta iota zeta; cbn [orb].
  - destruct (hex_char _ (js_or0_digit _ (Hr i))) as [d [Hd Hh]].
    rewrite Hd. cbn [String.append fits]. rewrite Ex, Hh. apply IH.
  - destruct (Ascii.eqb c "y"%char) eqn:Ey; cbn [orb].
    + destruct (variant_char _ (js_or0_digit _ (Hr i))) as [d [Hd Hh]].
      rewrite Hd. cbn [String.append fits]. rewrite Ex, Ey, Hh. apply IH.
    + cbn [fits]. rewrite Ex, Ey, (proj2 (Ascii.eqb_eq c c) eq_refl). apply IH.
Qed.

(** Without [crypto.randomUUID], and with every [Math.random()] draw in
    [[0, 1)], the key is 36 characters long and has the UUID version 4
    layout: lowercase hex digits, dashes at positions 8, 13, 18 and 23, the
    digit 4 at position 14 and one of 8, 9, a, b at position 19. *)
Theorem fallback_key_is_uuid_v4 random :
  (forall i, (0 <= random i < 1)%Q) ->
  fits uuid_template (generateIdempotencyKey None random) = true /\
  String.length (generateIdempotencyKey None random) = 36%nat.
Proof.
  intros Hr. assert (H := replace_xy_fits random Hr uuid_template 0).
  unfold generateIdempotencyKey. split; [exact H|]. rewrite (fits_length _ _ H).
  reflexivity.
Qed.

Lemma fallback_key_is_uuid_v4_witness :
  fits uuid_template (generateIdempotencyKey None (fun i => (Z.of_nat (i mod 9) # 9)%Q)) = true
  /\ String.length (generateIdempotencyKey None (fun i => (Z.of_nat (i mod 9) # 9)%Q)) = 36%nat.
Proof.
  apply fallback_key_is_uuid_v4. intros i. split.
  - unfold Qle. cbn -[Z.of_nat Nat.modulo]. lia.
  - unfold Qlt. cbn -[Z.of_nat Nat.modulo].
    assert (H := Nat.mod_upper_bound i 9 ltac:(lia)). lia.
Defined.

End KeyGenFacts.

(** * Further properties of the client, alone and against the database *)

Module ClientMore.
Import Ledger Client ClientFacts Wiring LedgerFacts LedgerMore Samples.

Lemma retry_loop_delays cfg params key e : forall fuel n le,
  exists k, snd (retry_loop cfg params key e n le fuel)
            = map (fun i => calculateBackoffDelay i cfg (env_random e i)) (seq n k) /\
            (k <= Z.to_nat (maxRetries cfg) - n)%nat.
Proof.
  induction fuel as [|fuel IH]; intros n le; [exists 0%nat; split; [reflexivity | lia]|].
  cbn [retry_loop].
  destruct (Z.of_nat n <=? maxRetries cfg) eqn:Hn; [|exists 0%nat; split; [reflexivity | lia]].
  apply Z.leb_le in Hn.
  destruct (catch_clause (try_block cfg params key e n)) as [r|err|le'];
    [exists 0%nat; split; [reflexivity | lia] | exists 0%nat; split; [reflexivity | lia] |].
  destruct (IH (S n) (Some le')) as [k [Hk Hle]].
  destruct (retry_loop cfg params key e (S n) (Some le') fuel) as [o ds]. simpl in Hk. subst ds.
  destruct (Z.of_nat n <? maxRetries cfg) eqn:Hlt.
  - apply Z.ltb_lt in Hlt. exists (S k). split; [reflexivity | lia].
  - apply Z.ltb_ge in Hlt. exists 0%nat. split; [|lia].
    replace k with 0%nat by lia. reflexivity.
Qed.

Lemma updateBalance_delays params cfg e g :
  exists k, snd (updateBalance params cfg e g)
            = map (fun i => calculateBackoffDelay i cfg (env_random e i)) (seq 0 k) /\
            (k <= Z.to_nat (maxRetries cfg))%nat.
Proof.
  unfold updateBalance.
  destruct (amount params <=? 0); [exists 0%nat; split; [reflexivity | lia]|].
  destruct (negb _); [exists 0%nat; split; [reflexivity | lia]|].
  destruct (retry_loop_delays cfg params
              (match idempotencyKey params with Some k => k | None => g end) e
              (Z.to_nat (maxRetries cfg + 1)) 0 None) as [k [Hk Hle]].
  exists k. split; [exact Hk | lia].
Qed.

Lemma delay_range n cfg r :
  (0 <= baseDelayMs cfg)%Q -> (0 <= maxDelayMs cfg)%Q -> (0 <= r < 1)%Q ->
  0 <= calculateBackoffDelay n cfg r <= Math_round ((5 # 4) * maxDelayMs cfg).
Proof.
  intros Hb Hm Hr. rewrite calculateBackoffDelay_capped.
  assert (H0 := capped_nonneg n cfg Hb Hm).
  assert (H1 : (capped n cfg <= maxDelayMs cfg)%Q) by apply Q.le_min_r.
  split.
  - change 0 with (Math_round 0). apply Math_round_le. nra.
  - apply Math_round_le. nra.
Qed.

Lemma try_block_env cfg params key e e' n :
  env_fetch e n = env_fetch e' n -> env_rpc e n = env_rpc e' n ->
  try_block cfg params key e n = try_block cfg params key e' n.
Proof. intros H1 H2. unfold try_block. rewrite H1, H2. reflexivity. Qed.

Lemma retry_loop_env cfg params key e e' : forall fuel n le,
  (forall m, (n <= m)%nat -> Z.of_nat m <= maxRetries cfg ->
     env_fetch e m = env_fetch e' m /\ env_rpc e m = env_rpc e' m /\
     env_random e m = env_random e' m) ->
  retry_loop cfg params key e n le fuel = retry_loop cfg params key e' n le fuel.
Proof.
  induction fuel as [|fuel IH]; intros n le Hag; [reflexivity|].
  cbn [retry_loop].
  destruct (Z.of_nat n <=? maxRetries cfg) eqn:Hn; [|reflexivity].
  apply Z.leb_le in Hn.
  destruct (Hag n ltac:(lia) Hn) as [Hf [Hr Hd]].
  rewrite (try_block_env cfg params key e e' n Hf Hr), Hd.
  destruct (catch_clause (try_block cfg params key e' n)); try reflexivity.
  rewrite (IH (S n)); [reflexivity|]. intros m Hm. apply Hag. lia.
Qed.

Lemma retry_loop_first_iteration cfg params key e it :
  0 <= maxRetries cfg ->
  catch_clause (try_block cfg params key e 0) = it ->
  (forall r, it = IterReturn r ->
     retry_loop cfg params key e 0 None (Z.to_nat (maxRetries cfg + 1)) = (Returns r, [])) /\
  (forall err, it = IterThrow err ->
     retry_loop cfg params key e 0 None (Z.to_nat (maxRetries cfg + 1)) = (Throws err, [])).
Proof.
  intros Hm Hc.
  destruct (Z.to_nat (maxRetries cfg + 1)) as [|f] eqn:Ef; [lia|].
  cbn [retry_loop]. replace (Z.of_nat 0 <=? maxRetries cfg) with true
    by (symmetry; apply Z.leb_le; lia).
  rewrite Hc. split; intros ? ->; reflexivity.
Qed.

Lemma visible_passes uid a :
  visible uid a = true -> passes_owner_check (acc_user_id a) uid.
Proof.
  unfold visible, passes_owner_check. destruct (acc_user_id a) as [u|]; [|now left].
  destruct uid as [v|]; [|discriminate]. intros E. apply Z.eqb_eq in E. subst. auto.
Qed.

(** The sleeps of [updateBalance] are the backoff delays of attempts
    0, 1, ..., k-1 in this order, each computed with that attempt's draw,
    and there are at most [maxRetries] of them (none when [maxRetries] is not
    positive): no sleep follows the last permitted attempt. *)
Theorem sleeps_follow_attempts params cfg e g :
  exists k, snd (updateBalance params cfg e g)
            = map (fun i => calculateBackoffDelay i cfg (env_random e i)) (seq 0 k) /\
            (k <= Z.to_nat (maxRetries cfg))%nat.
Proof. exact (updateBalance_delays params cfg e g). Qed.

(** With non-negative [baseDelayMs] and [maxDelayMs] and every draw in
    [[0, 1)], every sleep of [updateBalance] lasts between 0 and
    [round(1.25 * maxDelayMs)] milliseconds. *)
Theorem sleeps_bounded params cfg e g :
  (0 <= baseDelayMs cfg)%Q -> (0 <= maxDelayMs cfg)%Q ->
  (forall i, (0 <= env_random e i < 1)%Q) ->
  Forall (fun d => 0 <= d <= Math_round ((5 # 4) * maxDelayMs cfg))
    (snd (updateBalance params cfg e g)).
Proof.
  intros Hb Hm Hr. destruct (updateBalance_delays params cfg e g) as [k [-> _]].
  apply Forall_map. apply Forall_forall. intros i _. apply delay_range; auto.
Qed.

Lemma sleeps_bounded_witness :
  Forall (fun d => 0 <= d <= Math_round ((5 # 4) * maxDelayMs DEFAULT_RETRY_CONFIG))
    (snd (updateBalance (mkParams 1 1000 "deposit" (Some 5)) DEFAULT_RETRY_CONFIG
            conflict_once_env 9)).
Proof.
  apply sleeps_bounded.
  - unfold Qle. simpl. lia.
  - unfold Qle. simpl. lia.
  - intros i. split; unfold Qle, Qlt; simpl; lia.
Defined.

(** A negative [maxRetries] leaves no attempt: a valid request ends at once
    with MAX_RETRIES_EXCEEDED carrying no balance and no version; the account
    is not read, the RPC is not called and nothing is slept. *)
Theorem negative_max_retries_no_attempt params cfg e g :
  0 < amount params -> type_ params = "deposit" \/ type_ params = "withdraw" ->
  maxRetries cfg < 0 ->
  updateBalance params cfg e g = (Throws (max_retries_exceeded None), []).
Proof.
  intros Ha Ht Hm. rewrite (updateBalance_valid params cfg e g Ha Ht).
  replace (Z.to_nat (maxRetries cfg + 1)) with 0%nat by lia. reflexivity.
Qed.

Lemma negative_max_retries_no_attempt_witness :
  updateBalance (mkParams 1 1000 "deposit" (Some 5))
    (mkRetryConfig (-1) 100 2000 [VERSION_CONFLICT; NETWORK_ERROR]) conflict_once_env 9
  = (Throws (max_retries_exceeded None), []).
Proof.
  apply negative_max_retries_no_attempt; simpl; auto; lia.
Defined.

(** [updateBalance] makes at most [maxRetries + 1] attempts: two
    environments that answer alike at attempts 0 .. maxRetries (account
    read, RPC answer and draw) give the same outcome and the same sleeps. *)
Theorem attempts_bounded params cfg e e' g :
  (forall m, Z.of_nat m <= maxRetries cfg ->
     env_fetch e m = env_fetch e' m /\ env_rpc e m = env_rpc e' m /\
     env_random e m = env_random e' m) ->
  updateBalance params cfg e g = updateBalance params cfg e' g.
Proof.
  intros Hag. unfold updateBalance.
  destruct (amount params <=? 0); [reflexivity|].
  destruct (negb _); [reflexivity|].
  apply retry_loop_env. intros m _ Hm. apply Hag. exact Hm.
Qed.

Lemma attempts_bounded_witness :
  updateBalance (mkParams 1 1000 "deposit" (Some 5)) DEFAULT_RETRY_CONFIG conflict_once_env 9
  = updateBalance (mkParams 1 1000 "deposit" (Some 5)) DEFAULT_RETRY_CONFIG
      (mkEnv (fun n => if (n <=? 3)%nat then env_fetch conflict_once_env n else FetchThrows)
             (fun n => if (n <=? 3)%nat then env_rpc conflict_once_env n else fun _ => RpcThrows)
             (env_random conflict_once_env)) 9.
Proof.
  apply attempts_bounded. intros m Hm. simpl in Hm.
  assert (E : (m <=? 3)%nat = true) by (apply Nat.leb_le; lia).
  simpl. rewrite E. auto.
Defined.

(** The client against a database no one else writes: for an account the
    caller can see (a demo account or the caller's own), at the version read,
    a valid deposit or withdrawal whose key no audit entry bears and whose
    new balance lies in [0, 10^13) (in cents) succeeds at the first attempt,
    returning the new balance and the next version, without sleeping. *)
Theorem client_commits_first_attempt params cfg e g s uid a nb :
  0 < amount params < 10 ^ 15 ->
  (type_ params = "deposit" /\ nb = acc_balance a + amount params \/
   type_ params = "withdraw" /\ nb = acc_balance a - amount params) ->
  0 <= nb < 10 ^ 15 ->
  find_account (accountId params) (accounts s) = Some a -> visible uid a = true ->
  - 2 ^ 31 <= acc_version a < 2 ^ 31 - 1 ->
  key_unused s (Some (key_of params g)) -> 0 <= maxRetries cfg ->
  env_fetch e 0 = account_read s uid (accountId params) ->
  env_rpc e 0 = rpc_call s uid ->
  updateBalance params cfg e g
  = (Returns (mkResult true (Some nb) (Some (acc_version a + 1)) None None), []).
Proof.
  intros Ha Hty Hnb Hf Hvis Hv Hk Hm Hfe Hrp.
  assert (Ht : type_ params = "deposit" \/ type_ params = "withdraw")
    by (destruct Hty as [[-> _] | [-> _]]; auto).
  rewrite (updateBalance_valid params cfg e g ltac:(lia) Ht).
  destruct (request_commits s uid (accountId params) (amount params) (Some (type_ params))
              (acc_version a) (Some (key_of params g)) a nb Hf (visible_passes _ _ Hvis)
              eq_refl Ha ltac:(lia) Hk
              ltac:(destruct Hty as [[-> ->] | [-> ->]]; auto) Hnb) as [accs [Hc _]].
  eapply retry_loop_first_iteration; [exact Hm | | reflexivity].
  unfold try_block. rewrite Hfe. unfold account_read. rewrite Hf, Hvis.
  cbn [getAccountVersion].
  replace (String.eqb (type_ params) "withdraw" && (acc_balance a <? amount params)) with false.
  2:{ destruct Hty as [[-> ->] | [-> ->]]; [reflexivity|].
      symmetry. apply andb_false_iff. right. apply Z.ltb_ge. lia. }
  rewrite Hrp. unfold rpc_call. cbn [p_account_id p_amount p_type p_expected_version
                                     p_idempotency_key].
  unfold key_of in Hc |- *. rewrite Hc. reflexivity.
Qed.

Lemma client_commits_first_attempt_witness :
  updateBalance (mkParams 1 1000 "withdraw" (Some 5)) DEFAULT_RETRY_CONFIG
    (mkEnv (fun _ => account_read demo_db None 1) (fun _ => rpc_call demo_db None)
           (fun _ => 1 # 2)) 9
  = (Returns (mkResult true (Some 4000) (Some 2) None None), []).
Proof.
  apply (client_commits_first_attempt (mkParams 1 1000 "withdraw" (Some 5)) DEFAULT_RETRY_CONFIG
           (mkEnv (fun _ => account_read demo_db None 1) (fun _ => rpc_call demo_db None)
                  (fun _ => 1 # 2)) 9 demo_db None (mkAccount 1 None 5000 1) 4000);
    try reflexivity; try (cbn; lia).
  right. split; reflexivity.
Defined.

(** The client cannot reach an account the caller cannot see: when the
    account read returns no row (missing account, or an account owned by
    someone else, or owned at all for an anonymous caller), a valid request
    throws ACCOUNT_NOT_FOUND at the first attempt, without calling the RPC
    and without sleeping, although the RPC itself would let an anonymous
    caller through. *)
Theorem client_stops_at_hidden_account params cfg e g s uid :
  0 < amount params -> type_ params = "deposit" \/ type_ params = "withdraw" ->
  0 <= maxRetries cfg ->
  match find_account (accountId params) (accounts s) with
  | Some a => visible uid a = false
  | None => True
  end ->
  env_fetch e 0 = account_read s uid (accountId params) ->
  updateBalance params cfg e g = (Throws (mkBankingError ACCOUNT_NOT_FOUND None None), []).
Proof.
  intros Ha Ht Hm Hh Hfe.
  rewrite (updateBalance_valid params cfg e g Ha Ht).
  eapply retry_loop_first_iteration; [exact Hm | | reflexivity].
  unfold try_block. rewrite Hfe. unfold account_read.
  destruct (find_account (accountId params) (accounts s)) as [a|]; [rewrite Hh|];
    reflexivity.
Qed.

Lemma client_stops_at_hidden_account_witness :
  updateBalance (mkParams 1 1000 "deposit" (Some 5)) DEFAULT_RETRY_CONFIG
    (mkEnv (fun _ => account_read two_owners_db None 1) (fun _ => rpc_call two_owners_db None)
           (fun _ => 1 # 2)) 9
  = (Throws (mkBankingError ACCOUNT_NOT_FOUND None None), []).
Proof.
  apply (client_stops_at_hidden_account (mkParams 1 1000 "deposit" (Some 5))
           DEFAULT_RETRY_CONFIG
           (mkEnv (fun _ => account_read two_owners_db None 1)
                  (fun _ => rpc_call two_owners_db None) (fun _ => 1 # 2)) 9
           two_owners_db None); try reflexivity; try (cbn; lia).
  left. reflexivity.
Defined.

(** A committed withdrawal whose response was lost is not replayed by the
    client: after [update_balance] has applied a withdrawal with key [k],
    when the remaining balance is below the amount, the client's retry with
    the same key reads the new balance and throws INSUFFICIENT_FUNDS from its
    pre-check at the first attempt, while the database, asked again with that
    key at the version the client reads, would return the cached success. *)
Theorem lost_withdrawal_response_not_replayed s uid x amt ev k r s' a cfg e g :
  update_balance s uid x amt (Some "withdraw") ev (Some k) = Ok (r, s') ->
  success r = true -> error_message r = None ->
  find_account x (accounts s) = Some a -> visible uid a = true ->
  0 < amt < 10 ^ 15 -> acc_balance a - amt < amt -> 0 <= maxRetries cfg ->
  env_fetch e 0 = account_read s' uid x ->
  updateBalance (mkParams x amt "withdraw" (Some k)) cfg e g
  = (Throws (mkBankingError INSUFFICIENT_FUNDS (new_balance r) (new_version r)), []) /\
  update_balance s' uid x amt (Some "withdraw") (ev + 1) (Some k)
  = Ok (mkRow true (new_balance r) (new_version r) None (Some msg_idempotent), s').
Proof.
  intros H Hs Hm Hf Hvis Ha Hlow Hmr Hfe.
  assert (Hshape := update_balance_success _ _ _ _ _ _ _ _ _ H Hs Hm).
  destruct Hshape as [a0 [nb [accs [Hf0 [Hu [Hv [Hty [Hnb [Hev [Hk [Hr [Hs' [Hf' _]]]]]]]]]]]]].
  rewrite Hf in Hf0. injection Hf0 as <-.
  destruct Hty as [[E _] | [_ Enb]]; [discriminate|].
  split.
  - rewrite (updateBalance_valid (mkParams x amt "withdraw" (Some k)) cfg e g
               ltac:(simpl; lia) ltac:(simpl; auto)).
    eapply retry_loop_first_iteration; [exact Hmr | | reflexivity].
    unfold try_block. rewrite Hfe. unfold account_read. rewrite Hs'. cbn [accounts].
    rewrite Hf'.
    assert (Hvis' : visible uid (mkAccount x (acc_user_id a) nb (ev + 1)) = true)
      by exact Hvis.
    rewrite Hvis'. cbn [getAccountVersion type_ amount acc_version acc_balance].
    change (String.eqb "withdraw" "withdraw") with true. cbn [andb].
    replace (nb <? amt) with true by (symmetry; apply Z.ltb_lt; lia).
    rewrite Hr. reflexivity.
  - apply (replay_after_success s uid x amt (Some "withdraw") ev k r s' amt
             (Some "withdraw") (ev + 1)); auto; lia.
Qed.

Lemma lost_withdrawal_response_not_replayed_witness :
  updateBalance (mkParams 1 3000 "withdraw" (Some 5)) DEFAULT_RETRY_CONFIG
    (mkEnv (fun _ => account_read
                       (mkDb [mkAccount 1 None 2000 2]
                          [mkTxn 1 (Some "withdraw") 3000 (Some 5000) (Some 2000) (Some 2)
                             Completed None (Some 5)]) None 1)
           (fun _ _ => RpcThrows) (fun _ => 1 # 2)) 9
  = (Throws (mkBankingError INSUFFICIENT_FUNDS (Some 2000) (Some 2)), []) /\
  update_balance (mkDb [mkAccount 1 None 2000 2]
                   [mkTxn 1 (Some "withdraw") 3000 (Some 5000) (Some 2000) (Some 2)
                      Completed None (Some 5)]) None 1 3000 (Some "withdraw") (1 + 1) (Some 5)
  = Ok (mkRow true (Some 2000) (Some 2) None (Some msg_idempotent),
        mkDb [mkAccount 1 None 2000 2]
          [mkTxn 1 (Some "withdraw") 3000 (Some 5000) (Some 2000) (Some 2)
             Completed None (Some 5)]).
Proof.
  apply (lost_withdrawal_response_not_replayed demo_db None 1 3000 1 5
           (mkRow true (Some 2000) (Some 2) None None)
           (mkDb [mkAccount 1 None 2000 2]
              [mkTxn 1 (Some "withdraw") 3000 (Some 5000) (Some 2000) (Some 2)
                 Completed None (Some 5)])
           (mkAccount 1 None 5000 1)); try reflexivity; try (cbn; lia).
Defined.

End ClientMore.

(** * Properties of the form validators *)

Module ValidationFacts.
Import Validations.

(** A character that [[^\s@]] accepts. *)
Definition email_char (c : ascii) : bool := negb (is_ws c || Ascii.eqb c "@"%char).

(** [s] is [local@domain.tld]: three non-empty runs of characters other than
    white space and [@], the second and third separated by a dot. *)
Definition email_shape (s : string) : Prop :=
  exists l d t, l <> [] /\ d <> [] /\ t <> [] /\
    forallb email_char l = true /\ forallb email_char d = true /\
    forallb email_char t = true /\
    list_ascii_of_string s = l ++ "@"%char :: d ++ "."%char :: t.

Lemma match_plus_spec a k s :
  match_plus a k s = true <->
  exists p r, p <> [] /\ forallb (atom_ok a) p = true /\ s = p ++ r /\ k r = true.
Proof.
  induction s as [|c s IH]; cbn [match_plus].
  - split; [discriminate|]. intros [p [r [Hp [_ [E _]]]]].
    destruct p; [congruence | discriminate].
  - rewrite andb_true_iff, orb_true_iff, IH. split.
    + intros [Hc [[p [r [Hp [Ha [-> Hk]]]]] | Hk]].
      * exists (c :: p), r. cbn [forallb]. rewrite Hc, Ha. repeat split; auto; discriminate.
      * exists [c], s. cbn [forallb]. rewrite Hc. repeat split; auto; discriminate.
    + intros [[|c' p] [r [Hp [Ha [E Hk]]]]]; [congruence|].
      injection E as <- ->. cbn [forallb] in Ha. apply andb_true_iff in Ha as [Hc Ha].
      split; [exact Hc|]. destruct p as [|c'' p]; [right; exact Hk|].
      left. exists (c'' :: p), r. repeat split; auto; discriminate.
Qed.

Lemma forallb_part l :
  forallb (atom_ok (ANegClass [ClsSpace; ClsChar "@"%char])) l = forallb email_char l.
Proof.
  induction l as [|c l IH]; [reflexivity|]. cbn [forallb]. rewrite IH.
  unfold atom_ok, email_char. cbn [existsb item_ok]. rewrite orb_false_r. reflexivity.
Qed.

Lemma match_terms_once a ts c r :
  match_terms (Once a :: ts) (c :: r) = atom_ok a c && match_terms ts r.
Proof. reflexivity. Qed.

Lemma match_terms_plus a ts s :
  match_terms (Plus a :: ts) s = match_plus a (match_terms ts) s.
Proof. reflexivity. Qed.

Lemma match_tld r :
  match_terms [Once (AChar "."%char); Plus (ANegClass [ClsSpace; ClsChar "@"%char])] r = true <->
  exists t, t <> [] /\ forallb email_char t = true /\ r = "."%char :: t.
Proof.
  destruct r as [|c r]; [split; [discriminate | intros [t [_ [_ E]]]; discriminate]|].
  rewrite match_terms_once, match_terms_plus, andb_true_iff, match_plus_spec.
  cbn [atom_ok]. split.
  - intros [Hc [p [r' [Hp [Ha [-> Hk]]]]]]. apply Ascii.eqb_eq in Hc as ->.
    destruct r'; [|discriminate]. exists p. rewrite app_nil_r, <- forallb_part. auto.
  - intros [t [Ht [Ha E]]]. injection E as -> ->. split; [apply Ascii.eqb_refl|].
    exists t, []. rewrite app_nil_r, forallb_part. auto.
Qed.

Lemma match_domain r :
  match_terms [Once (AChar "@"%char); Plus (ANegClass [ClsSpace; ClsChar "@"%char]);
               Once (AChar "."%char); Plus (ANegClass [ClsSpace; ClsChar "@"%char])] r = true <->
  exists d t, d <> [] /\ t <> [] /\ forallb email_char d = true /\
    forallb email_char t = true /\ r = "@"%char :: d ++ "."%char :: t.
Proof.
  destruct r as [|c r]; [split; [discriminate | intros [d [t [_ [_ [_ [_ E]]]]]]; discriminate]|].
  rewrite match_terms_once, match_terms_plus, andb_true_iff, match_plus_spec.
  cbn [atom_ok]. split.
  - intros [Hc [d [r' [Hd [Ha [-> Hk]]]]]]. apply Ascii.eqb_eq in Hc as ->.
    apply match_tld in Hk as [t [Ht [Ht' ->]]].
    exists d, t. rewrite <- forallb_part. auto.
  - intros [d [t [Hd [Ht [Ha [Ht' E]]]]]]. injection E as -> ->.
    split; [apply Ascii.eqb_refl|].
    exists d, ("."%char :: t). rewrite forallb_part. repeat split; auto.
    apply match_tld. eauto.
Qed.

Lemma email_regex_spec s :
  regex_test emailRegex s = true <-> email_shape s.
Proof.
  unfold regex_test, email_shape, emailRegex. cbv zeta.
  rewrite match_terms_plus, match_plus_spec. split.
  - intros [l [r [Hl [Ha [E Hk]]]]]. apply match_domain in Hk as [d [t [Hd [Ht [Hd' [Ht' ->]]]]]].
    rewrite forallb_part in Ha. exists l, d, t. auto 8.
  - intros [l [d [t [Hl [Hd [Ht [Hl' [Hd' [Ht' E]]]]]]]]].
    exists l, ("@"%char :: d ++ "."%char :: t). rewrite forallb_part.
    repeat split; auto. apply match_domain. exists d, t. auto.
Qed.

Lemma trim_start_nil l : trim_start l = [] <-> forallb is_ws l = true.
Proof.
  induction l as [|c l IH]; [split; reflexivity|]. cbn [trim_start forallb].
  destruct (is_ws c); cbn [andb]; [exact IH | split; discriminate].
Qed.

Lemma trim_start_head l c r : trim_start l = c :: r -> is_ws c = false.
Proof.
  induction l as [|c' l IH]; cbn [trim_start]; [discriminate|].
  destruct (is_ws c') eqn:E; [exact IH | intros H; injection H as <- _; exact E].
Qed.

Lemma forallb_rev {A} (f : A -> bool) l : forallb f (rev l) = forallb f l.
Proof.
  induction l as [|x l IH]; [reflexivity|]. cbn [rev forallb].
  rewrite forallb_app, IH. cbn [forallb]. rewrite andb_true_r, andb_comm. reflexivity.
Qed.

Lemma trim_nil l : trim l = [] <-> forallb is_ws l = true.
Proof.
  unfold trim. rewrite <- trim_start_nil. split.
  - intros H. destruct (rev (trim_start (rev (trim_start l)))) eqn:E; [|discriminate].
    apply (f_equal (@rev ascii)) in E. rewrite rev_involutive in E. cbn in E.
    apply trim_start_nil in E. rewrite forallb_rev in E.
    destruct (trim_start l) as [|c r] eqn:E'; [reflexivity|].
    cbn [forallb] in E. rewrite (trim_start_head l c r E') in E. discriminate.
  - intros ->. reflexivity.
Qed.

Lemma shape_not_blank s : email_shape s -> forallb is_ws (list_ascii_of_string s) = false.
Proof.
  intros [l [d [t [_ [_ [_ [_ [_ [_ E]]]]]]]]]. rewrite E, forallb_app.
  cbn [forallb]. change (is_ws "@"%char) with false. rewrite andb_false_r. reflexivity.
Qed.

Lemma password_valid p : isValid (validatePassword p) = true <-> (6 <= String.length p)%nat.
Proof.
  unfold validatePassword. destruct p as [|c p].
  - cbn. split; [discriminate | lia].
  - destruct (String.length (String c p) <? 6)%nat eqn:E.
    + apply Nat.ltb_lt in E. cbn -[String.length]. split; [discriminate | lia].
    + apply Nat.ltb_ge in E. cbn -[String.length]. split; auto.
Qed.

Lemma confirm_valid p c :
  isValid (validateConfirmPassword p c) = true <-> c <> EmptyString /\ c = p.
Proof.
  unfold validateConfirmPassword. destruct c as [|x c].
  - cbn. split; [discriminate | intros [H _]; congruence].
  - destruct (String.eqb p (String x c)) eqn:E; cbn [negb isValid].
    + apply String.eqb_eq in E. split; [intros _; split; [discriminate | auto] | auto].
    + apply String.eqb_neq in E. split; [discriminate | intros [_ H]; congruence].
Qed.

Lemma set_if_invalid_length k r o :
  List.length (set_if_invalid k r o) = (List.length o + if isValid r then 0 else 1)%nat.
Proof.
  unfold set_if_invalid. destruct (isValid r); cbn [negb].
  - lia.
  - rewrite length_app. reflexivity.
Qed.

Lemma email_valid_iff s : isValid (validateEmail s) = true <-> email_shape s.
Proof.
  unfold validateEmail. destruct (trim (list_ascii_of_string s)) as [|c r] eqn:E.
  - apply trim_nil in E. cbn. split; [discriminate|].
    intros H. rewrite (shape_not_blank s H) in E. discriminate.
  - rewrite <- email_regex_spec. destruct (regex_test emailRegex s); cbn; split; auto.
Qed.

(** [validateEmail] accepts exactly the strings [local@domain.tld] whose
    three parts are non-empty and free of white space and [@]: so an accepted
    address holds exactly one [@] and no white space, and the domain part may
    itself hold dots. *)
Theorem email_accepted_iff s :
  isValid (validateEmail s) = true <-> email_shape s.
Proof. exact (email_valid_iff s). Qed.

(** [validateEmail] reports "Email is required" exactly for the strings made
    only of white space (the empty string included); any other refused
    string gets "Please enter a valid email". *)
Theorem email_required_iff_blank s :
  (error (validateEmail s) = Some "Email is required" <->
   forallb is_ws (list_ascii_of_string s) = true) /\
  (isValid (validateEmail s) = false ->
   forallb is_ws (list_ascii_of_string s) = false ->
   error (validateEmail s) = Some "Please enter a valid email").
Proof.
  split.
  - unfold validateEmail. rewrite <- trim_nil.
    destruct (trim (list_ascii_of_string s)); [split; reflexivity|].
    destruct (negb (regex_test emailRegex s)); cbn; split; discriminate.
  - intros Hv Hb. unfold validateEmail in *.
    destruct (trim (list_ascii_of_string s)) eqn:Ht.
    + apply trim_nil in Ht. congruence.
    + destruct (negb (regex_test emailRegex s)); [reflexivity | discriminate].
Qed.

Lemma email_required_iff_blank_witness :
  (error (validateEmail "  ") = Some "Email is required" <->
   forallb is_ws (list_ascii_of_string "  ") = true) /\
  error (validateEmail "a@b") = Some "Please enter a valid email".
Proof.
  split.
  - exact (proj1 (email_required_iff_blank "  ")).
  - apply (proj2 (email_required_iff_blank "a@b")); vm_compute; reflexivity.
Defined.

(** The login form is valid exactly when the email has the accepted shape
    and the password has at least six characters (spaces count: the
    password is not trimmed). *)
Theorem login_form_valid_iff email password :
  fst (validateLoginForm email password) = true <->
  email_shape email /\ (6 <= String.length password)%nat.
Proof.
  unfold validateLoginForm. cbn [fst]. rewrite Nat.eqb_eq, !set_if_invalid_length.
  rewrite <- email_valid_iff, <- password_valid.
  destruct (isValid (validateEmail email)), (isValid (validatePassword password));
    cbn; split; intuition (try discriminate; try lia).
Qed.

(** The registration form is valid exactly when the email has the accepted
    shape, the password has at least six characters and the confirmation
    equals the password. *)
Theorem register_form_valid_iff email password confirmPassword :
  fst (validateRegisterForm email password confirmPassword) = true <->
  email_shape email /\ (6 <= String.length password)%nat /\ confirmPassword = password.
Proof.
  unfold validateRegisterForm. cbn [fst]. rewrite Nat.eqb_eq, !set_if_invalid_length.
  rewrite <- email_valid_iff, <- password_valid.
  assert (Hc := confirm_valid password confirmPassword).
  destruct (isValid (validateEmail email)), (isValid (validatePassword password)) eqn:Hp,
    (isValid (validateConfirmPassword password confirmPassword));
    cbn; split; intros H; try discriminate; try (destruct H as (? & ? & ?); discriminate).
  - split; [reflexivity|]. split; [reflexivity|]. apply Hc. reflexivity.
  - reflexivity.
  - destruct H as [_ [_ ->]]. exfalso. assert (false = true); [|discriminate].
    apply Hc. split; [|reflexivity]. intros E. apply password_valid in Hp.
    rewrite E in Hp. cbn in Hp. lia.
Qed.

End ValidationFacts.
